(** * SessionLink: a shallow embedding of the extension's core

    The development follows the repository's scripts:
    - the content script (platform table, [detectPlatform],
      [scrapeConversation], [sanitize]) in its callback-based revision
      (src/unnamed/part_002, first script) and in its async revision
      (src/unnamed/part_002, second script);
    - the background service worker ([handleSummarize], [saveSummary],
      [deleteSave]) in its callback-based revision (src/unnamed/part_001)
      and in its promise-based revision (src/scripts/background.js).

    JavaScript strings are sequences of UTF-16 code units; a code unit is
    a binary natural number.  String literals of the scripts are written as
    Rocq string literals and read through [ustr]. *)

From Stdlib Require Import List String Ascii NArith ZArith Bool Arith Lia.
From Stdlib Require Import Numbers.DecimalString.
From Stdlib Require Import Permutation Sorting.Sorted.
Import ListNotations.

Set Implicit Arguments.

(* ================================================================== *)
(** ** JavaScript strings *)

Definition codeunit := N.
Definition jsstring := list codeunit.

Definition ustr (s : string) : jsstring :=
  List.map N_of_ascii (list_ascii_of_string s).

Coercion ustr : string >-> jsstring.

Open Scope string_scope.
Open Scope list_scope.

Module JS.

(** [a === b] on strings. *)
Fixpoint streq (a b : jsstring) : bool :=
  match a, b with
  | [], [] => true
  | x :: a', y :: b' => N.eqb x y && streq a' b'
  | _, _ => false
  end.

(** [s.startsWith(p)]: the code units of [p] open [s]. *)
Fixpoint startsWith (p s : jsstring) : bool :=
  match p, s with
  | [], _ => true
  | _ :: _, [] => false
  | x :: p', y :: s' => N.eqb x y && startsWith p' s'
  end.

(** [s.indexOf(p) !== -1], which is also [s.includes(p)]. *)
Fixpoint includes (p s : jsstring) : bool :=
  startsWith p s ||
  match s with
  | [] => false
  | _ :: s' => includes p s'
  end.

(** [s.substring(0, n)] for a non-negative integer [n]. *)
Definition substring0 (n : nat) (s : jsstring) : jsstring := firstn n s.

(** White space and line terminators, as [\s] and [trim] see them. *)
Definition isWhite (c : codeunit) : bool :=
  ((9 <=? c) && (c <=? 13) || (c =? 32) || (c =? 160) || (c =? 5760)
   || (8192 <=? c) && (c <=? 8202) || (c =? 8232) || (c =? 8233)
   || (c =? 8239) || (c =? 8287) || (c =? 12288) || (c =? 65279))%N.

Fixpoint trimStart (s : jsstring) : jsstring :=
  match s with
  | [] => []
  | c :: t => if isWhite c then trimStart t else s
  end.

Definition trimEnd (s : jsstring) : jsstring := rev (trimStart (rev s)).

(** [s.trim()]. *)
Definition trim (s : jsstring) : jsstring := trimEnd (trimStart s).

(** [\w] without the unicode flag: ASCII letters, digits and [_]. *)
Definition isWord (c : codeunit) : bool :=
  ((65 <=? c) && (c <=? 90) || (97 <=? c) && (c <=? 122)
   || (48 <=? c) && (c <=? 57) || (c =? 95))%N.

(** Canonicalisation of the [i] flag, restricted to what an ASCII pattern
    can meet: a code unit below 128 is upper-cased, any other code unit
    never canonicalises to an ASCII one and is left alone. *)
Definition canon (c : codeunit) : codeunit :=
  if ((97 <=? c) && (c <=? 122))%N then (c - 32)%N else c.

Definition ceq (a b : codeunit) : bool := N.eqb (canon a) (canon b).

(** The literal [p], compared case-insensitively, opens [s]; the rest of
    [s] after the literal is returned. *)
Fixpoint afterLiteral (p s : jsstring) : option jsstring :=
  match p, s with
  | [], _ => Some s
  | _ :: _, [] => None
  | x :: p', y :: s' => if ceq x y then afterLiteral p' s' else None
  end.

(** [String(n)] for a non-negative integer. *)
Definition ofNumber (n : N) : jsstring :=
  ustr (NilEmpty.string_of_uint (N.to_uint n)).

(** Truthiness of a string value. *)
Definition truthy (s : jsstring) : bool :=
  match s with [] => false | _ => true end.

End JS.

(** A value that the scripts expect to be a string but that may be [null]
    or [undefined]. *)
Inductive strval :=
| VNull
| VUndefined
| VStr (s : jsstring).

(* ================================================================== *)
(** ** Regular-expression passes of the sanitizer

    Every pattern of [sanitize] is used as [text.replace(/re/g, '')]: the
    text is scanned from the left, the leftmost match is deleted and the
    scan resumes behind it.  A pattern is embedded as a matcher: for the
    text that starts at the scan position it returns the length of the
    match there, if there is one.  None of the patterns matches the empty
    string. *)

Module Regex.
Import JS.

Definition matcher := jsstring -> option nat.

(** [s.replace(/re/g, '')].  [skip] counts the code units of the current
    match that are still to be dropped. *)
Fixpoint removeAll (m : matcher) (skip : nat) (s : jsstring) : jsstring :=
  match s with
  | [] => []
  | c :: t =>
      match skip with
      | S k => removeAll m k t
      | O =>
          match m s with
          | Some (S k) => removeAll m k t
          | _ => c :: removeAll m 0 t
          end
      end
  end.

(** [/re/.test(s)]: the pattern matches somewhere in [s]. *)
Fixpoint test (m : matcher) (s : jsstring) : bool :=
  match m s with
  | Some (S _) => true
  | _ => match s with
         | [] => false
         | _ :: t => test m t
         end
  end.

(** Index of the first code unit equal to [stop]. *)
Fixpoint upTo (stop : codeunit) (s : jsstring) : option nat :=
  match s with
  | [] => None
  | c :: t => if N.eqb c stop then Some 0 else option_map S (upTo stop t)
  end.

(** Index of the first position where the literal [p] matches,
    case-insensitively. *)
Fixpoint findLiteral (p s : jsstring) : option nat :=
  match afterLiteral p s with
  | Some _ => Some 0
  | None => match s with
            | [] => None
            | _ :: t => option_map S (findLiteral p t)
            end
  end.

(** Length of the longest prefix whose code units satisfy [f]. *)
Fixpoint span (f : codeunit -> bool) (s : jsstring) : nat :=
  match s with
  | [] => 0
  | c :: t => if f c then S (span f t) else 0
  end.

Definition LT : codeunit := 60%N.  (* < *)
Definition GT : codeunit := 62%N.  (* > *)
Definition EQUALS : codeunit := 61%N.  (* = *)

(** [/<open[^>]*>[\s\S]*?<\/close>/gi] with [open] = [<script] or
    [<style]: the greedy [[^>]*] stops at the first [>], which the next
    atom needs; the lazy [[\s\S]*?] stops at the first closing tag. *)
Definition block (open close : jsstring) : matcher := fun s =>
  match afterLiteral open s with
  | None => None
  | Some r =>
      match upTo GT r with
      | None => None
      | Some k =>
          match findLiteral close (skipn (S k) r) with
          | None => None
          | Some j => Some (List.length open + k + 1 + j + List.length close)
          end
      end
  end.

(** The older pattern of [sanitizeText] (part_002 lines 651-652): the
    opening literal, a word boundary [\b], code units other than [<], then
    repeatedly a [<] that does not start the closing tag followed by code
    units other than [<], and the closing tag.  The negative lookahead
    stops the repetition at the first closing tag, and the closing tag
    can only match at a [<]: the match ends with the first closing tag. *)
Definition blockB (open close : jsstring) : matcher := fun s =>
  match afterLiteral open s with
  | None => None
  | Some r =>
      if match r with [] => true | c :: _ => negb (isWord c) end then
        match findLiteral close r with
        | None => None
        | Some j => Some (List.length open + j + List.length close)
        end
      else None
  end.

(** [/<[^>]+>/g]. *)
Definition tag : matcher := fun s =>
  match s with
  | [] => None
  | c :: r =>
      if N.eqb c LT then
        match upTo GT r with
        | Some (S k) => Some (1 + S k + 1)
        | _ => None
        end
      else None
  end.

(** [/javascript:/gi]. *)
Definition jsUri : matcher := fun s =>
  match afterLiteral "javascript:" s with
  | Some _ => Some 11
  | None => None
  end.

(** [/on\w+\s*=/gi]: both quantifiers are greedy, and giving back a code
    unit never lets the [=] match. *)
Definition handler : matcher := fun s =>
  match afterLiteral "on" s with
  | None => None
  | Some r =>
      match span isWord r with
      | O => None
      | S k =>
          let r1 := skipn (S k) r in
          let w := span isWhite r1 in
          match skipn w r1 with
          | c :: _ => if N.eqb c EQUALS then Some (2 + S k + w + 1) else None
          | [] => None
          end
      end
  end.

End Regex.

(* ================================================================== *)
(** ** The sanitizer *)

Module Sanitizer.
Import JS Regex.

(** The five replacements and the final [trim], on a non-empty string. *)
Definition passes (script style : matcher) (text : jsstring) : jsstring :=
  trim
    (removeAll handler 0
      (removeAll jsUri 0
        (removeAll tag 0
          (removeAll style 0
            (removeAll script 0 text))))).

(** [if (!text) return '';] *)
Definition guarded (f : jsstring -> jsstring) (text : strval) : jsstring :=
  match text with
  | VStr (c :: t) => f (c :: t)
  | _ => []
  end.

(** [sanitize], src/unnamed/part_002 lines 169-178. *)
Definition sanitize (text : strval) : jsstring :=
  guarded (passes (block "<script" "</script>") (block "<style" "</style>"))
          text.

(** [sanitizeText], src/unnamed/part_002 lines 647-657. *)
Definition sanitizeText (text : strval) : jsstring :=
  guarded (passes (blockB "<script" "</script>") (blockB "<style" "</style>"))
          text.

End Sanitizer.

(* ================================================================== *)
(** ** The page: elements, selectors, queries

    The scraper observes the page through [querySelectorAll],
    [querySelector], [matches], [getAttribute], [innerText] and
    [getBoundingClientRect().top].  An element carries what these read. *)

Module Dom.
Import JS.

#[local] Unset Elimination Schemes.
Inductive element :=
| El (tagName : jsstring)                 (* local name, lower case *)
     (classList : list jsstring)
     (attributes : list (jsstring * jsstring))
     (innerText : jsstring)
     (top : Z)                            (* getBoundingClientRect().top *)
     (children : list element).
#[local] Set Elimination Schemes.

Definition tagName (e : element) := let (t, _, _, _, _, _) := e in t.
Definition classList (e : element) := let (_, c, _, _, _, _) := e in c.
Definition attributes (e : element) := let (_, _, a, _, _, _) := e in a.
Definition innerText (e : element) := let (_, _, _, x, _, _) := e in x.
Definition top (e : element) := let (_, _, _, _, y, _) := e in y.
Definition children (e : element) := let (_, _, _, _, _, c) := e in c.

Record document := {
  roots : list element;   (* the element trees of the page, in order *)
  scrollY : Z             (* window.scrollY *)
}.

(** The selectors that the message queries of the platform tables use
    are comma-separated lists of simple selectors. *)
Inductive simple :=
| ByTag (t : jsstring)          (* user-query *)
| ByClass (c : jsstring)        (* .query-text *)
| HasAttr (a : jsstring)        (* [data-message-author-role] *)
| AttrIs (a v : jsstring).      (* [data-testid="user-message"] *)

Definition selector := list simple.

(** [el.getAttribute(a)]; [None] is [null]. *)
Fixpoint lookupAttr (a : jsstring) (l : list (jsstring * jsstring))
  : option jsstring :=
  match l with
  | [] => None
  | (k, v) :: t => if streq k a then Some v else lookupAttr a t
  end.

Definition getAttribute (e : element) (a : jsstring) : option jsstring :=
  lookupAttr a (attributes e).

Definition matchesSimple (e : element) (s : simple) : bool :=
  match s with
  | ByTag t => streq (tagName e) t
  | ByClass c => existsb (streq c) (classList e)
  | HasAttr a => match getAttribute e a with Some _ => true | None => false end
  | AttrIs a v => match getAttribute e a with
                  | Some w => streq w v
                  | None => false
                  end
  end.

(** [el.matches(sel)]. *)
Definition matches (sel : selector) (e : element) : bool :=
  existsb (matchesSimple e) sel.

(** An element followed by its descendants, in document order. *)
Fixpoint subtree (e : element) : list element :=
  match e with
  | El _ _ _ _ _ cs => e :: flat_map subtree cs
  end.

(** [document.querySelectorAll(sel)]. *)
Definition querySelectorAll (d : document) (sel : selector) : list element :=
  filter (matches sel) (flat_map subtree (roots d)).

(** [el.querySelector(sel)]: the first matching descendant. *)
Definition querySelector (e : element) (sel : selector) : option element :=
  match filter (matches sel) (flat_map subtree (children e)) with
  | [] => None
  | x :: _ => Some x
  end.

End Dom.

(* ================================================================== *)
(** ** Platform tables and the content script *)

Module Adapter.
Import JS Dom.

Record selectors := {
  userMessage : selector;
  assistantMessage : selector;
  allMessages : selector   (* named [messageContainer] in the async script *)
}.

(** A platform configuration together with its key in [PLATFORMS].  The
    selectors of the input area, of the send button and of the
    conversation area play no part in detection or scraping and are left
    out. *)
Record platform := {
  id : jsstring;
  name : jsstring;
  hostPatterns : list jsstring;
  sel : selectors;
  getMessageText : element -> jsstring
}.

(** The inner loop of [detectPlatform]: some pattern occurs in the host
    name ([hostname.indexOf(pattern) !== -1], [hostname.includes]). *)
Fixpoint anyPattern (hostname : jsstring) (pats : list jsstring) : bool :=
  match pats with
  | [] => false
  | p :: ps => if includes p hostname then true else anyPattern hostname ps
  end.

(** The outer loop, over the keys in insertion order. *)
Fixpoint detectIn (table : list platform) (hostname : jsstring)
  : option platform :=
  match table with
  | [] => None
  | cfg :: rest =>
      if anyPattern hostname (hostPatterns cfg) then Some cfg
      else detectIn rest hostname
  end.

Record message := { role : jsstring; content : jsstring }.

(** [getMessageText] of the two plain platforms. *)
Definition plainText (el : element) : jsstring := trim (innerText el).

(** [getMessageText] of ChatGPT: the text of the first descendant that
    carries the rendered message, else the element's own text. *)
Definition markdownText (inner : selector) (el : element) : jsstring :=
  match querySelector el inner with
  | Some md => trim (innerText md)
  | None => trim (innerText el)
  end.

Definition roleAttr : jsstring := "data-message-author-role".

(** The role of a node of the unified query: the role attribute when it
    is present and non-empty, else decided by the user selector. *)
Definition inferRole (s : selectors) (el : element) : jsstring :=
  let bySelector : jsstring :=
    if matches (userMessage s) el then ustr "user" else ustr "assistant" in
  match getAttribute el roleAttr with
  | Some r => if truthy r then r else bySelector
  | None => bySelector
  end.

(** The loops that push [{role, content}] for every node with a non-empty
    text. *)
Fixpoint pushAll (text : element -> jsstring)
         (nodes : list (element * jsstring)) : list message :=
  match nodes with
  | [] => []
  | (el, r) :: rest =>
      let t := text el in
      if truthy t then {| role := r; content := t |} :: pushAll text rest
      else pushAll text rest
  end.

(** [getBoundingClientRect().top + window.scrollY]. *)
Definition position (d : document) (el : element) : Z :=
  (top el + scrollY d)%Z.

(** [Array.prototype.sort] with a comparator: a stable sort; [x] is put
    before the first element that the comparator ranks after it. *)
Fixpoint insertBy (A : Type) (cmp : A -> A -> Z) (x : A) (l : list A)
  : list A :=
  match l with
  | [] => [x]
  | y :: t => if (cmp x y <=? 0)%Z then x :: l else y :: insertBy cmp x t
  end.

Definition sortBy (A : Type) (cmp : A -> A -> Z) (l : list A) : list A :=
  fold_right (insertBy cmp) [] l.

Definition tagged (r : jsstring) (els : list element)
  : list (element * jsstring) :=
  List.map (fun el => (el, r)) els.

(** The separate user and assistant queries, merged by position. *)
Definition byPosition (d : document) (s : selectors)
  : list (element * jsstring) :=
  sortBy (fun x y => (position d (fst x) - position d (fst y))%Z)
         (tagged "user" (querySelectorAll d (userMessage s))
          ++ tagged "assistant" (querySelectorAll d (assistantMessage s))).

(** The unified query with its inferred roles. *)
Definition unified (d : document) (s : selectors)
  : list (element * jsstring) :=
  List.map (fun el => (el, inferRole s el)) (querySelectorAll d (allMessages s)).

End Adapter.

(** The callback-based content script, src/unnamed/part_002 lines 1-443. *)
Module Content.
Import JS Dom Adapter.

Definition chatgpt : platform := {|
  id := "chatgpt";
  name := "ChatGPT";
  hostPatterns := [ustr "chatgpt.com"; ustr "chat.openai.com"];
  sel := {|
    userMessage := [AttrIs "data-message-author-role" "user"];
    assistantMessage := [AttrIs "data-message-author-role" "assistant"];
    allMessages := [HasAttr "data-message-author-role"] |};
  getMessageText :=
    markdownText [ByClass "markdown"; ByClass "whitespace-pre-wrap";
                  ByClass "text-message"]
|}.

Definition claude : platform := {|
  id := "claude";
  name := "Claude";
  hostPatterns := [ustr "claude.ai"];
  sel := {|
    userMessage := [AttrIs "data-testid" "user-message";
                    ByClass "font-user-message"];
    assistantMessage := [AttrIs "data-testid" "ai-message";
                         ByClass "font-claude-message"];
    allMessages := [AttrIs "data-testid" "user-message";
                    AttrIs "data-testid" "ai-message";
                    ByClass "font-user-message";
                    ByClass "font-claude-message"] |};
  getMessageText := plainText
|}.

Definition gemini : platform := {|
  id := "gemini";
  name := "Gemini";
  hostPatterns := [ustr "gemini.google.com"];
  sel := {|
    userMessage := [ByClass "query-text"; ByTag "user-query";
                    ByClass "user-query"];
    assistantMessage := [ByClass "model-response-text"; ByTag "model-response";
                         ByClass "response-content"];
    allMessages := [ByClass "query-text"; ByClass "model-response-text";
                    ByTag "user-query"; ByTag "model-response"] |};
  getMessageText := plainText
|}.

(** [Object.keys(PLATFORMS)] lists the keys in insertion order. *)
Definition PLATFORMS : list platform := [chatgpt; claude; gemini].

(** [detectPlatform], lines 68-81, as a function of
    [window.location.hostname].  The object it returns copies [name],
    [selectors] and [getMessageText] of the configuration and adds the key
    as [id]; here the configuration itself stands for it. *)
Definition detectPlatform (hostname : jsstring) : option platform :=
  detectIn PLATFORMS hostname.

(** [scrapeConversation], lines 110-166.  [maxTurns] is [None] when the
    argument is omitted; [maxTurns || 15] also replaces a zero. *)
Definition scrapeConversation (platform : platform) (d : document)
           (maxTurns : option nat) : list message :=
  let maxTurns := match maxTurns with
                  | None | Some O => 15
                  | Some n => n
                  end in
  let text := getMessageText platform in
  let messages := pushAll text (unified d (sel platform)) in
  let messages :=
    match messages with
    | [] => pushAll text (byPosition d (sel platform))
    | _ :: _ => messages
    end in
  let limit := maxTurns * 2 in
  if (limit <? List.length messages)%nat
  then skipn (List.length messages - limit) messages
  else messages.

End Content.

(** The async content script, src/unnamed/part_002 lines 445-895. *)
Module ContentAsync.
Import JS Dom Adapter.

Definition chatgpt : platform := {|
  id := "chatgpt";
  name := "ChatGPT";
  hostPatterns := [ustr "chatgpt.com"; ustr "chat.openai.com"];
  sel := {|
    userMessage := [AttrIs "data-message-author-role" "user"];
    assistantMessage := [AttrIs "data-message-author-role" "assistant"];
    allMessages := [HasAttr "data-message-author-role"] |};
  getMessageText :=
    markdownText [ByClass "markdown"; ByClass "whitespace-pre-wrap"]
|}.

Definition claude : platform := {|
  id := "claude";
  name := "Claude";
  hostPatterns := [ustr "claude.ai"];
  sel := {|
    userMessage := [AttrIs "data-testid" "user-message"];
    assistantMessage := [AttrIs "data-testid" "ai-message"];
    allMessages := [AttrIs "data-testid" "user-message";
                    AttrIs "data-testid" "ai-message"] |};
  getMessageText := plainText
|}.

Definition gemini : platform := {|
  id := "gemini";
  name := "Gemini";
  hostPatterns := [ustr "gemini.google.com"];
  sel := {|
    userMessage := [ByTag "user-query"; ByClass "user-message"];
    assistantMessage := [ByTag "model-response"; ByClass "model-response"];
    allMessages := [ByTag "message-content"; ByClass "conversation-turn"] |};
  getMessageText := plainText
|}.

(** [Object.entries(PLATFORMS)], in insertion order. *)
Definition PLATFORMS : list platform := [chatgpt; claude; gemini].

(** [detectPlatform], lines 524-532; it returns the configuration with
    its key as [id]. *)
Definition detectPlatform (hostname : jsstring) : option platform :=
  detectIn PLATFORMS hostname.

(** [messages.slice(-turns)]: the last [turns] messages; [slice(-0)] is
    [slice(0)], the whole array. *)
Definition sliceLast (A : Type) (turns : nat) (l : list A) : list A :=
  match turns with
  | O => l
  | S _ => skipn (List.length l - turns) l
  end.

(** [scrapeConversation], lines 592-638.  The default parameter replaces
    an omitted argument only. *)
Definition scrapeConversation (platform : platform) (d : document)
           (maxTurns : option nat) : list message :=
  let maxTurns := match maxTurns with
                  | None => 15
                  | Some n => n
                  end in
  let text := getMessageText platform in
  let s := sel platform in
  let messages :=
    match querySelectorAll d (userMessage s),
          querySelectorAll d (assistantMessage s) with
    | [], [] => pushAll text (unified d s)
    | _, _ => pushAll text (byPosition d s)
    end in
  sliceLast (maxTurns * 2) messages.

End ContentAsync.

(* ================================================================== *)
(** ** The store and the messages of the background service *)

Module Store.

(** A saved summary.  The async worker stores [message.platform],
    [message.url] and [message.timestamp] as they come, so these may be
    [undefined] ([None]). *)
Record Summary := {
  id : jsstring;
  summary : jsstring;
  platform : option jsstring;
  url : option jsstring;
  timestamp : option jsstring;
  preview : jsstring
}.

(** The settings object; a missing property is [None]. *)
Record Settings := {
  apiProvider : option jsstring;
  apiKey : option jsstring
}.

(** [chrome.storage.local]: the two keys the service uses; a key that
    was never written is [None]. *)
Record store := {
  settings : option Settings;
  saves : option (list Summary)
}.

(** The store right after installation ([onInstalled], reason
    [install]). *)
Definition installed : store := {|
  settings := Some {| apiProvider := Some (ustr "openai");
                      apiKey := Some (ustr "") |};
  saves := Some []
|}.

(** [result.saves || []]. *)
Definition savesOf (st : store) : list Summary :=
  match saves st with Some l => l | None => [] end.

(** [result.settings || {}]. *)
Definition settingsOf (st : store) : Settings :=
  match settings st with
  | Some s => s
  | None => {| apiProvider := None; apiKey := None |}
  end.

(** [chrome.storage.local.set({ saves: l })]. *)
Definition setSaves (st : store) (l : list Summary) : store :=
  {| settings := settings st; saves := Some l |}.

(** [chrome.storage.local.set({ settings: s })]. *)
Definition setSettings (st : store) (s : Settings) : store :=
  {| settings := Some s; saves := saves st |}.

(** The request of the content script. *)
Record summarizeRequest := {
  conversation : jsstring;
  reqPlatform : option jsstring;
  reqUrl : option jsstring;
  reqTimestamp : option jsstring
}.

Inductive request :=
| Summarize (m : summarizeRequest)
| GetLastSave
| GetAllSaves
| HasSavedState
| DeleteSave (id : jsstring)
| GetSettings
| SaveSettings (s : Settings)
| Other (action : jsstring).

Inductive payload :=
| PSummary (s : Summary)
| PSaves (l : list Summary)
| PSettings (s : Settings).

(** [{ success, data?, error?, hasSaved? }]. *)
Record response := {
  success : bool;
  data : option payload;
  error : option jsstring;
  hasSaved : option bool
}.

Definition ok : response :=
  {| success := true; data := None; error := None; hasSaved := None |}.
Definition okData (p : payload) : response :=
  {| success := true; data := Some p; error := None; hasSaved := None |}.
Definition okHasSaved (b : bool) : response :=
  {| success := true; data := None; error := None; hasSaved := Some b |}.
Definition failure (m : jsstring) : response :=
  {| success := false; data := None; error := Some m; hasSaved := None |}.

(** An exception value: [err.name] and [err.message]. *)
Record jserror := { errName : jsstring; errMessage : jsstring }.

(** [new Error(m)]. *)
Definition Error (m : jsstring) : jserror :=
  {| errName := ustr "Error"; errMessage := m |}.

(** [err.message || String(err)]. *)
Definition describe (e : jserror) : jsstring :=
  match errMessage e with
  | [] => errName e
  | m => m
  end.

(** What the network gives back to [fetch]. *)
Inductive extraction :=
| Throws (e : jserror)        (* reading the text out of the body throws *)
| Yields (v : strval).        (* the value found where the text should be *)

(** The body of the response as [response.json()] gives it.  A body
    that is the JSON value [null] has no properties: reading [error] or
    [choices] or [candidates] off it throws the TypeError [e].  Of any
    other body, [errorMessage] is what [body.error && body.error.message]
    gives when that is truthy, as the text that [new Error] makes of it,
    and [None] when it is missing, empty or otherwise falsy. *)
Inductive body :=
| Unparsable (e : jserror)    (* response.json() rejects *)
| Null (e : jserror)          (* the body is null *)
| Parsed (errorMessage : option jsstring)
         (text : extraction).

Inductive outcome :=
| Rejected (e : jserror)                      (* fetch rejects *)
| Responded (ok : bool) (status : N) (b : body).

Inductive provider := OpenAI | Gemini.

Record call := {
  callee : provider;
  key : jsstring;
  sent : jsstring
}.

(** What one handler run meets outside the store: the error, if any,
    that [chrome.runtime.lastError] reports after each storage operation,
    the outcome of the provider request, and the values of
    [generateId()] and [new Date().toISOString()]. *)
Record env := {
  settingsReadError : option jsstring;
  savesReadError : option jsstring;
  writeError : option jsstring;
  fetched : outcome;
  typeError : jserror;   (* thrown by [summary.substring] off a string *)
  newId : jsstring;
  now : jsstring
}.

(** The promise chain of [callOpenAI] and of [callGemini] after [fetch];
    [label] is the provider's name in the status message. *)
Definition providerResult (label : jsstring) (o : outcome)
  : jserror + strval :=
  match o with
  | Rejected e => inl e
  | Responded false status b =>
      let generic := Error (label ++ ustr " API error: " ++ JS.ofNumber status) in
      match b with
      | Null e => inl e
      | Parsed (Some m) _ => inl (Error m)
      | Parsed None _ | Unparsable _ => inl generic
      end
  | Responded true _ (Unparsable e) => inl e
  | Responded true _ (Null e) => inl e
  | Responded true _ (Parsed _ (Throws e)) => inl e
  | Responded true _ (Parsed _ (Yields v)) => inr v
  end.

Definition labelOf (p : provider) : jsstring :=
  match p with OpenAI => ustr "OpenAI" | Gemini => ustr "Gemini" end.

(** [x || d] on an optional string. *)
Definition orElse (x : option jsstring) (d : jsstring) : jsstring :=
  match x with
  | Some (c :: t) => c :: t
  | _ => d
  end.

End Store.

(* ================================================================== *)
(** ** The callback-based service worker, src/unnamed/part_001 *)

Module Worker.
Import JS Store.

(** The body of the [get] callback of [saveSummary], lines 181-183:
    [unshift], then cut to 20 when longer. *)
Definition bounded (saveData : Summary) (saves : list Summary)
  : list Summary :=
  let saves := saveData :: saves in
  if (20 <? List.length saves)%nat then firstn 20 saves else saves.

(** [saveSummary], lines 175-193; the result is the argument of
    [callback] ([None] is [null]) and the store afterwards. *)
Definition saveSummary (e : env) (saveData : Summary) (st : store)
  : option jsstring * store :=
  match savesReadError e with
  | Some m => (Some m, st)
  | None =>
      let saves := bounded saveData (savesOf st) in
      match writeError e with
      | Some m => (Some m, st)
      | None => (None, setSaves st saves)
      end
  end.

Definition credentialError : jsstring :=
  "API key not configured. Open the SessionLink popup and add your API key.".

(** The [then] callback of [handleSummarize], lines 96-104. *)
Definition makeSave (e : env) (m : summarizeRequest) (text : jsstring)
  : Summary := {|
    id := newId e;
    summary := text;
    platform := Some (orElse (reqPlatform m) "Unknown");
    url := Some (orElse (reqUrl m) "");
    timestamp := Some (orElse (reqTimestamp m) (now e));
    preview := substring0 120 text
  |}.

(** [handleSummarize], lines 66-119: the response passed to
    [sendResponse], the store afterwards and the provider calls made. *)
Definition handleSummarize (e : env) (m : summarizeRequest) (st : store)
  : response * store * list call :=
  match settingsReadError e with
  | Some msg => (failure msg, st, [])
  | None =>
      let settings := settingsOf st in
      match apiKey settings with
      | None | Some [] => (failure credentialError, st, [])
      | Some apiKey =>
          let provider := orElse (apiProvider settings) "openai" in
          let called :=
            if streq provider "openai" then Some OpenAI
            else if streq provider "gemini" then Some Gemini
            else None in
          match called with
          | None =>
              (failure (ustr "Invalid API provider: " ++ provider), st, [])
          | Some p =>
              let calls := [{| callee := p; key := apiKey;
                               sent := conversation m |}] in
              match providerResult (labelOf p) (fetched e) with
              | inl err => (failure (describe err), st, calls)
              | inr (VStr text) =>
                  let saveData := makeSave e m text in
                  match saveSummary e saveData st with
                  | (Some (c :: msg), st') =>
                      (failure (ustr "Saved summary but storage failed: "
                                ++ c :: msg), st', calls)
                  | (_, st') => (okData (PSummary saveData), st', calls)
                  end
              | inr _ => (failure (describe (typeError e)), st, calls)
              end
          end
      end
  end.

(** [getLastSave], lines 195-208. *)
Definition getLastSave (e : env) (st : store) : response :=
  match savesReadError e with
  | Some m => failure m
  | None => match savesOf st with
            | s :: _ => okData (PSummary s)
            | [] => failure "No saved states found"
            end
  end.

(** [getAllSaves], lines 210-218. *)
Definition getAllSaves (e : env) (st : store) : response :=
  match savesReadError e with
  | Some m => failure m
  | None => okData (PSaves (savesOf st))
  end.

(** [hasSavedState], lines 220-229. *)
Definition hasSavedState (e : env) (st : store) : response :=
  match savesReadError e with
  | Some m => failure m
  | None => okHasSaved (match savesOf st with [] => false | _ => true end)
  end.

(** The loop of [deleteSave], lines 238-241. *)
Fixpoint without (id : jsstring) (saves : list Summary) : list Summary :=
  match saves with
  | [] => []
  | s :: rest =>
      if negb (streq (Store.id s) id) then s :: without id rest
      else without id rest
  end.

(** [deleteSave], lines 231-250. *)
Definition deleteSave (e : env) (id : jsstring) (st : store)
  : response * store :=
  match savesReadError e with
  | Some m => (failure m, st)
  | None =>
      let filtered := without id (savesOf st) in
      match writeError e with
      | Some m => (failure m, st)
      | None => (ok, setSaves st filtered)
      end
  end.

(** [getSettings], lines 252-260. *)
Definition getSettings (e : env) (st : store) : response :=
  match settingsReadError e with
  | Some m => failure m
  | None => okData (PSettings (settingsOf st))
  end.

(** [saveSettings], lines 262-270. *)
Definition saveSettings (e : env) (s : Settings) (st : store)
  : response * store :=
  match writeError e with
  | Some m => (failure m, st)
  | None => (ok, setSettings st s)
  end.

(** [handleMessage], lines 37-63. *)
Definition handleMessage (e : env) (r : request) (st : store)
  : response * store * list call :=
  match r with
  | Summarize m => handleSummarize e m st
  | GetLastSave => (getLastSave e st, st, [])
  | GetAllSaves => (getAllSaves e st, st, [])
  | HasSavedState => (hasSavedState e st, st, [])
  | DeleteSave id => let (r, st') := deleteSave e id st in (r, st', [])
  | GetSettings => (getSettings e st, st, [])
  | SaveSettings s => let (r, st') := saveSettings e s st in (r, st', [])
  | Other action => (failure (ustr "Unknown action: " ++ action), st, [])
  end.

End Worker.

(* ================================================================== *)
(** ** The promise-based service worker, src/scripts/background.js *)

Module WorkerAsync.
Import JS Store.

(** Lines 185-189 of [saveSummary]: [unshift], then [slice(0, 20)]. *)
Definition bounded (saveData : Summary) (saves : list Summary)
  : list Summary :=
  firstn 20 (saveData :: saves).

(** [saveSummary], lines 177-200: the promise rejects with an error or
    resolves; the store afterwards. *)
Definition saveSummary (e : env) (saveData : Summary) (st : store)
  : option jserror * store :=
  match savesReadError e with
  | Some m => (Some (Error m), st)
  | None =>
      let trimmedSaves := bounded saveData (savesOf st) in
      match writeError e with
      | Some m => (Some (Error m), st)
      | None => (None, setSaves st trimmedSaves)
      end
  end.

Definition credentialError : jsstring :=
  "API key not configured. Please open the extension popup and add your API key.".

(** [getSettings], lines 269-280; it always resolves. *)
Definition getSettings (e : env) (st : store) : response :=
  match settingsReadError e with
  | Some m => failure m
  | None => okData (PSettings (settingsOf st))
  end.

(** Lines 95-102 of [handleSummarize]. *)
Definition makeSave (e : env) (m : summarizeRequest) (text : jsstring)
  : Summary := {|
    id := newId e;
    summary := text;
    platform := reqPlatform m;
    url := reqUrl m;
    timestamp := reqTimestamp m;
    preview := substring0 100 text ++ ustr "..."
  |}.

(** [handleSummarize], lines 71-112; every exception of the [try] block
    becomes a failure response. *)
Definition handleSummarize (e : env) (m : summarizeRequest) (st : store)
  : response * store * list call :=
  let settings := getSettings e st in
  match data settings with
  | Some (PSettings {| apiKey := Some (c :: k); apiProvider := apiProvider |}) =>
      let apiKey := c :: k in
      let called :=
        match apiProvider with
        | Some p => if streq p "openai" then Some OpenAI
                    else if streq p "gemini" then Some Gemini
                    else None
        | None => None
        end in
      match called with
      | None => (failure "Invalid API provider", st, [])
      | Some p =>
          let calls := [{| callee := p; key := apiKey;
                           sent := conversation m |}] in
          match providerResult (labelOf p) (fetched e) with
          | inl err => (failure (errMessage err), st, calls)
          | inr (VStr text) =>
              let saveData := makeSave e m text in
              match saveSummary e saveData st with
              | (Some err, st') => (failure (errMessage err), st', calls)
              | (None, st') => (okData (PSummary saveData), st', calls)
              end
          | inr _ => (failure (errMessage (typeError e)), st, calls)
          end
      end
  | _ => (failure credentialError, st, [])
  end.

(** [getLastSave], lines 202-218. *)
Definition getLastSave (e : env) (st : store) : response :=
  match savesReadError e with
  | Some m => failure m
  | None => match savesOf st with
            | s :: _ => okData (PSummary s)
            | [] => failure "No saved states found"
            end
  end.

(** [getAllSaves], lines 220-231. *)
Definition getAllSaves (e : env) (st : store) : response :=
  match savesReadError e with
  | Some m => failure m
  | None => okData (PSaves (savesOf st))
  end.

(** [hasSavedState], lines 233-245. *)
Definition hasSavedState (e : env) (st : store) : response :=
  match savesReadError e with
  | Some m => failure m
  | None => okHasSaved (match savesOf st with [] => false | _ => true end)
  end.

(** [deleteSave], lines 247-267: rejects on a storage error. *)
Definition deleteSave (e : env) (id : jsstring) (st : store)
  : (jserror + response) * store :=
  match savesReadError e with
  | Some m => (inl (Error m), st)
  | None =>
      let filteredSaves :=
        filter (fun save => negb (streq (Store.id save) id)) (savesOf st) in
      match writeError e with
      | Some m => (inl (Error m), st)
      | None => (inr ok, setSaves st filteredSaves)
      end
  end.

(** [saveSettings], lines 282-292. *)
Definition saveSettings (e : env) (s : Settings) (st : store)
  : (jserror + response) * store :=
  match writeError e with
  | Some m => (inl (Error m), st)
  | None => (inr ok, setSettings st s)
  end.

(** [handleMessage], lines 42-68. *)
Definition handleMessage (e : env) (r : request) (st : store)
  : (jserror + response) * store * list call :=
  match r with
  | Summarize m =>
      let '(r, st', calls) := handleSummarize e m st in (inr r, st', calls)
  | GetLastSave => (inr (getLastSave e st), st, [])
  | GetAllSaves => (inr (getAllSaves e st), st, [])
  | HasSavedState => (inr (hasSavedState e st), st, [])
  | DeleteSave id => let (r, st') := deleteSave e id st in (r, st', [])
  | GetSettings => (inr (getSettings e st), st, [])
  | SaveSettings s => let (r, st') := saveSettings e s st in (r, st', [])
  | Other _ => (inr (failure "Unknown action"), st, [])
  end.

(** The message listener, lines 29-39: a rejection is answered with
    [{ success: false, error: error.message }]. *)
Definition listener (e : env) (r : request) (st : store)
  : response * store * list call :=
  let '(r, st', calls) := handleMessage e r st in
  (match r with
   | inl err => failure (errMessage err)
   | inr resp => resp
   end, st', calls).

End WorkerAsync.

(* ================================================================== *)
(** ** Two bounded inserts whose storage operations interleave

    [saveSummary] issues [storage.local.get] and, from its callback,
    [storage.local.set]; both complete asynchronously.  A run of two
    inserts is a sequence of four storage events: the read and the write of
    each.  Nothing else in the scripts orders them.  What a summarize
    request does before its insert (reading the settings, calling the
    provider) leaves the saves alone and is not part of the run. *)

Module Race.
Import Store.

(** The progress of one insert: its [get] is pending; its [get] has
    delivered [seen] and its [set] is pending; it has written, having
    seen [seen]. *)
Inductive phase :=
| Reading (saveData : Summary)
| Writing (saveData : Summary) (seen : list Summary)
| Done (seen : list Summary).

Record system := {
  disk : store;
  first : phase;
  second : phase
}.

(** One storage event of an insert. *)
Definition advance (p : phase) (st : store) : phase * store :=
  match p with
  | Reading d => (Writing d (savesOf st), st)
  | Writing d seen => (Done seen, setSaves st (Worker.bounded d seen))
  | Done seen => (Done seen, st)
  end.

(** The next storage event belongs to the second insert when [b] holds,
    to the first otherwise. *)
Definition step (b : bool) (s : system) : system :=
  if b then
    let (p, st) := advance (second s) (disk s) in
    {| disk := st; first := first s; second := p |}
  else
    let (p, st) := advance (first s) (disk s) in
    {| disk := st; first := p; second := second s |}.

Definition run (schedule : list bool) (s : system) : system :=
  fold_left (fun s b => step b s) schedule s.

Definition start (st : store) (d1 d2 : Summary) : system :=
  {| disk := st; first := Reading d1; second := Reading d2 |}.

Definition finished (s : system) : bool :=
  match first s, second s with
  | Done _, Done _ => true
  | _, _ => false
  end.

Definition empty : store := {| settings := None; saves := Some [] |}.

End Race.

(* ================================================================== *)
(** ** Escaping, decoding and truncating text

    [escapeHtml] of the callback content script and the text helpers of
    the utility script (src/unnamed/part_002, third script). *)

(** A value handed to a helper that checks [typeof]: besides [null],
    [undefined] and strings, any other value, of which only the truthiness
    matters. *)
Inductive value :=
| Null
| Undefined
| Str (s : jsstring)
| Other (truthy : bool).

Module Html.
Import JS Regex.

Definition AMP : codeunit := 38%N.    (* & *)
Definition SEMI : codeunit := 59%N.   (* ; *)
Definition QUOT : codeunit := 34%N.   (* double quote *)

(** [s.replace(/c/g, repl)] for a single code unit [c] and a replacement
    text without [$]. *)
Definition replaceUnit (c : codeunit) (repl : jsstring) (s : jsstring)
  : jsstring :=
  flat_map (fun x => if N.eqb x c then repl else [x]) s.

(** [escapeHtml], part_002 lines 264-271. *)
Definition escapeHtml (str : strval) : jsstring :=
  match str with
  | VStr (c :: t) =>
      replaceUnit QUOT "&quot;"
        (replaceUnit GT "&gt;"
          (replaceUnit LT "&lt;"
            (replaceUnit AMP "&amp;" (c :: t))))
  | _ => []
  end.

(** The markup that [injectIntoInput] writes into a content-editable
    input, part_002 line 205. *)
Definition paragraph (text : strval) : jsstring :=
  ustr "<p>" ++ escapeHtml text ++ ustr "</p>".

(** [s.replace(/re/g, f)] with a replacement function: every match is
    replaced by what [f] makes of it. *)
Fixpoint replaceAll (m : matcher) (f : jsstring -> jsstring) (skip : nat)
         (s : jsstring) : jsstring :=
  match s with
  | [] => []
  | c :: t =>
      match skip with
      | S k => replaceAll m f k t
      | O =>
          match m s with
          | Some (S k) => f (firstn (S k) s) ++ replaceAll m f k t
          | _ => c :: replaceAll m f 0 t
          end
      end
  end.

(** [/&[^;]+;/g]: an ampersand, at least one code unit other than [;],
    up to the first [;]. *)
Definition entityRef : matcher := fun s =>
  match s with
  | [] => None
  | c :: r =>
      if N.eqb c AMP then
        match upTo SEMI r with
        | Some (S k) => Some (1 + S k + 1)
        | _ => None
        end
      else None
  end.

(** The table of [decodeHTMLEntities], part_002 lines 1011-1021. *)
Definition entities : list (jsstring * jsstring) :=
  [ (ustr "&amp;", ustr "&");
    (ustr "&lt;", ustr "<");
    (ustr "&gt;", ustr ">");
    (ustr "&quot;", [QUOT]);
    (ustr "&#39;", ustr "'");
    (ustr "&nbsp;", ustr " ");
    (ustr "&ndash;", [8211%N]);
    (ustr "&mdash;", [8212%N]);
    (ustr "&hellip;", [8230%N]) ].

(** [entities[entity] || entity]. *)
Fixpoint lookup (table : list (jsstring * jsstring)) (entity : jsstring)
  : jsstring :=
  match table with
  | [] => entity
  | (k, v) :: rest => if streq k entity then v else lookup rest entity
  end.

(** The replacement pass of [decodeHTMLEntities] on a string. *)
Definition decoded (text : jsstring) : jsstring :=
  replaceAll entityRef (lookup entities) 0 text.

(** [SessionLinkUtils.decodeHTMLEntities], part_002 lines 1006-1026. *)
Definition decodeHTMLEntities (text : value) : jsstring :=
  match text with
  | Str (c :: t) => decoded (c :: t)
  | _ => []
  end.

(** [SessionLinkUtils.sanitizeHTML], part_002 lines 974-999. *)
Definition sanitizeHTML (html : value) : jsstring :=
  match html with
  | Str (c :: t) =>
      let sanitized := removeAll (blockB "<script" "</script>") 0 (c :: t) in
      let sanitized := removeAll (blockB "<style" "</style>") 0 sanitized in
      let sanitized := removeAll tag 0 sanitized in
      let sanitized := removeAll jsUri 0 sanitized in
      let sanitized := removeAll handler 0 sanitized in
      let sanitized := decodeHTMLEntities (Str sanitized) in
      trim sanitized
  | _ => []
  end.

(** [SessionLinkUtils.truncate], part_002 lines 1061-1071; an omitted
    [maxLength] or [suffix] is [None].  [substring] reads a negative end as
    0. *)
Definition truncate (text : value) (maxLength : option nat)
           (suffix : option jsstring) : jsstring :=
  let maxLength := match maxLength with Some n => n | None => 100 end in
  let suffix := match suffix with Some x => x | None => ustr "..." end in
  match text with
  | Str (c :: t) =>
      let text := c :: t in
      if (List.length text <=? maxLength)%nat then text
      else trim (substring0 (maxLength - List.length suffix) text) ++ suffix
  | _ => []
  end.

End Html.

(* ================================================================== *)
(** ** Relative times

    [formatTime] of the popup scripts and [formatRelativeTime] of the
    utility script.  [Date] is outside this development: the functions are
    given the difference [now - date] in milliseconds, [None] when the
    timestamp does not parse and the difference is [NaN], and the text that
    [toLocaleDateString] would give.  The differences compared here are
    whole numbers far below 2^53, on which the division and [Math.floor]
    are exact. *)

Module Time.
Import JS.

(** [n + text]: a non-negative whole number in front of a text. *)
Definition count (n : Z) (text : jsstring) : jsstring :=
  ofNumber (Z.to_N n) ++ text.

(** [formatTime], part_004 lines 275-296 and part_003 lines 298-329. *)
Definition formatTime (timestamp : option jsstring) (diff : option Z)
           (localized : jsstring) : jsstring :=
  match timestamp with
  | None | Some [] => ustr "Unknown"
  | Some _ =>
      match diff with
      | None => localized
      | Some diff =>
          if (diff <? 60000)%Z then ustr "Just now"
          else if (diff <? 3600000)%Z then
            let mins := (diff / 60000)%Z in
            count mins (ustr " min" ++ (if (1 <? mins)%Z then ustr "s" else ustr "")
                        ++ ustr " ago")
          else if (diff <? 86400000)%Z then
            let hours := (diff / 3600000)%Z in
            count hours (ustr " hour" ++ (if (1 <? hours)%Z then ustr "s" else ustr "")
                         ++ ustr " ago")
          else localized
      end
  end.

(** [SessionLinkUtils.formatRelativeTime], part_002 lines 1078-1106. *)
Definition formatRelativeTime (timestamp : option jsstring) (diffMs : option Z)
           (localized : jsstring) : jsstring :=
  match timestamp with
  | None | Some [] => ustr "Unknown"
  | Some _ =>
      match diffMs with
      | None => localized
      | Some diffMs =>
          let diffSec := (diffMs / 1000)%Z in
          let diffMin := (diffSec / 60)%Z in
          let diffHour := (diffMin / 60)%Z in
          let diffDay := (diffHour / 24)%Z in
          if (diffSec <? 60)%Z then ustr "Just now"
          else if (diffMin <? 60)%Z then
            count diffMin (ustr " minute"
                           ++ (if (diffMin =? 1)%Z then ustr "" else ustr "s")
                           ++ ustr " ago")
          else if (diffHour <? 24)%Z then
            count diffHour (ustr " hour"
                            ++ (if (diffHour =? 1)%Z then ustr "" else ustr "s")
                            ++ ustr " ago")
          else if (diffDay <? 7)%Z then
            count diffDay (ustr " day"
                           ++ (if (diffDay =? 1)%Z then ustr "" else ustr "s")
                           ++ ustr " ago")
          else localized
      end
  end.

End Time.

(* ================================================================== *)
(** ** The page side of the callback content script

    The button container, the polling of [initialize] and the save
    handler, src/unnamed/part_002 lines 274-316 and 356-437. *)

Module Page.
Import JS Dom Store.

(** What the polling and the injection see and change: the number of
    elements with the id [sessionlink-container] in the page, the attempts
    counted by [initialize] and whether its interval timer is still set. *)
Record buttons := {
  containers : nat;
  attempts : nat;
  polling : bool
}.

(** [injectButtons], lines 398-407: nothing when a container is there;
    else [createContainer] and [appendChild]. *)
Definition injectButtons (p : buttons) : buttons :=
  match containers p with
  | S _ => p
  | O => {| containers := 1; attempts := attempts p; polling := polling p |}
  end.

(** One run of the interval callback of [initialize], lines 414-421;
    [ready] tells whether the conversation area was found or the document
    was complete.  A cleared timer does not fire. *)
Definition tick (ready : bool) (p : buttons) : buttons :=
  if polling p then
    let attempts := S (attempts p) in
    if ready || (20 <=? attempts)%nat then
      injectButtons {| containers := containers p; attempts := attempts;
                       polling := false |}
    else {| containers := containers p; attempts := attempts;
            polling := true |}
  else p.

(** What can happen to the buttons: the interval fires, a navigation
    inside the page is seen ([watchNavigation], lines 425-437, which runs
    [injectButtons] again), or the page rebuilds its body and drops the
    container. *)
Inductive happening :=
| Tick (ready : bool)
| Navigated
| Rebuilt.

Definition happen (h : happening) (p : buttons) : buttons :=
  match h with
  | Tick ready => tick ready p
  | Navigated => injectButtons p
  | Rebuilt => {| containers := 0; attempts := attempts p;
                  polling := polling p |}
  end.

(** The boot of the script, lines 440-441: no container, the timer set. *)
Definition booted : buttons :=
  {| containers := 0; attempts := 0; polling := true |}.

Definition afterAll (l : list happening) (p : buttons) : buttons :=
  fold_left (fun p h => happen h p) l p.

(** [parts.join(sep)]. *)
Fixpoint join (sep : jsstring) (parts : list jsstring) : jsstring :=
  match parts with
  | [] => []
  | [x] => x
  | x :: rest => x ++ sep ++ join sep rest
  end.

(** The save button and the traffic of the save handler: the button, if
    the page has it, with its [disabled] flag; the requests handed to
    [chrome.runtime.sendMessage]; how many of them the runtime has not
    answered yet; the notifications shown, latest first. *)
Record saving := {
  saveBtn : option bool;
  sent : list summarizeRequest;
  unanswered : nat;
  shown : list (jsstring * jsstring)
}.

Definition notify (message type : jsstring) (s : saving) : saving :=
  {| saveBtn := saveBtn s; sent := sent s; unanswered := unanswered s;
     shown := (message, type) :: shown s |}.

Definition setDisabled (b : bool) (s : saving) : saving :=
  {| saveBtn := match saveBtn s with Some _ => Some b | None => None end;
     sent := sent s; unanswered := unanswered s; shown := shown s |}.

Section Save.

(** [String.prototype.toUpperCase], whose tables are not part of the
    scripts. *)
Variable toUpperCase : jsstring -> jsstring.

(** The conversation text of [handleSave], lines 293-297. *)
Definition conversationText (messages : list Adapter.message) : jsstring :=
  join [10%N; 10%N]
       (List.map (fun m => toUpperCase (Adapter.role m) ++ ustr ": "
                           ++ Sanitizer.sanitize (VStr (Adapter.content m)))
                 messages).

(** The callback that [handleSave] gives to [sendMsg], lines 305-315,
    behind the callback of [sendMsg] itself, lines 95-102: [lastError] is
    the error of the runtime, if any, [response] what the background
    answered, if anything. *)
Definition answered (lastError : option jsstring) (response : option response)
           (s : saving) : saving :=
  let response :=
    match lastError with
    | Some m => failure m
    | None => match response with
              | Some r => r
              | None => failure "No response"
              end
    end in
  let s := setDisabled false s in
  if success response then notify "Context saved successfully!" "success" s
  else notify (orElse (error response) "Failed to save context") "error" s.

(** [handleSave], lines 274-316, on the page [d]; [threw] is the message
    of the exception of [chrome.runtime.sendMessage], if it throws. *)
Definition handleSave (platform : Adapter.platform) (d : document)
           (href now : jsstring) (threw : option jsstring) (s : saving)
  : saving :=
  match saveBtn s with
  | None | Some true => s
  | Some false =>
      let s := setDisabled true s in
      match Content.scrapeConversation platform d (Some 15) with
      | [] =>
          setDisabled false (notify "No conversation found to save." "error" s)
      | messages =>
          let request := {|
            conversation := conversationText messages;
            reqPlatform := Some (Adapter.name platform);
            reqUrl := Some href;
            reqTimestamp := Some now |} in
          match threw with
          | Some m => answered None (Some (failure m)) s
          | None =>
              {| saveBtn := saveBtn s; sent := request :: sent s;
                 unanswered := S (unanswered s); shown := shown s |}
          end
      end
  end.

(** The runtime answers one of the requests. *)
Definition answer (lastError : option jsstring) (response : option response)
           (s : saving) : saving :=
  let s := answered lastError response s in
  {| saveBtn := saveBtn s; sent := sent s; unanswered := pred (unanswered s);
     shown := shown s |}.

Inductive step :=
| Click (d : document) (href now : jsstring) (threw : option jsstring)
| Answer (lastError : option jsstring) (response : option response).

Definition perform (platform : Adapter.platform) (e : step) (s : saving) : saving :=
  match e with
  | Click d href now threw => handleSave platform d href now threw s
  | Answer lastError response => answer lastError response s
  end.

Definition performAll (platform : Adapter.platform) (l : list step) (s : saving)
  : saving :=
  fold_left (fun s e => perform platform e s) l s.

End Save.

(** A page with the buttons in place and nothing under way. *)
Definition idle : saving :=
  {| saveBtn := Some false; sent := []; unanswered := 0; shown := [] |}.

End Page.

(* ================================================================== *)
(** ** The popup

    The settings form and the deletion of a save, in the popup that uses
    the storage directly (src/unnamed/part_004) and in the popup that asks
    the background service (src/unnamed/part_003). *)

Module Popup.
Import JS Store.

(** The two fields of the settings form. *)
Record form := {
  providerField : jsstring;   (* elements.apiProvider.value *)
  keyField : jsstring         (* elements.apiKey.value *)
}.

(** [showStatus(message, type)]. *)
Record notice := { message : jsstring; kind : jsstring }.

(** The settings object that [saveSettings] builds, part_004 lines
    128-131. *)
Definition entered (f : form) : Settings :=
  {| apiProvider := Some (providerField f);
     apiKey := Some (trim (keyField f)) |}.

(** The validation of [saveSettings], part_004 lines 134-142: the error
    shown, if any; [wording] is the verb of the second message
    ([typically start] here, [should start] in part_003). *)
Definition refused (wording : jsstring) (f : form) : option notice :=
  let key := trim (keyField f) in
  if negb (truthy key) then
    Some {| message := "Please enter an API key"; kind := "error" |}
  else if streq (providerField f) "openai" && negb (startsWith "sk-" key) then
    Some {| message := ustr "OpenAI API keys " ++ wording ++ ustr " with "
                       ++ [34%N] ++ ustr "sk-" ++ [34%N];
            kind := "error" |}
  else None.

(** [saveSettings] of the popup that writes the storage itself, part_004
    lines 127-160. *)
Definition saveSettings (e : env) (f : form) (st : store) : notice * store :=
  match refused "typically start" f with
  | Some n => (n, st)
  | None =>
      match writeError e with
      | Some m => ({| message := ustr "Error: " ++ m; kind := "error" |}, st)
      | None => ({| message := "Settings saved successfully!";
                    kind := "success" |},
                 setSettings st (entered f))
      end
  end.

(** [browserAPI] of part_003, line 10: [browser] when it is defined, else
    [chrome].  The repository defines [browser] in
    src/lib/browser-polyfill.js, whose [runtime.sendMessage] (lines 47-63)
    takes the message alone and returns a promise: a callback given to it
    is never called.  A [browser] object of the browser's own is outside
    the scripts. *)
Inductive api := Chrome | Polyfill.

(** [sendMessage] of part_003, lines 285-295, in front of the message
    listener of the promise-based worker.  [transport] is the error of the
    runtime when the message does not reach the worker.  Over [chrome] the
    promise rejects with that error or resolves with the response
    ([{ success: false }] when there is none; the listener always gives
    one).  Over the polyfill the message is sent all the same, the callback
    is dropped and the promise never settles: [None]. *)
Definition sendMessage (a : api) (transport : option jsstring) (e : env)
           (r : request) (st : store)
  : option (jsstring + response) * store :=
  let (answer, st') :=
    match transport with
    | Some m => (inl m, st)
    | None =>
        let '(resp, st', _) := WorkerAsync.listener e r st in (inr resp, st')
    end in
  match a with
  | Chrome => (Some answer, st')
  | Polyfill => (None, st')
  end.

(** [saveSettings] of the popup that asks the background, part_003 lines
    104-149: the status shown, if the function gets to show one, and the
    store.  While [await sendMessage(...)] does not settle, nothing is
    shown. *)
Definition saveSettingsByMessage (a : api) (transport : option jsstring)
           (e : env) (f : form) (st : store) : option notice * store :=
  match refused "should start" f with
  | Some n => (Some n, st)
  | None =>
      match sendMessage a transport e (SaveSettings (entered f)) st with
      | (None, st') => (None, st')
      | (Some (inl m), st') =>
          (Some {| message := ustr "Error: " ++ m; kind := "error" |}, st')
      | (Some (inr resp), st') =>
          if success resp then
            (Some {| message := "Settings saved successfully!";
                     kind := "success" |}, st')
          else
            (Some {| message := orElse (error resp) "Failed to save settings";
                     kind := "error" |}, st')
      end
  end.

(** [deleteSave] of the popup that writes the storage itself, part_004
    lines 251-272; [confirmed] is the answer to the confirmation dialog.
    A storage error is logged and changes nothing. *)
Definition deleteSave (confirmed : bool) (e : env) (id : jsstring)
           (st : store) : store :=
  if confirmed then
    match savesReadError e with
    | Some _ => st
    | None =>
        let filtered := Worker.without id (savesOf st) in
        match writeError e with
        | Some _ => st
        | None => setSaves st filtered
        end
    end
  else st.

End Popup.

(* ================================================================== *)
(** * Vocabulary of the properties *)

(* ------------------------------------------------------------------ *)
(** ** Detection *)

Section DetectionWords.
Import JS Adapter.

(** A platform is matched by a host name when one of its patterns occurs
    in it. *)
Definition claims (cfg : platform) (hostname : jsstring) : Prop :=
  exists p, In p (hostPatterns cfg) /\ includes p hostname = true.

(** The contract of a [detect] function over its platform table, whose
    first entry is ChatGPT, reached under its current and under its former
    domain. *)
Definition detect_contract (detect : jsstring -> option platform)
           (table : list platform) (chatgpt : platform) : Prop :=
  (forall hostname,
      (forall cfg, In cfg table -> ~ claims cfg hostname) ->
      detect hostname = None)
  /\ (forall cfg p,
         In cfg table -> In p (hostPatterns cfg) ->
         detect p = Some cfg)
  /\ (forall hostname cfg,
         detect hostname = Some cfg <->
         exists before after,
           table = before ++ cfg :: after /\
           claims cfg hostname /\
           forall c, In c before -> ~ claims c hostname)
  /\ (forall pre post,
         detect (pre ++ ustr "chat.openai.com" ++ post) = Some chatgpt
         /\ detect (pre ++ ustr "chatgpt.com" ++ post) = Some chatgpt).

(** The platform that a [detect] function gives for a host name, by its
    key in the table. *)
Definition resolves (detect : jsstring -> option platform)
           (hostname key : jsstring) : Prop :=
  exists cfg, detect hostname = Some cfg /\ id cfg = key.

End DetectionWords.

(* ------------------------------------------------------------------ *)
(** ** Sanitizing *)

Section SanitizerWords.
Import JS Regex.

(** The tag pattern matches nowhere in the text. *)
Definition tagfree (s : jsstring) : Prop := test tag s = false.

(** The sentence of C3 as the specification has it: a second run of the
    sanitizer never changes the result of the first. *)
Definition idempotent (f : strval -> jsstring) : Prop :=
  forall x : jsstring, f (VStr (f (VStr x))) = f (VStr x).

End SanitizerWords.

(* ------------------------------------------------------------------ *)
(** ** The store and the summarize handler *)

Section StoreWords.
Import JS Store.

(** The storage operations on the saves report no error. *)
Definition storageWorks (e : env) : Prop :=
  savesReadError e = None /\ writeError e = None.

(** A sequence of inserts, each with what it meets outside the store. *)
Definition insertAll (save : env -> Summary -> store -> store)
           (l : list (env * Summary)) (st : store) : store :=
  fold_left (fun st ed => save (fst ed) (snd ed) st) l st.

(** The store after [saveSummary] of the callback-based worker. *)
Definition saveCb (e : env) (d : Summary) (st : store) : store :=
  snd (Worker.saveSummary e d st).

(** The store after [saveSummary] of the promise-based worker. *)
Definition saveAsync (e : env) (d : Summary) (st : store) : store :=
  snd (WorkerAsync.saveSummary e d st).

(** [p] opens [s]. *)
Definition prefix (p s : jsstring) : Prop := exists rest, s = p ++ rest.

(** The provider did not deliver a text: the request failed on the
    network, the status was not a success, the body could not be read as
    expected, or no string was where the text should be. *)
Definition providerFailed (o : outcome) : Prop :=
  match o with
  | Responded true _ (Parsed _ (Yields (VStr _))) => False
  | _ => True
  end.

(** No key is configured: the settings lack [apiKey] or hold an empty
    one. *)
Definition noApiKey (st : store) : Prop :=
  apiKey (settingsOf st) = None \/ apiKey (settingsOf st) = Some [].

End StoreWords.

(** Sample data for the closed instances. *)
Module Sample.
Import Store.

(** A run in which the storage works and the provider answers with
    [text]. *)
Definition answering (text : jsstring) : env := {|
  settingsReadError := None;
  savesReadError := None;
  writeError := None;
  fetched := Responded true 200 (Parsed None (Yields (VStr text)));
  typeError := {| errName := "TypeError"; errMessage := "not a function" |};
  newId := "m1abc";
  now := "2026-02-01T00:00:00.000Z"
|}.

(** A run in which the provider answers with status 500. *)
Definition refusing : env := {|
  settingsReadError := None;
  savesReadError := None;
  writeError := None;
  fetched := Responded false 500 (Unparsable (Error "Unexpected token"));
  typeError := {| errName := "TypeError"; errMessage := "not a function" |};
  newId := "m1abc";
  now := "2026-02-01T00:00:00.000Z"
|}.

Definition entry (n : nat) : Summary := {|
  id := JS.ofNumber (N.of_nat n);
  summary := "SYSTEM HANDOFF: continue the todo app";
  platform := Some (ustr "ChatGPT");
  url := Some (ustr "https://chatgpt.com/c/1");
  timestamp := Some (ustr "2026-02-01T00:00:00.000Z");
  preview := "SYSTEM HANDOFF: continue the todo app"
|}.

Definition twentyFive : list (env * Summary) :=
  List.map (fun n => (answering "", entry n)) (seq 1 25).

Definition configured : store := {|
  settings := Some {| apiProvider := Some (ustr "openai");
                      apiKey := Some (ustr "sk-test") |};
  saves := Some []
|}.

Definition capture : summarizeRequest := {|
  conversation := "USER: build a todo app";
  reqPlatform := Some (ustr "ChatGPT");
  reqUrl := Some (ustr "https://chatgpt.com/c/1");
  reqTimestamp := Some (ustr "2026-02-01T00:00:00.000Z")
|}.

End Sample.

(* ------------------------------------------------------------------ *)
(** ** Two inserts at once *)

Section RaceWords.
Import Store Race.

(** What a run of the inserts of [d1] and [d2] from a store without saves
    can look like. *)
Definition shape (d1 d2 : Summary) (s : system) : Prop :=
  let saved := savesOf (disk s) in
  match first s, second s with
  | Reading a, Reading b => a = d1 /\ b = d2 /\ saved = []
  | Writing a x, Reading b => a = d1 /\ b = d2 /\ x = [] /\ saved = []
  | Reading a, Writing b y => a = d1 /\ b = d2 /\ y = [] /\ saved = []
  | Writing a x, Writing b y =>
      a = d1 /\ b = d2 /\ x = [] /\ y = [] /\ saved = []
  | Done x, Reading b => x = [] /\ b = d2 /\ saved = [d1]
  | Reading a, Done y => y = [] /\ a = d1 /\ saved = [d2]
  | Done x, Writing b y =>
      x = [] /\ b = d2 /\ saved = [d1] /\ (y = [] \/ y = [d1])
  | Writing a x, Done y =>
      y = [] /\ a = d1 /\ saved = [d2] /\ (x = [] \/ x = [d2])
  | Done x, Done y =>
      (x = [] /\ y = [] /\ (saved = [d1] \/ saved = [d2]))
      \/ (x = [] /\ y = [d1] /\ saved = [d2; d1])
      \/ (x = [d2] /\ y = [] /\ saved = [d1; d2])
  end.

(** The sentence of C1: whatever the order of the storage events of two
    inserts into a store without saves, once both are done the list has
    two entries. *)
Definition neverLosesAnInsert : Prop :=
  forall st d1 d2 schedule,
    savesOf st = [] ->
    finished (run schedule (start st d1 d2)) = true ->
    List.length (savesOf (disk (run schedule (start st d1 d2)))) = 2.

End RaceWords.

(* ------------------------------------------------------------------ *)
(** ** Fixtures for the scraper *)

Section ScrapeWords.
Import JS Dom Adapter.

(** The elements of the page, in document order. *)
Definition elements (d : document) : list element :=
  flat_map subtree (roots d).

(** The elements that some message selector of the platform finds. *)
Definition isMessage (A : platform) (el : element) : bool :=
  matches (userMessage (sel A)) el || matches (assistantMessage (sel A)) el
  || matches (allMessages (sel A)) el.

(** The message nodes of a page, in document order. *)
Definition messageNodes (A : platform) (d : document) : list element :=
  filter (isMessage A) (elements d).

(** The role that the role selectors give to a node. *)
Definition roleOf (A : platform) (el : element) : jsstring :=
  if matches (userMessage (sel A)) el then ustr "user" else ustr "assistant".

(** A well-formed message node: exactly one role selector finds it, its
    role attribute, if it has one, is empty or names that role, and its
    text is not empty. *)
Record wellFormed (A : platform) (el : element) : Prop := {
  wf_role : matches (userMessage (sel A)) el
            = negb (matches (assistantMessage (sel A)) el);
  wf_attr : match getAttribute el roleAttr with
            | None => True
            | Some r => r = [] \/ r = roleOf A el
            end;
  wf_text : getMessageText A el <> []
}.

(** The transcript of the fixture: its message nodes in document order,
    each with its role and text. *)
Definition transcript (A : platform) (d : document) : list message :=
  List.map (fun el => {| role := roleOf A el; content := getMessageText A el |})
           (messageNodes A d).

(** A fixture for the unified query: every message node is well-formed
    and found by the combined selector. *)
Definition unifiedFixture (A : platform) (d : document) : Prop :=
  Forall (fun el => wellFormed A el
                    /\ matches (allMessages (sel A)) el = true)
         (messageNodes A d).

(** Each element of the list lies strictly above the later ones. *)
Fixpoint stacked (d : document) (l : list element) : Prop :=
  match l with
  | [] => True
  | el :: rest =>
      Forall (fun later => (position d el < position d later)%Z) rest
      /\ stacked d rest
  end.

(** A fixture for the separate queries: every message node is
    well-formed and found by a role selector, and the nodes lie one below
    the other in document order. *)
Definition separateFixture (A : platform) (d : document) : Prop :=
  Forall (fun el => wellFormed A el
                    /\ (matches (userMessage (sel A)) el
                        || matches (assistantMessage (sel A)) el) = true)
         (messageNodes A d)
  /\ stacked d (messageNodes A d).

(** Neighbouring roles differ. *)
Fixpoint alternates (roles : list jsstring) : Prop :=
  match roles with
  | a :: (b :: _) as rest => a <> b /\ alternates rest
  | _ => True
  end.

(** A fixture of well-formed message nodes: every message node is
    well-formed and found by a role selector. *)
Definition roleFixture (A : platform) (d : document) : Prop :=
  Forall (fun el => wellFormed A el
                    /\ (matches (userMessage (sel A)) el
                        || matches (assistantMessage (sel A)) el) = true)
         (messageNodes A d).

(** The combined selector finds every message node of the page. *)
Definition covered (A : platform) (d : document) : Prop :=
  Forall (fun el => matches (allMessages (sel A)) el = true)
         (messageNodes A d).

(** The combined selector finds no element of the page. *)
Definition uncovered (A : platform) (d : document) : Prop :=
  querySelectorAll d (allMessages (sel A)) = [].

(** The sentence of C4 for a scraper and its platform table: on a fixture
    of an even number of well-formed message nodes with alternating roles,
    it returns the last [min N (turnLimit * 2)] messages of the
    transcript. *)
Definition scrapesTheTail (table : list platform)
           (scrape : platform -> document -> option nat -> list message)
  : Prop :=
  forall A d turnLimit,
    In A table ->
    roleFixture A d ->
    Nat.Even (List.length (transcript A d)) ->
    alternates (List.map role (transcript A d)) ->
    let result := scrape A d (Some turnLimit) in
    List.length result = Nat.min (List.length (transcript A d)) (turnLimit * 2)
    /\ result = skipn (List.length (transcript A d) - turnLimit * 2)
                      (transcript A d).

(** Orders by a key, for the comparator of the position sort. *)
Definition keyLe (T : Type) (key : T -> Z) (x y : T) : Prop :=
  (key x <= key y)%Z.
Definition keyLt (T : Type) (key : T -> Z) (x y : T) : Prop :=
  (key x < key y)%Z.

End ScrapeWords.

(** Sample pages for the closed instances. *)
Module Pages.
Import Dom.

(** A ChatGPT message node with its role attribute, text and vertical
    position. *)
Definition node (who : string) (said : string) (y : Z) : element :=
  El "div" [] [(ustr "data-message-author-role", ustr who)] said y [].

(** Four messages, one below the other. *)
Definition chat : document := {|
  roots := [El "main" [] [] "" 0
               [node "user" "build a todo app" 0;
                node "assistant" "ok, using React" 40;
                node "user" "add a list" 80;
                node "assistant" "done" 120]];
  scrollY := 0
|}.

(** The same four messages in a page without layout: every element
    reports the same vertical position. *)
Definition flat : document := {|
  roots := [El "main" [] [] "" 0
               [node "user" "build a todo app" 0;
                node "assistant" "ok, using React" 0;
                node "user" "add a list" 0;
                node "assistant" "done" 0]];
  scrollY := 0
|}.

Definition said (who : string) (what : string) : Adapter.message :=
  {| Adapter.role := who; Adapter.content := what |}.

(** A Gemini node with one class, its text and its vertical position. *)
Definition classed (class : string) (said : string) (y : Z) : element :=
  El "div" [ustr class] [] said y [].

(** A Gemini page whose questions carry the class [query-text] and whose
    answers the class [response-content], one below the other. *)
Definition mixed : document := {|
  roots := [El "main" [] [] "" 0
               [classed "query-text" "build a todo app" 0;
                classed "response-content" "ok, using React" 40;
                classed "query-text" "add a list" 80;
                classed "response-content" "done" 120]];
  scrollY := 0
|}.

(** A Gemini page whose questions carry the class [user-query] and whose
    answers the class [response-content], one below the other. *)
Definition laid : document := {|
  roots := [El "main" [] [] "" 0
               [classed "user-query" "build a todo app" 0;
                classed "response-content" "ok, using React" 40;
                classed "user-query" "add a list" 80;
                classed "response-content" "done" 120]];
  scrollY := 0
|}.

(** The same page without layout. *)
Definition unlaid : document := {|
  roots := [El "main" [] [] "" 0
               [classed "user-query" "build a todo app" 0;
                classed "response-content" "ok, using React" 0;
                classed "user-query" "add a list" 0;
                classed "response-content" "done" 0]];
  scrollY := 0
|}.

End Pages.

(* ------------------------------------------------------------------ *)
(** ** Requests to the background service *)

Section ServiceWords.
Import JS Store.

(** Every storage operation of the run reports no error. *)
Definition allStorageWorks (e : env) : Prop :=
  settingsReadError e = None /\ storageWorks e.

(** The provider answers with a success status and the text [text]. *)
Definition answersWith (text : jsstring) (o : outcome) : Prop :=
  exists status errorMessage,
    o = Responded true status (Parsed errorMessage (Yields (VStr text))).

(** The provider that the callback-based worker takes from the settings:
    a missing or empty [apiProvider] counts as [openai]. *)
Definition selectedCb (st : store) : option provider :=
  let provider := orElse (apiProvider (settingsOf st)) "openai" in
  if streq provider "openai" then Some OpenAI
  else if streq provider "gemini" then Some Gemini
  else None.

(** The provider that the promise-based worker takes from the settings. *)
Definition selectedAsync (st : store) : option provider :=
  match apiProvider (settingsOf st) with
  | Some p => if streq p "openai" then Some OpenAI
              else if streq p "gemini" then Some Gemini
              else None
  | None => None
  end.

(** The requests that only read the store, the unknown ones included. *)
Definition readOnly (r : request) : bool :=
  match r with
  | GetLastSave | GetAllSaves | HasSavedState | GetSettings | Other _ => true
  | Summarize _ | DeleteSave _ | SaveSettings _ => false
  end.

(** The six known requests other than [summarize]. *)
Definition storeAction (r : request) : bool :=
  match r with
  | Summarize _ | Other _ => false
  | _ => true
  end.

(** The one provider call of a summarize request. *)
Definition theCall (p : provider) (apiKey : jsstring) (m : summarizeRequest)
  : list call :=
  [{| callee := p; key := apiKey; sent := conversation m |}].

(** The answers of the two workers to the summarize request [m] on the
    store [st], when the provider [p] is called with the key [k]: the
    callback-based one fails with [shownCb], the promise-based one with
    [shownAsync], the store is unchanged and the provider was called
    once. *)
Definition failWith (e : env) (m : summarizeRequest) (st : store)
           (p : provider) (k : jsstring) (shownCb shownAsync : jsstring)
  : Prop :=
  (selectedCb st = Some p ->
   Worker.handleSummarize e m st = (failure shownCb, st, theCall p k m))
  /\ (selectedAsync st = Some p ->
      WorkerAsync.handleSummarize e m st
      = (failure shownAsync, st, theCall p k m)).

End ServiceWords.

(* ------------------------------------------------------------------ *)
(** ** Scraping any page *)

Section PageWords.
Import JS Dom Adapter.

(** The number of turns that stands for an omitted limit. *)
Definition turnsOr15 (maxTurns : option nat) : nat :=
  match maxTurns with
  | Some n => n
  | None => 15
  end.

(** The message comes from a message node of the page and is not empty. *)
Definition scrapedFrom (A : platform) (d : document) (msg : message) : Prop :=
  content msg <> []
  /\ exists el, In el (messageNodes A d) /\ content msg = getMessageText A el.

(** What the callback script collects before the cut. *)
Definition collected (A : platform) (d : document) : list message :=
  match pushAll (getMessageText A) (unified d (sel A)) with
  | [] => pushAll (getMessageText A) (byPosition d (sel A))
  | _ :: _ => pushAll (getMessageText A) (unified d (sel A))
  end.

(** What the async script collects before the cut. *)
Definition collectedAsync (A : platform) (d : document) : list message :=
  match querySelectorAll d (userMessage (sel A)),
        querySelectorAll d (assistantMessage (sel A)) with
  | [], [] => pushAll (getMessageText A) (unified d (sel A))
  | _, _ => pushAll (getMessageText A) (byPosition d (sel A))
  end.

End PageWords.

(* ------------------------------------------------------------------ *)
(** ** Escaped text *)

Section HtmlWords.
Import JS Regex Html.

(** What [escapeHtml] makes of one code unit. *)
Definition escapeUnit (c : codeunit) : jsstring :=
  if N.eqb c AMP then ustr "&amp;"
  else if N.eqb c LT then ustr "&lt;"
  else if N.eqb c GT then ustr "&gt;"
  else if N.eqb c QUOT then ustr "&quot;"
  else [c].

(** The code unit is none of the four that [escapeHtml] replaces. *)
Definition ordinary (c : codeunit) : Prop :=
  c <> AMP /\ c <> LT /\ c <> GT /\ c <> QUOT.

(** The text has no angle bracket and no double quote. *)
Definition markupFree (s : jsstring) : Prop :=
  ~ In LT s /\ ~ In GT s /\ ~ In QUOT s.

End HtmlWords.

(* ------------------------------------------------------------------ *)
(** ** The buttons and the save handler *)

Section ButtonWords.
Import Page.

(** How often the interval of [initialize] fired. *)
Definition ticks (l : list happening) : nat :=
  List.length (filter (fun h => match h with Tick _ => true | _ => false end) l).

(** The page never dropped the container. *)
Definition neverRebuilt (l : list happening) : Prop :=
  Forall (fun h => h <> Rebuilt) l.

(** The save handler is either at rest, the button enabled and no request
    under way, or waiting, the button disabled and one request under
    way. *)
Definition atRest (s : saving) : Prop :=
  saveBtn s = Some false /\ unanswered s = 0.

Definition waiting (s : saving) : Prop :=
  saveBtn s = Some true /\ unanswered s = 1.

End ButtonWords.

(* ------------------------------------------------------------------ *)
(** ** The settings form *)

Section PopupWords.
Import JS Store Popup.

(** The run of a popup's [saveSettings] ended with the success status. *)
Definition showsSuccess (r : option notice * store) : Prop :=
  exists n, fst r = Some n /\ kind n = ustr "success".

(** The run ended with a status other than success. *)
Definition showsError (r : option notice * store) : Prop :=
  exists n, fst r = Some n /\ kind n <> ustr "success".

(** The form passes the validation: its trimmed key is not empty and
    starts with [sk-] if the provider is [openai]. *)
Definition validForm (f : form) : Prop :=
  trim (keyField f) <> []
  /\ (providerField f = ustr "openai" ->
      prefix (ustr "sk-") (trim (keyField f))).

(** What a run of a popup's [saveSettings] on the form [f] and the store
    [st] may do: the saves are left alone; success is shown only for a
    valid form, and the store then holds the settings of the form; when an
    error is shown the store is unchanged; when nothing is shown the form
    was valid and the store is unchanged or holds the settings of the
    form. *)
Definition checkedSave (f : form) (st : store) (r : option notice * store)
  : Prop :=
  saves (snd r) = saves st
  /\ (showsSuccess r -> validForm f /\ snd r = setSettings st (entered f))
  /\ (showsError r -> snd r = st)
  /\ (fst r = None ->
      validForm f /\ (snd r = st \/ snd r = setSettings st (entered f))).

(** The store after the worker has dealt with the [saveSettings] message
    of the form, if the message reached it. *)
Definition delivered (transport : option jsstring) (e : env) (f : form)
           (st : store) : store :=
  match transport, writeError e with
  | None, None => setSettings st (entered f)
  | _, _ => st
  end.

(** The two popups on the same form and store: the one that writes the
    storage itself and the one that asks the background over [a]. *)
Definition popupSaves (a : api) (transport : option jsstring) (e : env)
           (f : form) (st : store) : list (option notice * store) :=
  [ (Some (fst (Popup.saveSettings e f st)), snd (Popup.saveSettings e f st));
    saveSettingsByMessage a transport e f st ].

End PopupWords.

(** Further sample data for closed instances. *)
Module Cases.
Import Store.

(** A run in which the provider answers with [text] and the storage
    refuses the write. *)
Definition fullDisk (text : jsstring) : env := {|
  settingsReadError := None;
  savesReadError := None;
  writeError := Some (ustr "QUOTA_BYTES quota exceeded");
  fetched := Responded true 200 (Parsed None (Yields (VStr text)));
  typeError := {| errName := "TypeError"; errMessage := "not a function" |};
  newId := "m1abc";
  now := "2026-02-01T00:00:00.000Z"
|}.

(** A run in which the provider answers with status 429 and a message. *)
Definition limited : env := {|
  settingsReadError := None;
  savesReadError := None;
  writeError := None;
  fetched := Responded false 429
               (Parsed (Some (ustr "Rate limit reached"))
                       (Throws (Error "no choices")));
  typeError := {| errName := "TypeError"; errMessage := "not a function" |};
  newId := "m1abc";
  now := "2026-02-01T00:00:00.000Z"
|}.

(** A run in which the provider answers with status 500 and the body
    [null]. *)
Definition emptied : env := {|
  settingsReadError := None;
  savesReadError := None;
  writeError := None;
  fetched := Responded false 500
               (Null {| errName := "TypeError";
                        errMessage := "Cannot read properties of null" |});
  typeError := {| errName := "TypeError"; errMessage := "not a function" |};
  newId := "m1abc";
  now := "2026-02-01T00:00:00.000Z"
|}.

(** Settings with a key and a provider that the workers do not know. *)
Definition otherProvider : store := {|
  settings := Some {| apiProvider := Some (ustr "claude");
                      apiKey := Some (ustr "sk-test") |};
  saves := Some []
|}.

End Cases.

(* ================================================================== *)
(** * Properties *)

(* ------------------------------------------------------------------ *)
(** ** Platform detection *)

Section Detection.
Import JS Adapter.

Variable table : list platform.

Lemma anyPattern_true hostname pats :
  anyPattern hostname pats = true <->
  exists p, In p pats /\ includes p hostname = true.
Proof.
  induction pats as [|p ps IH]; simpl.
  - split; [discriminate | intros (p & [] & _)].
  - destruct (includes p hostname) eqn:E.
    + split; [intros _; exists p; auto | reflexivity].
    + rewrite IH. split.
      * intros (q & Hq & Hm). exists q; auto.
      * intros (q & [<- | Hq] & Hm); [congruence | exists q; auto].
Qed.

Lemma anyPattern_false hostname pats :
  anyPattern hostname pats = false <->
  forall p, In p pats -> includes p hostname = false.
Proof.
  induction pats as [|p ps IH]; simpl.
  - split; [intros _ p [] | reflexivity].
  - destruct (includes p hostname) eqn:E.
    + split; [discriminate | intros H; rewrite (H p) in E; auto].
    + rewrite IH. split.
      * intros H q [<- | Hq]; auto.
      * intros H q Hq; auto.
Qed.

Lemma detectIn_none hostname :
  (forall cfg, In cfg table -> ~ claims cfg hostname) ->
  detectIn table hostname = None.
Proof.
  induction table as [|cfg rest IH]; simpl; intros H; [reflexivity|].
  destruct (anyPattern hostname (hostPatterns cfg)) eqn:E.
  - exfalso. apply (H cfg); [now left | now apply anyPattern_true].
  - apply IH. intros c Hc. apply H. now right.
Qed.

(** First match wins, in registration order. *)
Lemma detectIn_first hostname cfg :
  detectIn table hostname = Some cfg <->
  exists before after,
    table = before ++ cfg :: after /\
    claims cfg hostname /\
    forall c, In c before -> ~ claims c hostname.
Proof.
  induction table as [|c rest IH]; simpl.
  - split; [discriminate | intros ([|? ?] & ? & H & _); discriminate].
  - destruct (anyPattern hostname (hostPatterns c)) eqn:E.
    + split.
      * intros [= <-]. exists [], rest. repeat split; auto.
        now apply anyPattern_true.
      * intros ([|b before] & after & Heq & Hc & Hb).
        -- now injection Heq as ->.
        -- injection Heq as -> _. exfalso. apply (Hb b); [now left|].
           now apply anyPattern_true.
    + rewrite IH. split.
      * intros (before & after & -> & Hc & Hb).
        exists (c :: before), after. repeat split; auto.
        intros c' [<- | Hin]; [|now apply Hb].
        intros Hcl. apply anyPattern_true in Hcl. congruence.
      * intros ([|b before] & after & Heq & Hc & Hb).
        -- injection Heq as -> _. apply anyPattern_true in Hc. congruence.
        -- injection Heq as _ ->. exists before, after. repeat split; auto.
           intros c' Hin. apply Hb. now right.
Qed.

End Detection.

(** A pattern occurs in every host name built around it. *)
Lemma includes_middle (p pre post : jsstring) :
  JS.includes p (pre ++ p ++ post) = true.
Proof.
  assert (Hs : forall q r, JS.startsWith q (q ++ r) = true).
  { induction q as [|x q IH]; simpl; intros r; [reflexivity|].
    now rewrite N.eqb_refl, IH. }
  induction pre as [|c pre IH]; simpl.
  - destruct p as [|x p]; simpl.
    + now destruct post.
    + now rewrite N.eqb_refl, Hs.
  - rewrite IH. apply orb_true_r.
Qed.

Lemma detect_contract_of table chatgpt rest :
  table = chatgpt :: rest ->
  Adapter.hostPatterns chatgpt = [ustr "chatgpt.com"; ustr "chat.openai.com"] ->
  (forall cfg p, In cfg table -> In p (Adapter.hostPatterns cfg) ->
                 Adapter.detectIn table p = Some cfg) ->
  detect_contract (Adapter.detectIn table) table chatgpt.
Proof.
  intros -> Hp Hall. repeat split.
  - apply detectIn_none.
  - exact Hall.
  - apply detectIn_first.
  - apply detectIn_first.
  - cbn [Adapter.detectIn]. rewrite Hp. cbn [Adapter.anyPattern].
    destruct (JS.includes (ustr "chatgpt.com") _); [reflexivity|].
    now rewrite includes_middle.
  - cbn [Adapter.detectIn]. rewrite Hp. cbn [Adapter.anyPattern].
    now rewrite includes_middle.
Qed.

(** C6. [detectPlatform] of either content script, over the table of its
    script: it answers [null] for a host name in which no registered
    pattern occurs; it answers with the platform of every registered
    pattern; the first registered platform with a pattern that occurs in
    the host name wins; the former domain chat.openai.com and the current
    domain chatgpt.com, alone or inside a longer host name, both resolve to
    ChatGPT; and the registered domains resolve to the keys [chatgpt],
    [claude] and [gemini]. *)
Theorem detectPlatform_contract :
  (detect_contract Content.detectPlatform Content.PLATFORMS Content.chatgpt
   /\ detect_contract ContentAsync.detectPlatform ContentAsync.PLATFORMS
                      ContentAsync.chatgpt)
  /\ forall detect,
      In detect [Content.detectPlatform; ContentAsync.detectPlatform] ->
      resolves detect "chat.openai.com" "chatgpt"
      /\ resolves detect "chatgpt.com" "chatgpt"
      /\ resolves detect "claude.ai" "claude"
      /\ resolves detect "gemini.google.com" "gemini"
      /\ detect (ustr "example.org") = None.
Proof.
  split; [split|].
  - apply (@detect_contract_of _ _ [Content.claude; Content.gemini]);
      [reflexivity | reflexivity |].
    intros cfg p [<- | [<- | [<- | []]]] Hp; simpl in Hp;
      repeat (destruct Hp as [<- | Hp]; [vm_compute; reflexivity|]);
      destruct Hp.
  - apply (@detect_contract_of _ _ [ContentAsync.claude; ContentAsync.gemini]);
      [reflexivity | reflexivity |].
    intros cfg p [<- | [<- | [<- | []]]] Hp; simpl in Hp;
      repeat (destruct Hp as [<- | Hp]; [vm_compute; reflexivity|]);
      destruct Hp.
  - intros detect [<- | [<- | []]]; repeat split;
      try (eexists; split; [vm_compute; reflexivity | reflexivity]);
      reflexivity.
Qed.

Lemma detectPlatform_contract_witness :
  Content.detectPlatform (ustr "example.org") = None
  /\ Content.detectPlatform (ustr "chat.openai.com") = Some Content.chatgpt
  /\ ContentAsync.detectPlatform (ustr "gemini.google.com")
     = Some ContentAsync.gemini
  /\ resolves ContentAsync.detectPlatform "claude.ai" "claude".
Proof.
  split; [|split; [|split]].
  - apply (proj1 (proj1 (proj1 detectPlatform_contract)) (ustr "example.org")).
    intros cfg [<- | [<- | [<- | []]]] (p & Hp & Hm); simpl in Hp;
      repeat (destruct Hp as [<- | Hp]; [vm_compute in Hm; discriminate|]);
      destruct Hp.
  - apply (proj1 (proj2 (proj1 (proj1 detectPlatform_contract)))
                 Content.chatgpt).
    + left; reflexivity.
    + right; left; reflexivity.
  - apply (proj1 (proj2 (proj2 (proj1 detectPlatform_contract)))
                 ContentAsync.gemini).
    + right; right; left; reflexivity.
    + left; reflexivity.
  - apply (proj2 detectPlatform_contract ContentAsync.detectPlatform).
    right; left; reflexivity.
Defined.

(* ------------------------------------------------------------------ *)
(** ** The sanitizer *)

Section Removal.
Import JS Regex.

Variable m : matcher.

Lemma removeAll_skip k s :
  removeAll m k s = removeAll m 0 (skipn k s).
Proof.
  revert s; induction k as [|k IH]; intros s; [reflexivity|].
  destruct s as [|c t]; [reflexivity|]. simpl. apply IH.
Qed.

Lemma removeAll_length k s :
  List.length (removeAll m k s) <= List.length s.
Proof.
  revert k; induction s as [|c t IH]; intros k; simpl; [lia|].
  destruct k as [|k].
  - destruct (m (c :: t)) as [[|j]|]; simpl;
      try (specialize (IH 0); lia); specialize (IH j); lia.
  - specialize (IH k); lia.
Qed.

(** A code unit that the text lacks is not in what a pass leaves. *)
Lemma removeAll_In c k s :
  In c (removeAll m k s) -> In c s.
Proof.
  revert k; induction s as [|x t IH]; intros k; simpl; [tauto|].
  destruct k as [|k].
  - destruct (m (x :: t)) as [[|j]|]; simpl; intros H;
      try (destruct H as [H|H]; [now left | right; now apply (IH 0)]).
    right; now apply (IH j).
  - intros H. right. now apply (IH k).
Qed.

(** A pass leaves the text alone exactly when its pattern has no match
    in it. *)
Lemma removeAll_fixed s :
  test m s = false -> removeAll m 0 s = s.
Proof.
  induction s as [|c t IH]; simpl; [reflexivity|].
  destruct (m (c :: t)) as [[|j]|]; intros H;
    try discriminate; now rewrite IH.
Qed.

Lemma removeAll_shrinks s :
  m [] = None ->
  test m s = true -> List.length (removeAll m 0 s) < List.length s.
Proof.
  intros Hnil. induction s as [|c t IH]; simpl.
  - rewrite Hnil. discriminate.
  - destruct (m (c :: t)) as [[|j]|]; simpl; intros H;
      try (specialize (IH H); lia).
    pose proof (removeAll_length j t). lia.
Qed.

Lemma test_skipn k s :
  test m s = false -> test m (skipn k s) = false.
Proof.
  revert s; induction k as [|k IH]; intros s H; [exact H|].
  destruct s as [|c t]; [exact H|]. simpl. apply IH.
  simpl in H. destruct (m (c :: t)) as [[|j]|]; auto; discriminate.
Qed.

End Removal.

Section TagFree.
Import JS Regex.

(** Where [>] first occurs. *)
Lemma upTo_None s : upTo GT s = None <-> ~ In GT s.
Proof.
  induction s as [|c t IH]; simpl; [tauto|].
  destruct (N.eqb_spec c GT) as [->|Hne].
  - split; [discriminate | intros H; exfalso; apply H; now left].
  - destruct (upTo GT t); simpl.
    + split; [discriminate|]. intros H. exfalso. apply H. right.
      destruct (in_dec N.eq_dec GT t) as [Hi|Hn]; [exact Hi|].
      apply IH in Hn. discriminate.
    + split; [|reflexivity]. intros _ [Hc|Hi]; [congruence|].
      now apply (proj1 IH).
Qed.

Lemma upTo_app s w k : upTo GT s = Some k -> upTo GT (s ++ w) = Some k.
Proof.
  revert k; induction s as [|c t IH]; simpl; intros k; [discriminate|].
  destruct (N.eqb c GT); [auto|].
  destruct (upTo GT t) as [j|]; simpl; [|discriminate].
  intros [= <-]. now rewrite (IH j).
Qed.

Lemma tag_positive s : tag s <> Some 0.
Proof.
  destruct s as [|c t]; simpl; [discriminate|].
  destruct (N.eqb c LT); [|discriminate].
  destruct (upTo GT t) as [[|k]|]; discriminate.
Qed.

Lemma tagfree_cons c t :
  tagfree (c :: t) <-> tag (c :: t) = None /\ tagfree t.
Proof.
  unfold tagfree. cbn [test].
  pose proof (tag_positive (c :: t)) as Hp.
  destruct (tag (c :: t)) as [[|j]|].
  - congruence.
  - split; [discriminate | intros [H _]; discriminate].
  - tauto.
Qed.

Lemma tag_None_iff c t :
  tag (c :: t) = None <->
  c <> LT \/ upTo GT t = None \/ upTo GT t = Some 0.
Proof.
  cbn [tag]. destruct (N.eqb_spec c LT) as [->|Hne].
  - destruct (upTo GT t) as [[|k]|].
    + split; auto.
    + split; [discriminate|]. intros [H|[H|H]]; congruence.
    + split; auto.
  - split; auto.
Qed.

(** What a pass keeps of a tag-free text is tag-free, provided the
    pattern of the pass cannot start at a [>]. *)
Lemma open_bracket_kept (m : matcher) (c : codeunit) t :
  (forall u, m (GT :: u) = None) ->
  tag (c :: t) = None ->
  tag (c :: removeAll m 0 t) = None.
Proof.
  intros Hgt H. apply tag_None_iff. apply tag_None_iff in H.
  destruct H as [H|[H|H]]; [now left | right; left | right; right].
  - apply upTo_None. intros Hin. apply removeAll_In in Hin.
    now apply upTo_None in H.
  - destruct t as [|x t]; [discriminate|]. cbn [upTo] in H.
    destruct (N.eqb_spec x GT) as [->|Hne].
    + cbn [removeAll]. rewrite Hgt. cbn [upTo]. now rewrite N.eqb_refl.
    + destruct (upTo GT t); discriminate.
Qed.

Lemma tagfree_kept (m : matcher) :
  (forall u, m (GT :: u) = None) ->
  forall n s, List.length s <= n -> tagfree s -> tagfree (removeAll m 0 s).
Proof.
  intros Hgt. induction n as [|n IH]; intros [|c t] Hlen Hs;
    try exact Hs; simpl in Hlen; [lia|].
  apply tagfree_cons in Hs. destruct Hs as [Hc Ht].
  cbn [removeAll]. destruct (m (c :: t)) as [[|j]|].
  - apply tagfree_cons. split; [now apply open_bracket_kept|].
    apply IH; [lia | exact Ht].
  - rewrite removeAll_skip. apply IH.
    + rewrite length_skipn. lia.
    + now apply test_skipn.
  - apply tagfree_cons. split; [now apply open_bracket_kept|].
    apply IH; [lia | exact Ht].
Qed.

(** The tag pass leaves a tag-free text, whatever it started from. *)
Lemma tagfree_made n s :
  List.length s <= n -> tagfree (removeAll tag 0 s).
Proof.
  revert s; induction n as [|n IH]; intros [|c t] Hlen;
    try reflexivity; simpl in Hlen; [lia|].
  cbn [removeAll]. pose proof (tag_positive (c :: t)) as Hp.
  destruct (tag (c :: t)) as [[|j]|] eqn:E; [congruence| |].
  - rewrite removeAll_skip. apply IH. rewrite length_skipn. lia.
  - apply tagfree_cons. split; [|apply IH; lia].
    apply open_bracket_kept; [|exact E].
    intros u. reflexivity.
Qed.

Lemma tagfree_prefix s w : tagfree (s ++ w) -> tagfree s.
Proof.
  induction s as [|c t IH]; intros H; [reflexivity|].
  change ((c :: t) ++ w) with (c :: (t ++ w)) in H.
  apply tagfree_cons in H. destruct H as [Hc Ht].
  apply tagfree_cons. split; [|now apply IH].
  apply tag_None_iff. apply tag_None_iff in Hc.
  destruct Hc as [Hc|[Hc|Hc]]; [now left | right; left|].
  - apply upTo_None. intros Hin. apply upTo_None in Hc. apply Hc.
    apply in_or_app. now left.
  - destruct (upTo GT t) as [k|] eqn:E; [|now right; left].
    rewrite (upTo_app _ w E) in Hc. right; right. congruence.
Qed.

End TagFree.

Section Trim.
Import JS.

Lemma trimStart_split s : exists w, s = w ++ trimStart s.
Proof.
  induction s as [|c t (w & IH)]; simpl; [now exists []|].
  destruct (isWhite c).
  - exists (c :: w). simpl. now f_equal.
  - now exists [].
Qed.

Lemma trimStart_fixed c t : isWhite c = false -> trimStart (c :: t) = c :: t.
Proof. intros H. simpl. now rewrite H. Qed.

Lemma trimStart_head s c t : trimStart s = c :: t -> isWhite c = false.
Proof.
  induction s as [|x s IH]; simpl; [discriminate|].
  destruct (isWhite x) eqn:E; [exact IH|].
  intros [= <- _]. exact E.
Qed.

Lemma trimStart_idem s : trimStart (trimStart s) = trimStart s.
Proof.
  destruct (trimStart s) as [|c t] eqn:E; [reflexivity|].
  apply trimStart_fixed. exact (trimStart_head _ E).
Qed.

Lemma trimEnd_split s : exists w, s = trimEnd s ++ w.
Proof.
  unfold trimEnd. destruct (trimStart_split (rev s)) as (w & H).
  exists (rev w). rewrite <- rev_app_distr, <- H. now rewrite rev_involutive.
Qed.

Lemma trim_idem s : trim (trim s) = trim s.
Proof.
  unfold trim. set (a := trimStart s).
  assert (Hb : trimStart (trimEnd a) = trimEnd a).
  { destruct (trimEnd a) as [|c b] eqn:E; [reflexivity|].
    apply trimStart_fixed.
    destruct (trimEnd_split a) as (w & Hw). rewrite E in Hw.
    apply (@trimStart_head s c (b ++ w)). exact Hw. }
  rewrite Hb. unfold trimEnd at 1. unfold trimEnd at 1.
  rewrite rev_involutive, trimStart_idem. reflexivity.
Qed.

Lemma trim_length s : List.length (trim s) <= List.length s.
Proof.
  unfold trim. destruct (trimStart_split s) as (w & Hw).
  destruct (trimEnd_split (trimStart s)) as (v & Hv).
  rewrite Hw at 2. rewrite Hv at 2. rewrite !length_app. lia.
Qed.

Lemma tagfree_trim s : tagfree s -> tagfree (trim s).
Proof.
  intros H. unfold trim.
  destruct (trimEnd_split (trimStart s)) as (v & Hv).
  apply (@tagfree_prefix _ v). rewrite <- Hv.
  clear v Hv. induction s as [|c t IH]; [exact H|].
  apply tagfree_cons in H. destruct H as [Hc Ht]. simpl.
  destruct (isWhite c); [now apply IH|].
  apply tagfree_cons. now split.
Qed.

End Trim.

Section Blocks.
Import JS Regex.

Lemma ceq_LT c : ceq LT c = true -> c = LT.
Proof.
  unfold ceq, canon, LT. cbn [N.leb N.compare].
  destruct ((97 <=? c) && (c <=? 122))%N eqn:E; intros H;
    apply N.eqb_eq in H; [|now symmetry].
  apply andb_prop in E. destruct E as [E1 E2].
  apply N.leb_le in E1. simpl in H. lia.
Qed.

Lemma ceq_to_GT c : ceq GT c = true -> c = GT.
Proof.
  unfold ceq, canon, GT. cbn [N.leb N.compare].
  destruct ((97 <=? c) && (c <=? 122))%N eqn:E; intros H;
    apply N.eqb_eq in H; [|now symmetry].
  apply andb_prop in E. destruct E as [E1 E2].
  apply N.leb_le in E1. simpl in H. lia.
Qed.

(** A literal without [>] pushes the first [>] back by its length. *)
Lemma afterLiteral_upTo p s r :
  afterLiteral p s = Some r ->
  Forall (fun x => ceq x GT = false) p ->
  upTo GT s = option_map (Nat.add (List.length p)) (upTo GT r).
Proof.
  revert s; induction p as [|x p IH]; intros s; simpl.
  - intros [= ->] _. now destruct (upTo GT r).
  - destruct s as [|y s]; [discriminate|].
    destruct (ceq x y) eqn:E; [|discriminate].
    intros H Hall. inversion Hall as [|? ? Hx Hp]; subst.
    simpl. destruct (N.eqb_spec y GT) as [->|Hne]; [congruence|].
    rewrite (IH s H Hp). now destruct (upTo GT r).
Qed.

(** A literal with a [>] brings one into the text it opens. *)
Lemma afterLiteral_GT p s r :
  afterLiteral p s = Some r -> In GT p -> upTo GT s <> None.
Proof.
  revert s; induction p as [|x p IH]; intros s; simpl; [tauto|].
  destruct s as [|y s]; [discriminate|].
  destruct (ceq x y) eqn:E; [|discriminate].
  intros H [-> | Hin]; simpl.
  - apply ceq_to_GT in E. subst y. now rewrite N.eqb_refl.
  - destruct (N.eqb y GT); [discriminate|].
    specialize (IH s H Hin). now destruct (upTo GT s).
Qed.

Lemma findLiteral_GT p s j :
  findLiteral p s = Some j -> In GT p -> upTo GT s <> None.
Proof.
  intros H Hin. revert j H; induction s as [|y s IH]; intros j; simpl.
  - destruct (afterLiteral p []) eqn:E; [|discriminate].
    intros _. exact (@afterLiteral_GT _ _ _ E Hin).
  - destruct (afterLiteral p (y :: s)) eqn:E.
    + intros _. exact (@afterLiteral_GT _ _ _ E Hin).
    + destruct (findLiteral p s) as [k|]; [|discriminate].
      intros _. specialize (IH k eq_refl).
      destruct (N.eqb y GT); [discriminate|].
      now destruct (upTo GT s).
Qed.

Variables (x : codeunit) (open' close : jsstring).
Hypothesis open_plain : Forall (fun c => ceq c GT = false) (x :: open').
Hypothesis close_ends : In GT close.

(** Both block patterns start like a tag and run up to a [>]: where
    the tag pattern has no match, they have none. *)
Lemma block_needs_tag s :
  tag s = None -> block (LT :: x :: open') close s = None.
Proof.
  destruct s as [|c t]; [reflexivity|]. intros Ht.
  unfold block.
  change (afterLiteral (LT :: x :: open') (c :: t))
    with (if ceq LT c then afterLiteral (x :: open') t else None).
  destruct (ceq LT c) eqn:Ec; [|reflexivity].
  apply ceq_LT in Ec. subst c.
  destruct (afterLiteral (x :: open') t) as [r|] eqn:Er; [|reflexivity].
  destruct (upTo GT r) as [k|] eqn:Ek; [|reflexivity].
  exfalso. apply tag_None_iff in Ht.
  rewrite (@afterLiteral_upTo _ _ _ Er open_plain), Ek in Ht. simpl in Ht.
  destruct Ht as [Ht|[Ht|Ht]]; congruence.
Qed.

Lemma blockB_needs_tag s :
  tag s = None -> blockB (LT :: x :: open') close s = None.
Proof.
  destruct s as [|c t]; [reflexivity|]. intros Ht.
  unfold blockB.
  change (afterLiteral (LT :: x :: open') (c :: t))
    with (if ceq LT c then afterLiteral (x :: open') t else None).
  destruct (ceq LT c) eqn:Ec; [|reflexivity].
  apply ceq_LT in Ec. subst c.
  destruct (afterLiteral (x :: open') t) as [r|] eqn:Er; [|reflexivity].
  destruct (match r with [] => true | c :: _ => negb (isWord c) end);
    [|reflexivity].
  destruct (findLiteral close r) as [j|] eqn:Ej; [|reflexivity].
  exfalso. apply tag_None_iff in Ht.
  pose proof (@findLiteral_GT _ _ _ Ej close_ends) as Hgt.
  rewrite (@afterLiteral_upTo _ _ _ Er open_plain) in Ht.
  destruct (upTo GT r) as [k|]; [|congruence]. simpl in Ht.
  destruct Ht as [Ht|[Ht|Ht]]; congruence.
Qed.

End Blocks.

Lemma tagfree_no_match (m : Regex.matcher) s :
  (forall u, Regex.tag u = None -> m u = None) ->
  tagfree s -> Regex.test m s = false.
Proof.
  intros Hm. induction s as [|c t IH]; intros H.
  - simpl. now rewrite Hm.
  - apply tagfree_cons in H. destruct H as [Hc Ht].
    simpl. rewrite (Hm _ Hc). now apply IH.
Qed.

Section Idempotence.
Import JS Regex Sanitizer.

Variables script style : matcher.
Hypothesis script_tag : forall u, tag u = None -> script u = None.
Hypothesis style_tag : forall u, tag u = None -> style u = None.

Let f := passes script style.

Lemma guarded_passes y : guarded f (VStr y) = f y.
Proof. destruct y; reflexivity. Qed.

Lemma jsUri_GT u : jsUri (GT :: u) = None.
Proof. reflexivity. Qed.

Lemma handler_GT u : handler (GT :: u) = None.
Proof. reflexivity. Qed.

Lemma passes_tagfree text : tagfree (f text).
Proof.
  unfold f, passes. apply tagfree_trim.
  eapply tagfree_kept; [exact handler_GT | apply le_n |].
  eapply tagfree_kept; [exact jsUri_GT | apply le_n |].
  eapply tagfree_made; apply le_n.
Qed.

Lemma passes_trimmed text : trim (f text) = f text.
Proof. apply trim_idem. Qed.

(** On a tag-free, trimmed text only the last two replacements can act. *)
Lemma passes_on_clean y :
  tagfree y -> trim y = y ->
  f y = trim (removeAll handler 0 (removeAll jsUri 0 y)).
Proof.
  intros Hy _. unfold f, passes.
  rewrite (@removeAll_fixed script y) by now apply tagfree_no_match.
  rewrite (@removeAll_fixed style y) by now apply tagfree_no_match.
  rewrite (@removeAll_fixed tag y) by exact Hy.
  reflexivity.
Qed.

Lemma passes_fixed_iff y :
  tagfree y -> trim y = y ->
  (f y = y <-> test jsUri y = false /\ test handler y = false).
Proof.
  intros Hy Htrim. rewrite (passes_on_clean Hy Htrim). split.
  - intros H.
    pose proof (trim_length (removeAll handler 0 (removeAll jsUri 0 y))) as L1.
    pose proof (removeAll_length handler 0 (removeAll jsUri 0 y)) as L2.
    pose proof (removeAll_length jsUri 0 y) as L3.
    rewrite H in L1.
    destruct (test jsUri y) eqn:Ej.
    + pose proof (@removeAll_shrinks jsUri y eq_refl Ej). lia.
    + split; [reflexivity|].
      rewrite (@removeAll_fixed jsUri y Ej) in L1, L2.
      destruct (test handler y) eqn:Eh; [|reflexivity].
      pose proof (@removeAll_shrinks handler y eq_refl Eh). lia.
  - intros [Hj Hh].
    now rewrite (@removeAll_fixed jsUri y Hj), (@removeAll_fixed handler y Hh).
Qed.

(** A second run changes nothing exactly when the first run left no
    script URI and no handler fragment behind. *)
Lemma guarded_twice_iff text :
  guarded f (VStr (guarded f text)) = guarded f text <->
  test jsUri (guarded f text) = false /\
  test handler (guarded f text) = false.
Proof.
  rewrite guarded_passes.
  assert (H : tagfree (guarded f text) /\ trim (guarded f text) = guarded f text).
  { destruct text as [| |[|c t]]; try (split; reflexivity).
    split; [apply passes_tagfree | apply passes_trimmed]. }
  destruct H as [H1 H2]. now apply passes_fixed_iff.
Qed.

End Idempotence.

Section SanitizerFacts.
Import JS Regex Sanitizer.

Lemma script_needs_tag u :
  tag u = None -> block "<script" "</script>" u = None.
Proof.
  apply (@block_needs_tag 115%N (ustr "cript") (ustr "</script>")).
  repeat constructor.
Qed.

Lemma style_needs_tag u :
  tag u = None -> block "<style" "</style>" u = None.
Proof.
  apply (@block_needs_tag 115%N (ustr "tyle") (ustr "</style>")).
  repeat constructor.
Qed.

Lemma scriptB_needs_tag u :
  tag u = None -> blockB "<script" "</script>" u = None.
Proof.
  apply (@blockB_needs_tag 115%N (ustr "cript") (ustr "</script>")).
  - repeat constructor.
  - vm_compute. tauto.
Qed.

Lemma styleB_needs_tag u :
  tag u = None -> blockB "<style" "</style>" u = None.
Proof.
  apply (@blockB_needs_tag 115%N (ustr "tyle") (ustr "</style>")).
  - repeat constructor.
  - vm_compute. tauto.
Qed.

Lemma guarded_tagfree script style text :
  tagfree (guarded (passes script style) text).
Proof.
  destruct text as [| |[|c t]]; try reflexivity.
  apply passes_tagfree.
Qed.

End SanitizerFacts.

(** C10. On the empty string, on [null] and on [undefined] both
    sanitizers return the empty string; on every input they return a
    string, never longer than a string input. *)
Theorem sanitize_degenerate :
  Sanitizer.sanitize (VStr (ustr "")) = ustr ""
  /\ Sanitizer.sanitize VNull = ustr ""
  /\ Sanitizer.sanitize VUndefined = ustr ""
  /\ Sanitizer.sanitizeText (VStr (ustr "")) = ustr ""
  /\ Sanitizer.sanitizeText VNull = ustr ""
  /\ Sanitizer.sanitizeText VUndefined = ustr ""
  /\ forall s : jsstring,
       List.length (Sanitizer.sanitize (VStr s)) <= List.length s
       /\ List.length (Sanitizer.sanitizeText (VStr s)) <= List.length s.
Proof.
  repeat (split; [reflexivity|]).
  assert (H : forall script style s,
             List.length (Sanitizer.guarded (Sanitizer.passes script style) (VStr s))
             <= List.length s).
  { intros script style s. rewrite guarded_passes. unfold Sanitizer.passes.
    repeat match goal with
           | |- List.length (JS.trim ?x) <= _ =>
               pose proof (trim_length x); enough (List.length x <= List.length s) by lia
           | |- List.length (Regex.removeAll ?m 0 ?x) <= _ =>
               pose proof (removeAll_length m 0 x); enough (List.length x <= List.length s) by lia
           end.
    lia. }
  intros s. split; apply H.
Qed.

(** C3.  The claim fails on the code at the text [javajavascript:script:]:
    the replacement of [/javascript:/gi] is a single pass, it deletes the
    match inside, and what is left closes into [javascript:], the fragment
    that the pass is there to delete.  A second run returns the empty
    string, so neither sanitizer is idempotent.  The handler pass leaves
    [onclick=] behind in the same way.  The example of the claim, and its
    like with a style block, come out as the claim says. *)
Theorem sanitize_leaves_script_uri :
  (Sanitizer.sanitize (VStr (ustr "javajavascript:script:"))
   = ustr "javascript:"
   /\ Sanitizer.sanitize (VStr (ustr "javascript:")) = ustr ""
   /\ Sanitizer.sanitizeText (VStr (ustr "javajavascript:script:"))
      = ustr "javascript:"
   /\ Sanitizer.sanitizeText (VStr (ustr "javascript:")) = ustr "")
  /\ (Sanitizer.sanitize (VStr (ustr "oonclick=nclick=alert(1)"))
      = ustr "onclick=alert(1)"
      /\ Sanitizer.sanitizeText (VStr (ustr "oonclick=nclick=alert(1)"))
         = ustr "onclick=alert(1)")
  /\ (~ idempotent Sanitizer.sanitize /\ ~ idempotent Sanitizer.sanitizeText)
  /\ (Sanitizer.sanitize (VStr (ustr "<script>x</script>hello")) = ustr "hello"
      /\ Sanitizer.sanitizeText (VStr (ustr "<script>x</script>hello"))
         = ustr "hello"
      /\ Sanitizer.sanitize (VStr (ustr "<style>p { color: red }</style>hello"))
         = ustr "hello"
      /\ Sanitizer.sanitizeText
           (VStr (ustr "<style>p { color: red }</style>hello"))
         = ustr "hello").
Proof.
  split; [repeat split; reflexivity|].
  split; [split; reflexivity|].
  split; [|repeat split; reflexivity].
  split; intros H; specialize (H (ustr "javajavascript:script:"));
    vm_compute in H; discriminate.
Qed.

(* ------------------------------------------------------------------ *)
(** ** The bounded store *)

Section BoundedInsert.
Import Store.

(** The guarded cut of the callback worker is the plain cut of the
    promise worker. *)
Lemma bounded_eq d l : Worker.bounded d l = WorkerAsync.bounded d l.
Proof.
  unfold Worker.bounded, WorkerAsync.bounded.
  destruct (Nat.ltb_spec 20 (List.length (d :: l))) as [H|H];
    [reflexivity|].
  symmetry. now apply firstn_all2.
Qed.

Lemma bounded_length d l : List.length (WorkerAsync.bounded d l) <= 20.
Proof. unfold WorkerAsync.bounded. rewrite length_firstn. lia. Qed.

Lemma saveCb_async e d st : saveCb e d st = saveAsync e d st.
Proof.
  unfold saveCb, saveAsync, Worker.saveSummary, WorkerAsync.saveSummary.
  rewrite bounded_eq.
  destruct (savesReadError e), (writeError e); reflexivity.
Qed.

Lemma saveAsync_works e d st :
  storageWorks e ->
  savesOf (saveAsync e d st) = firstn 20 (d :: savesOf st).
Proof.
  intros [Hr Hw]. unfold saveAsync, WorkerAsync.saveSummary.
  now rewrite Hr, Hw.
Qed.

(** A failed insert leaves the store as it was. *)
Lemma saveAsync_any e d st :
  saveAsync e d st = st \/
  savesOf (saveAsync e d st) = firstn 20 (d :: savesOf st).
Proof.
  unfold saveAsync, WorkerAsync.saveSummary.
  destruct (savesReadError e); [now left|].
  destruct (writeError e); [now left | now right].
Qed.

Lemma insertAll_async l st :
  insertAll saveCb l st = insertAll saveAsync l st.
Proof.
  revert st; induction l as [|[e d] l IH]; intros st; [reflexivity|].
  simpl. now rewrite saveCb_async, IH.
Qed.

(** The capacity is an invariant of any sequence of inserts, failed ones
    included. *)
Lemma insertAll_capacity l st :
  List.length (savesOf st) <= 20 ->
  List.length (savesOf (insertAll saveAsync l st)) <= 20.
Proof.
  revert st; induction l as [|[e d] l IH]; intros st H; [exact H|].
  simpl. apply IH.
  destruct (saveAsync_any e d st) as [-> | ->]; [exact H|].
  rewrite length_firstn. lia.
Qed.

Lemma firstn_app_firstn (A : Type) n (a b : list A) :
  firstn n (a ++ firstn n b) = firstn n (a ++ b).
Proof.
  rewrite !firstn_app, firstn_firstn. do 2 f_equal. lia.
Qed.

(** Successful inserts pile up most recent first, cut at the capacity. *)
Lemma insertAll_works l st :
  Forall storageWorks (List.map fst l) -> l <> [] ->
  savesOf (insertAll saveAsync l st)
  = firstn 20 (rev (List.map snd l) ++ savesOf st).
Proof.
  revert st; induction l as [|[e d] l IH]; intros st Hall Hne;
    [congruence|].
  inversion Hall as [|? ? He Hl]; subst. simpl.
  destruct l as [|p l'].
  - simpl. now apply saveAsync_works.
  - rewrite IH; [|exact Hl|discriminate].
    rewrite (saveAsync_works d st He).
    rewrite firstn_app_firstn.
    f_equal. cbn [List.map rev]. rewrite <- !app_assoc. reflexivity.
Qed.

End BoundedInsert.

(** C2. Twenty-five summaries inserted in order into a store without
    saves, every storage operation succeeding, leave exactly twenty
    entries: the last twenty in reverse order of insertion, so the head is
    the 25th and the tail is the 6th.  A successful insert puts the new
    summary at the head, in front of what was there, cut to twenty.  Any
    sequence of inserts, successful or not, keeps a list of at most twenty
    entries at most twenty entries long.  The two workers insert alike. *)
Theorem bounded_insert :
  (forall (l : list (Store.env * Store.Summary)) (st : Store.store),
      Store.savesOf st = [] ->
      Forall storageWorks (List.map fst l) ->
      List.length l = 25 ->
      let after := Store.savesOf (insertAll saveCb l st) in
      after = rev (skipn 5 (List.map snd l))
      /\ List.length after = 20
      /\ nth_error after 0 = nth_error (List.map snd l) 24
      /\ nth_error after 19 = nth_error (List.map snd l) 5)
  /\ (forall e d st,
         storageWorks e ->
         Worker.saveSummary e d st
         = (None, Store.setSaves st (d :: firstn 19 (Store.savesOf st))))
  /\ (forall l st,
         List.length (Store.savesOf st) <= 20 ->
         List.length (Store.savesOf (insertAll saveCb l st)) <= 20)
  /\ (forall l st, insertAll saveAsync l st = insertAll saveCb l st).
Proof.
  split; [|split; [|split]].
  - intros l st Hst Hall Hlen after.
    assert (Hafter : after = rev (skipn 5 (List.map snd l))).
    { unfold after. rewrite insertAll_async, insertAll_works;
        [|exact Hall|destruct l; [discriminate Hlen|discriminate]].
      rewrite Hst, app_nil_r, firstn_rev, length_map, Hlen. reflexivity. }
    assert (Hl : List.length (skipn 5 (List.map snd l)) = 20).
    { rewrite length_skipn, length_map, Hlen. reflexivity. }
    split; [exact Hafter|]. rewrite Hafter. split; [|split].
    + now rewrite length_rev.
    + rewrite nth_error_rev, Hl. cbn [Nat.ltb Nat.leb Nat.sub].
      now rewrite nth_error_skipn.
    + rewrite nth_error_rev, Hl. cbn [Nat.ltb Nat.leb Nat.sub].
      now rewrite nth_error_skipn.
  - intros e d st [Hr Hw]. unfold Worker.saveSummary.
    rewrite Hr, Hw, bounded_eq. reflexivity.
  - intros l st H. rewrite insertAll_async. now apply insertAll_capacity.
  - intros l st. symmetry. apply insertAll_async.
Qed.

Lemma bounded_insert_witness :
  List.length
    (Store.savesOf (insertAll saveCb Sample.twentyFive Store.installed)) = 20
  /\ nth_error
       (Store.savesOf (insertAll saveCb Sample.twentyFive Store.installed)) 0
     = Some (Sample.entry 25)
  /\ nth_error
       (Store.savesOf (insertAll saveCb Sample.twentyFive Store.installed)) 19
     = Some (Sample.entry 6).
Proof.
  assert (Hall : Forall storageWorks (List.map fst Sample.twentyFive))
    by (repeat constructor).
  destruct (proj1 bounded_insert Sample.twentyFive Store.installed
              eq_refl Hall eq_refl) as (_ & H1 & H2 & H3).
  split; [exact H1|]. split; [exact H2 | exact H3].
Defined.

(* ------------------------------------------------------------------ *)
(** ** The summarize handler *)

Section Summarize.
Import JS Store.

Lemma startsWith_prefix p s : startsWith p s = true <-> prefix p s.
Proof.
  revert s; induction p as [|x p IH]; intros s; simpl.
  - split; [intros _; now exists s | reflexivity].
  - destruct s as [|y s].
    + split; [discriminate | intros (r & H); discriminate].
    + rewrite andb_true_iff, N.eqb_eq, IH. split.
      * intros [-> (r & ->)]. now exists r.
      * intros (r & H). injection H as -> ->. split; [reflexivity|].
        now exists r.
Qed.

Lemma substring0_prefix n s : prefix (substring0 n s) s.
Proof. exists (skipn n s). unfold substring0. now rewrite firstn_skipn. Qed.

Lemma streq_eq a b : streq a b = true <-> a = b.
Proof.
  revert b; induction a as [|x a IH]; intros [|y b]; simpl;
    try (split; [discriminate | congruence]); [tauto|].
  rewrite andb_true_iff, N.eqb_eq, IH. split.
  - now intros [-> ->].
  - intros [= -> ->]. auto.
Qed.

Lemma providerResult_failed label o :
  providerFailed o ->
  match providerResult label o with
  | inr (VStr _) => False
  | _ => True
  end.
Proof.
  destruct o as [err | [|] status [err | err | em [err | [| |text]]]]; simpl;
    try tauto; try (destruct em as [m|]; tauto).
Qed.

End Summarize.

(** C5, as stated, fails for the promise-based worker: it appends an
    ellipsis to the cut, so for the summary [abc] the preview is [abc...],
    which does not open the summary. *)
Lemma preview_not_prefix :
  exists d,
    Store.data
      (fst (fst (WorkerAsync.handleSummarize (Sample.answering "abc")
                   Sample.capture Sample.configured)))
    = Some (Store.PSummary d)
    /\ Store.summary d = ustr "abc"
    /\ Store.preview d = ustr "abc..."
    /\ ~ prefix (Store.preview d) (Store.summary d).
Proof.
  eexists. split; [reflexivity|]. split; [reflexivity|].
  split; [reflexivity|].
  intros H. apply startsWith_prefix in H. vm_compute in H. discriminate.
Qed.

(** C5, amended.  The summary that the callback-based worker returns after
    a successful provider call has as preview the first 120 code units of
    its text, a prefix of it.  The one that the promise-based worker
    returns has as preview the first 100 code units of its text, a prefix
    of it, followed by three dots. *)
Theorem preview_of_summary :
  forall e m st r st' calls d,
    (Worker.handleSummarize e m st = (r, st', calls) ->
     Store.data r = Some (Store.PSummary d) ->
     Store.preview d = JS.substring0 120 (Store.summary d)
     /\ prefix (Store.preview d) (Store.summary d))
    /\ (WorkerAsync.handleSummarize e m st = (r, st', calls) ->
        Store.data r = Some (Store.PSummary d) ->
        Store.preview d = JS.substring0 100 (Store.summary d) ++ ustr "..."
        /\ prefix (JS.substring0 100 (Store.summary d)) (Store.summary d)).
Proof.
  intros e m st r st' calls d. split.
  - unfold Worker.handleSummarize.
    destruct (Store.settingsReadError e); [intros [= <- _ _]; discriminate|].
    destruct (Store.apiKey (Store.settingsOf st)) as [[|c k]|];
      try (intros [= <- _ _]; discriminate).
    destruct (if JS.streq _ _ then _ else _);
      [|intros [= <- _ _]; discriminate].
    destruct (Store.providerResult _ _) as [err | [| |text]];
      try (intros [= <- _ _]; discriminate).
    destruct (Worker.saveSummary _ _ _) as [[[|c' msg]|] st''];
      intros [= <- _ _]; try discriminate; intros [= <-];
      unfold Worker.makeSave; cbn [Store.preview Store.summary];
      (split; [reflexivity | apply substring0_prefix]).
  - unfold WorkerAsync.handleSummarize.
    destruct (Store.data (WorkerAsync.getSettings e st))
      as [[?|?|[prov [[|c k]|]]]|];
      try (intros [= <- _ _]; discriminate).
    destruct (match prov with Some _ => _ | None => _ end);
      [|intros [= <- _ _]; discriminate].
    destruct (Store.providerResult _ _) as [err | [| |text]];
      try (intros [= <- _ _]; discriminate).
    destruct (WorkerAsync.saveSummary _ _ _) as [[err|] st''];
      intros [= <- _ _]; try discriminate; intros [= <-];
      unfold WorkerAsync.makeSave; cbn [Store.preview Store.summary];
      (split; [reflexivity | apply substring0_prefix]).
Qed.

Lemma preview_of_summary_witness :
  exists d,
    Store.data
      (fst (fst (Worker.handleSummarize
                   (Sample.answering "SYSTEM HANDOFF: continue the todo app")
                   Sample.capture Sample.configured)))
    = Some (Store.PSummary d)
    /\ prefix (Store.preview d) (Store.summary d).
Proof.
  destruct (Worker.handleSummarize
              (Sample.answering "SYSTEM HANDOFF: continue the todo app")
              Sample.capture Sample.configured)
    as [[r st'] calls] eqn:E.
  assert (E' := E). vm_compute in E'. injection E' as Hr _ _.
  eexists. split; [rewrite <- Hr; reflexivity|].
  apply (proj1 (preview_of_summary _ _ _ _ _ _ _) E).
  rewrite <- Hr. reflexivity.
Defined.

(** C7. While no API key is configured and the settings can be read, a
    summarize request is answered with the credential error of the worker,
    the store stays as it is and no provider call is made. *)
Theorem summarize_without_key :
  forall e m st,
    Store.settingsReadError e = None ->
    noApiKey st ->
    Worker.handleSummarize e m st
    = (Store.failure Worker.credentialError, st, [])
    /\ WorkerAsync.handleSummarize e m st
       = (Store.failure WorkerAsync.credentialError, st, []).
Proof.
  intros e m st He Hk. split.
  - unfold Worker.handleSummarize. rewrite He.
    destruct Hk as [-> | ->]; reflexivity.
  - unfold WorkerAsync.handleSummarize, WorkerAsync.getSettings.
    rewrite He. cbn [Store.data Store.okData].
    unfold noApiKey in Hk.
    destruct (Store.settingsOf st) as [prov key]. simpl in Hk.
    destruct Hk as [-> | ->]; reflexivity.
Qed.

Lemma summarize_without_key_witness :
  Worker.handleSummarize (Sample.answering "x") Sample.capture Store.installed
  = (Store.failure Worker.credentialError, Store.installed, []).
Proof.
  apply (proj1 (@summarize_without_key (Sample.answering "x") Sample.capture
                  Store.installed eq_refl (or_intror eq_refl))).
Defined.

(** C9. When the provider call of a summarize request fails, the answer is
    a failure and the store is what it was before the request. *)
Theorem summarize_provider_failure :
  forall e m st,
    providerFailed (Store.fetched e) ->
    (Store.success (fst (fst (Worker.handleSummarize e m st))) = false
     /\ snd (fst (Worker.handleSummarize e m st)) = st)
    /\ (Store.success (fst (fst (WorkerAsync.handleSummarize e m st))) = false
        /\ snd (fst (WorkerAsync.handleSummarize e m st)) = st).
Proof.
  intros e m st Hf. split.
  - unfold Worker.handleSummarize.
    destruct (Store.settingsReadError e); [now split|].
    destruct (Store.apiKey (Store.settingsOf st)) as [[|c k]|];
      try now split.
    destruct (if JS.streq _ _ then _ else _) as [p|]; [|now split].
    pose proof (providerResult_failed (Store.labelOf p) _ Hf) as H.
    destruct (Store.providerResult _ _) as [err | [| |text]];
      now split.
  - unfold WorkerAsync.handleSummarize.
    destruct (Store.data (WorkerAsync.getSettings e st))
      as [[?|?|[prov [[|c k]|]]]|]; try now split.
    destruct (match prov with Some _ => _ | None => _ end) as [p|];
      [|now split].
    pose proof (providerResult_failed (Store.labelOf p) _ Hf) as H.
    destruct (Store.providerResult _ _) as [err | [| |text]];
      now split.
Qed.

Lemma summarize_provider_failure_witness :
  Store.success
    (fst (fst (Worker.handleSummarize Sample.refusing Sample.capture
                 Sample.configured))) = false
  /\ snd (fst (Worker.handleSummarize Sample.refusing Sample.capture
                 Sample.configured)) = Sample.configured.
Proof.
  exact (proj1 (@summarize_provider_failure Sample.refusing Sample.capture
                  Sample.configured I)).
Defined.

(* ------------------------------------------------------------------ *)
(** ** Deleting a save *)

Section Delete.
Import JS Store.

Lemma without_filter id l :
  Worker.without id l = filter (fun save => negb (streq (Store.id save) id)) l.
Proof.
  induction l as [|s l IH]; simpl; [reflexivity|].
  destruct (negb (streq (Store.id s) id)); now rewrite IH.
Qed.

Lemma without_absent id l :
  (forall s, In s l -> Store.id s <> id) -> Worker.without id l = l.
Proof.
  induction l as [|s l IH]; intros H; simpl; [reflexivity|].
  destruct (streq (Store.id s) id) eqn:E.
  - apply streq_eq in E. exfalso. apply (H s); [now left | exact E].
  - simpl. rewrite IH; [reflexivity|]. intros s' Hs'. apply H. now right.
Qed.

Lemma without_twice id l :
  Worker.without id (Worker.without id l) = Worker.without id l.
Proof.
  induction l as [|s l IH]; simpl; [reflexivity|].
  destruct (streq (Store.id s) id) eqn:E; simpl; [exact IH|].
  now rewrite E, IH.
Qed.

Lemma savesOf_setSaves st l : savesOf (setSaves st l) = l.
Proof. reflexivity. Qed.

End Delete.

(** C8. With a working storage, deleting an id that no save carries is
    answered with a success and the list of saves stays as it was; and for
    any id, deleting it a second time is answered with a success and
    leaves the store as the first deletion left it.  Both workers agree. *)
Theorem delete_absent :
  forall e id st,
    storageWorks e ->
    let once := Worker.deleteSave e id st in
    let twice := Worker.deleteSave e id (snd once) in
    let onceA := fst (WorkerAsync.listener e (Store.DeleteSave id) st) in
    let twiceA :=
      fst (WorkerAsync.listener e (Store.DeleteSave id) (snd onceA)) in
    ((forall s, In s (Store.savesOf st) -> Store.id s <> id) ->
     fst once = Store.ok /\ Store.savesOf (snd once) = Store.savesOf st
     /\ fst onceA = Store.ok /\ Store.savesOf (snd onceA) = Store.savesOf st)
    /\ fst once = Store.ok /\ fst twice = Store.ok /\ snd twice = snd once
    /\ fst onceA = Store.ok /\ fst twiceA = Store.ok
    /\ snd twiceA = snd onceA /\ snd onceA = snd once.
Proof.
  intros e id st [Hr Hw].
  unfold WorkerAsync.listener, WorkerAsync.handleMessage,
    WorkerAsync.deleteSave, Worker.deleteSave.
  rewrite Hr, Hw. cbn [fst snd].
  rewrite !savesOf_setSaves, <- !without_filter, !without_twice.
  split; [|repeat split].
  intros Habs. now rewrite (without_absent _ Habs).
Qed.

Lemma delete_absent_witness :
  fst (Worker.deleteSave (Sample.answering "") (ustr "999")
         (Store.setSaves Store.installed [Sample.entry 1; Sample.entry 2]))
  = Store.ok
  /\ Store.savesOf
       (snd (Worker.deleteSave (Sample.answering "") (ustr "999")
               (Store.setSaves Store.installed [Sample.entry 1; Sample.entry 2])))
     = [Sample.entry 1; Sample.entry 2].
Proof.
  assert (Habs : forall s,
             In s (Store.savesOf (Store.setSaves Store.installed
                                    [Sample.entry 1; Sample.entry 2])) ->
             Store.id s <> ustr "999").
  { intros s [<- | [<- | []]]; vm_compute; discriminate. }
  destruct (proj1 (@delete_absent (Sample.answering "") (ustr "999")
                     (Store.setSaves Store.installed
                                     [Sample.entry 1; Sample.entry 2])
                     (conj eq_refl eq_refl)) Habs) as (H1 & H2 & _).
  split; [exact H1 | exact H2].
Defined.

(* ------------------------------------------------------------------ *)
(** ** Two inserts at once *)

Section Interleaving.
Import Store Race.

Variables d1 d2 : Summary.

Lemma shape_step b s : shape d1 d2 s -> shape d1 d2 (step b s).
Proof.
  destruct s as [st p q]. unfold shape, step. cbn [disk first second].
  destruct b, p, q; cbn [advance disk first second savesOf saves setSaves];
    intros H; decompose [and or] H; subst;
    repeat match goal with
           | H : savesOf _ = _ |- _ => rewrite H
           end;
    auto 10.
Qed.

(** The two storage events of one insert, taken together, are
    [saveSummary] with a working storage. *)
Lemma advance_twice e st :
  storageWorks e ->
  snd (advance (fst (advance (Reading d1) st)) (snd (advance (Reading d1) st)))
  = snd (Worker.saveSummary e d1 st).
Proof.
  intros [Hr Hw]. unfold Worker.saveSummary. now rewrite Hr, Hw.
Qed.

Lemma shape_run schedule s : shape d1 d2 s -> shape d1 d2 (run schedule s).
Proof.
  revert s; induction schedule as [|b l IH]; intros s H; [exact H|].
  simpl. apply IH. now apply shape_step.
Qed.

End Interleaving.




(* ------------------------------------------------------------------ *)
(** ** Scraping *)

Section Fixtures.
Import JS Dom Adapter.

Variable A : platform.
Variable d : document.

Local Abbreviation s := (sel A).
Local Abbreviation text := (getMessageText A).

Lemma alternates_skipn n roles : alternates roles -> alternates (skipn n roles).
Proof.
  revert roles; induction n as [|n IH]; intros roles H; [exact H|].
  destruct roles as [|a [|b rest]]; simpl; auto.
  apply (IH (b :: rest)). now destruct H.
Qed.

Lemma inferRole_wellFormed el :
  wellFormed A el -> inferRole s el = roleOf A el.
Proof.
  intros [_ Ha _]. unfold inferRole, roleOf in *.
  destruct (getAttribute el roleAttr) as [[|c r]|]; try reflexivity.
  destruct Ha as [Ha|Ha]; [discriminate | exact Ha].
Qed.

Lemma pushAll_all (r : element -> jsstring) l :
  Forall (fun el => text el <> []) l ->
  pushAll text (List.map (fun el => (el, r el)) l)
  = List.map (fun el => {| role := r el; content := text el |}) l.
Proof.
  induction 1 as [|el l Hel _ IH]; simpl; [reflexivity|].
  destruct (text el) eqn:E; [congruence|]. simpl. now rewrite IH.
Qed.

(** Under a fixture for the unified query, the unified query returns the
    message nodes. *)
Lemma unified_nodes :
  unifiedFixture A d ->
  querySelectorAll d (allMessages s) = messageNodes A d.
Proof.
  intros H. unfold querySelectorAll, messageNodes.
  change (flat_map subtree (roots d)) with (elements d).
  apply filter_ext_in. intros el Hin. unfold isMessage.
  destruct (matches (allMessages s) el) eqn:E; [now rewrite orb_true_r|].
  rewrite orb_false_r.
  destruct (matches (userMessage s) el || matches (assistantMessage s) el)
           eqn:E'; [|reflexivity].
  exfalso. unfold unifiedFixture in H. rewrite Forall_forall in H.
  assert (Hm : In el (messageNodes A d)).
  { apply filter_In. split; [exact Hin|]. unfold isMessage.
    now rewrite E'. }
  destruct (H el Hm) as [_ Hall]. congruence.
Qed.

Lemma unified_transcript :
  unifiedFixture A d -> pushAll text (unified d s) = transcript A d.
Proof.
  intros H. unfold unified, transcript. rewrite (unified_nodes H).
  unfold unifiedFixture in H. rewrite Forall_forall in H.
  rewrite pushAll_all.
  - apply map_ext_in. intros el Hin.
    now rewrite inferRole_wellFormed by apply (H el Hin).
  - apply Forall_forall. intros el Hin. apply (H el Hin).
Qed.

Lemma no_nodes_no_query (q : selector) :
  messageNodes A d = [] ->
  (forall el, matches q el = true -> isMessage A el = true) ->
  querySelectorAll d q = [].
Proof.
  intros Hn Hq. unfold querySelectorAll.
  change (flat_map subtree (roots d)) with (elements d).
  destruct (filter (matches q) (elements d)) as [|el l] eqn:E;
    [reflexivity|].
  assert (Hin : In el (filter (matches q) (elements d)))
    by (rewrite E; now left).
  apply filter_In in Hin. destruct Hin as [Hin Hm].
  assert (Hx : In el (messageNodes A d)).
  { apply filter_In. split; [exact Hin | now apply Hq]. }
  rewrite Hn in Hx. destruct Hx.
Qed.

Lemma user_isMessage el :
  matches (userMessage s) el = true -> isMessage A el = true.
Proof. unfold isMessage. now intros ->. Qed.

Lemma assistant_isMessage el :
  matches (assistantMessage s) el = true -> isMessage A el = true.
Proof. unfold isMessage. intros ->. now rewrite orb_true_r. Qed.

Lemma all_isMessage el :
  matches (allMessages s) el = true -> isMessage A el = true.
Proof. unfold isMessage. intros ->. now rewrite orb_true_r. Qed.

Lemma byPosition_empty : messageNodes A d = [] -> byPosition d s = [].
Proof.
  intros Hn. unfold byPosition.
  rewrite (@no_nodes_no_query _ Hn user_isMessage).
  rewrite (@no_nodes_no_query _ Hn assistant_isMessage). reflexivity.
Qed.

(** The cut of the callback script, for a positive limit. *)
Lemma scrape_unified (maxTurns : nat) :
  unifiedFixture A d -> 1 <= maxTurns ->
  Content.scrapeConversation A d (Some maxTurns)
  = skipn (List.length (transcript A d) - maxTurns * 2) (transcript A d).
Proof.
  intros H Hpos. unfold Content.scrapeConversation.
  destruct maxTurns as [|n]; [lia|].
  rewrite (unified_transcript H).
  assert (Hm : match transcript A d with
               | [] => pushAll text (byPosition d s)
               | _ :: _ => transcript A d
               end = transcript A d).
  { destruct (transcript A d) eqn:E; [|reflexivity].
    rewrite byPosition_empty; [reflexivity|].
    unfold transcript in E. now apply map_eq_nil in E. }
  rewrite Hm.
  destruct (Nat.ltb_spec (S n * 2) (List.length (transcript A d)))
    as [Hlt|Hge]; [reflexivity|].
  replace (List.length (transcript A d) - S n * 2) with 0 by lia.
  reflexivity.
Qed.

End Fixtures.

Section SortByKey.
Import Adapter.

Variable T : Type.
Variable key : T -> Z.

Let cmp (x y : T) : Z := (key x - key y)%Z.

Lemma insertBy_perm x l : Permutation (insertBy cmp x l) (x :: l).
Proof.
  induction l as [|y l IH]; simpl; [reflexivity|].
  destruct (cmp x y <=? 0)%Z; [reflexivity|].
  rewrite IH. apply perm_swap.
Qed.

Lemma sortBy_perm l : Permutation (sortBy cmp l) l.
Proof.
  induction l as [|x l IH]; simpl; [reflexivity|].
  fold (sortBy cmp l). rewrite insertBy_perm. now apply perm_skip.
Qed.

Lemma insertBy_sorted x l :
  StronglySorted (keyLe key) l -> StronglySorted (keyLe key) (insertBy cmp x l).
Proof.
  induction 1 as [|y l Hs IH Hy]; simpl.
  - constructor; constructor.
  - unfold cmp at 1. destruct (Z.leb_spec (key x - key y) 0) as [Hle|Hgt].
    + constructor; [now constructor|].
      constructor; [unfold keyLe; lia|].
      eapply Forall_impl; [|exact Hy]. unfold keyLe. intros; lia.
    + constructor; [exact IH|].
      apply (Permutation_Forall (Permutation_sym (insertBy_perm x l))).
      constructor; [unfold keyLe; lia | exact Hy].
Qed.

Lemma sortBy_sorted l : StronglySorted (keyLe key) (sortBy cmp l).
Proof.
  induction l as [|x l IH]; simpl; [constructor|].
  now apply insertBy_sorted.
Qed.

(** Two arrangements of the same elements, one in order and one in
    strict order, are the same list. *)
Lemma sorted_unique a b :
  StronglySorted (keyLe key) a -> StronglySorted (keyLt key) b ->
  Permutation a b -> a = b.
Proof.
  intros Ha; revert b; induction Ha as [|x a Ha IH Hx];
    intros b Hb Hp.
  - apply Permutation_nil in Hp. now subst.
  - destruct b as [|y b].
    { apply Permutation_sym, Permutation_nil in Hp. discriminate. }
    inversion Hb as [|? ? Hb' Hy]; subst.
    assert (Hxy : x = y).
    { assert (Hxin : In x (y :: b))
        by (apply (Permutation_in _ Hp); now left).
      assert (Hyin : In y (x :: a))
        by (apply (Permutation_in _ (Permutation_sym Hp)); now left).
      destruct Hxin as [->|Hxin]; [reflexivity|].
      destruct Hyin as [->|Hyin]; [reflexivity|].
      rewrite Forall_forall in Hx, Hy.
      specialize (Hx y Hyin). specialize (Hy x Hxin).
      unfold keyLe, keyLt in *. lia. }
    subst y. f_equal. apply IH; [exact Hb'|].
    now apply Permutation_cons_inv in Hp.
Qed.

Lemma sortBy_strict l b :
  Permutation l b -> StronglySorted (keyLt key) b -> sortBy cmp l = b.
Proof.
  intros Hp Hb. apply sorted_unique; [apply sortBy_sorted | exact Hb|].
  now rewrite sortBy_perm.
Qed.

End SortByKey.

Section SeparateQueries.
Import JS Dom Adapter.

Variable A : platform.
Variable d : document.

Local Abbreviation s := (sel A).
Local Abbreviation text := (getMessageText A).
Local Abbreviation isUser := (matches (userMessage (sel A))).
Local Abbreviation isAssistant := (matches (assistantMessage (sel A))).

(** The two role queries together hold the nodes that either selector
    finds, each once, when no node is found by both. *)
Lemma role_queries_perm (l : list element) :
  (forall el, In el l -> isUser el || isAssistant el = true ->
              isUser el = negb (isAssistant el)) ->
  Permutation
    (tagged "user" (filter isUser l)
     ++ tagged "assistant" (filter isAssistant l))
    (List.map (fun el => (el, roleOf A el))
              (filter (fun el => isUser el || isAssistant el) l)).
Proof.
  induction l as [|el l IH]; intros H; [reflexivity|].
  assert (IH' := IH (fun x Hx => H x (or_intror Hx))). clear IH.
  specialize (H el (or_introl eq_refl)).
  assert (Hrole : isUser el = true -> roleOf A el = ustr "user")
    by (unfold roleOf; now intros ->).
  assert (Hrole' : isUser el = false -> roleOf A el = ustr "assistant")
    by (unfold roleOf; now intros ->).
  cbn [filter].
  destruct (isUser el) eqn:Eu, (isAssistant el) eqn:Ea;
    cbn [orb List.map tagged app].
  - specialize (H eq_refl). discriminate.
  - rewrite (Hrole eq_refl). now apply perm_skip.
  - rewrite (Hrole' eq_refl), <- Permutation_middle. now apply perm_skip.
  - exact IH'.
Qed.

Lemma stacked_sorted l :
  stacked d l ->
  StronglySorted (keyLt (fun x : element * jsstring => position d (fst x)))
                 (List.map (fun el => (el, roleOf A el)) l).
Proof.
  induction l as [|el l IH]; simpl; [constructor|].
  intros [Hel Hl]. constructor; [now apply IH|].
  apply Forall_map. eapply Forall_impl; [|exact Hel].
  intros later H. exact H.
Qed.

Hypothesis fixture : separateFixture A d.

Lemma separate_nodes :
  messageNodes A d
  = filter (fun el => isUser el || isAssistant el) (elements d).
Proof.
  destruct fixture as [Hwf _]. rewrite Forall_forall in Hwf.
  unfold messageNodes. apply filter_ext_in. intros el Hin.
  unfold isMessage. 
  destruct (isUser el || isAssistant el) eqn:E; [reflexivity|].
  simpl. destruct (matches (allMessages s) el) eqn:Ea; [|reflexivity].
  assert (Hm : In el (messageNodes A d)).
  { apply filter_In. split; [exact Hin|]. unfold isMessage.
    rewrite Ea. apply orb_true_r. }
  destruct (Hwf el Hm) as [_ Hrole]. 
   congruence.
Qed.

Lemma byPosition_nodes :
  byPosition d s = List.map (fun el => (el, roleOf A el)) (messageNodes A d).
Proof.
  unfold byPosition.
  apply (@sortBy_strict _ (fun x : element * jsstring => position d (fst x))).
  - rewrite separate_nodes. unfold querySelectorAll.
    change (flat_map subtree (roots d)) with (elements d).
    apply role_queries_perm. intros el Hin Hrole.
    destruct fixture as [Hwf _]. rewrite Forall_forall in Hwf.
    assert (Hm : In el (messageNodes A d)).
    { rewrite separate_nodes. apply filter_In. now split. }
    destruct (Hwf el Hm) as [[Hr _ _] _]. exact Hr.
  - apply stacked_sorted. apply fixture.
Qed.

Lemma separate_transcript :
  pushAll text (byPosition d s) = transcript A d.
Proof.
  rewrite byPosition_nodes. unfold transcript. apply pushAll_all.
  destruct fixture as [Hwf _]. eapply Forall_impl; [|exact Hwf].
  intros el [[_ _ Ht] _]. exact Ht.
Qed.

(** The cut of the async script, for a positive limit. *)
Lemma scrape_separate (maxTurns : nat) :
  1 <= maxTurns ->
  ContentAsync.scrapeConversation A d (Some maxTurns)
  = skipn (List.length (transcript A d) - maxTurns * 2) (transcript A d).
Proof.
  intros Hpos. unfold ContentAsync.scrapeConversation.
    assert (Hm : match querySelectorAll d (userMessage s),
                     querySelectorAll d (assistantMessage s) with
               | [], [] => pushAll text (unified d s)
               | _, _ => pushAll text (byPosition d s)
               end = transcript A d).
  { destruct (querySelectorAll d (userMessage s)) eqn:Eu;
      [destruct (querySelectorAll d (assistantMessage s)) eqn:Ea|];
      try apply separate_transcript.
    assert (Hn : messageNodes A d = []).
    { pose proof byPosition_nodes as Hb. unfold byPosition in Hb.
      rewrite Eu, Ea in Hb. simpl in Hb. symmetry in Hb.
      now apply map_eq_nil in Hb. }
    unfold unified, transcript.
    rewrite (@no_nodes_no_query A d (allMessages s) Hn (all_isMessage A)).
    now rewrite Hn. }
  rewrite Hm. unfold ContentAsync.sliceLast.
  destruct (maxTurns * 2) eqn:E; [lia | reflexivity].
Qed.

End SeparateQueries.

(** The message nodes of a closed page are computed, then each is checked
    against the fixture's conditions. *)
Ltac nodes_computed :=
  repeat match goal with
         | |- context [messageNodes ?A ?d] =>
             let l := eval vm_compute in (messageNodes A d) in
             change (messageNodes A d) with l
         end.

Ltac nodes_checked :=
  nodes_computed;
  repeat (apply Forall_cons;
          [repeat split; try reflexivity;
           try (vm_compute; auto; discriminate)|]);
  try apply Forall_nil.


(* ================================================================== *)
(** * Further properties of the background service *)

Section Service.
Import JS Store.

Lemma saveCb_works e d st :
  storageWorks e ->
  saveCb e d st = setSaves st (d :: firstn 19 (savesOf st)).
Proof.
  intros [Hr Hw]. unfold saveCb, Worker.saveSummary.
  now rewrite Hr, Hw, bounded_eq.
Qed.

Lemma filter_keeps (id : jsstring) (l : list Summary) s :
  In s (filter (fun save => negb (streq (Store.id save) id)) l)
  <-> In s l /\ Store.id s <> id.
Proof.
  rewrite filter_In. split; intros [Hin H]; split; auto.
  - intros Heq. apply streq_eq in Heq. now rewrite Heq in H.
  - destruct (streq (Store.id s) id) eqn:E; [|reflexivity].
    apply streq_eq in E. contradiction.
Qed.

End Service.

(** X1. The summary that a successful insert has stored is the one that
    [getLastSave] returns next, [hasSavedState] reports a save and
    [getAllSaves] lists the new summary in front of the first nineteen
    older ones; in both workers. *)
Theorem saved_is_last :
  forall e e' d st,
    storageWorks e ->
    Store.savesReadError e' = None ->
    (Worker.getLastSave e' (saveCb e d st) = Store.okData (Store.PSummary d)
     /\ Worker.hasSavedState e' (saveCb e d st) = Store.okHasSaved true
     /\ Worker.getAllSaves e' (saveCb e d st)
        = Store.okData (Store.PSaves (d :: firstn 19 (Store.savesOf st))))
    /\ (WorkerAsync.getLastSave e' (saveAsync e d st)
        = Store.okData (Store.PSummary d)
        /\ WorkerAsync.hasSavedState e' (saveAsync e d st)
           = Store.okHasSaved true
        /\ WorkerAsync.getAllSaves e' (saveAsync e d st)
           = Store.okData (Store.PSaves (d :: firstn 19 (Store.savesOf st)))).
Proof.
  intros e e' d st Hw Hr. rewrite <- saveCb_async, (saveCb_works d st Hw).
  unfold Worker.getLastSave, Worker.hasSavedState, Worker.getAllSaves,
    WorkerAsync.getLastSave, WorkerAsync.hasSavedState,
    WorkerAsync.getAllSaves.
  rewrite Hr, savesOf_setSaves. repeat split.
Qed.

Lemma saved_is_last_witness :
  Worker.getLastSave (Sample.answering "")
    (saveCb (Sample.answering "") (Sample.entry 3)
            (Store.setSaves Store.installed [Sample.entry 1; Sample.entry 2]))
  = Store.okData (Store.PSummary (Sample.entry 3)).
Proof.
  exact (proj1 (proj1 (@saved_is_last (Sample.answering "") (Sample.answering "")
                         (Sample.entry 3)
                         (Store.setSaves Store.installed
                                         [Sample.entry 1; Sample.entry 2])
                         (conj eq_refl eq_refl) eq_refl))).
Defined.

(** X2. The three readers of the saves agree: when the saves can be
    read, [getLastSave] succeeds exactly when [hasSavedState] reports a
    save, which is exactly when the list of [getAllSaves] is not empty, and
    the summary of [getLastSave] is the first of that list; when the saves
    cannot be read, all three answer with the error of the storage. *)
Theorem readers_agree :
  forall e st,
    (Store.savesReadError e = None ->
     Worker.getAllSaves e st = Store.okData (Store.PSaves (Store.savesOf st))
     /\ (Store.success (Worker.getLastSave e st) = true
         <-> Store.hasSaved (Worker.hasSavedState e st) = Some true)
     /\ (Store.hasSaved (Worker.hasSavedState e st) = Some true
         <-> Store.savesOf st <> [])
     /\ (forall d, Store.data (Worker.getLastSave e st)
                   = Some (Store.PSummary d)
                   <-> hd_error (Store.savesOf st) = Some d))
    /\ (forall m, Store.savesReadError e = Some m ->
                  Worker.getLastSave e st = Store.failure m
                  /\ Worker.hasSavedState e st = Store.failure m
                  /\ Worker.getAllSaves e st = Store.failure m).
Proof.
  intros e st. unfold Worker.getLastSave, Worker.hasSavedState,
                 Worker.getAllSaves. split.
  - intros ->. destruct (Store.savesOf st) as [|d l]; simpl.
    + repeat split; try discriminate; try congruence.
    + repeat split; try discriminate; try congruence.
  - intros m ->. repeat split.
Qed.

Lemma readers_agree_witness :
  Store.success (Worker.getLastSave (Sample.answering "") Store.installed)
  = false.
Proof.
  destruct (Store.success (Worker.getLastSave (Sample.answering "")
                             Store.installed)) eqn:E; [|reflexivity].
  apply (proj1 (proj1 (proj2 (proj1 (readers_agree (Sample.answering "")
                                       Store.installed) eq_refl)))) in E.
  discriminate E.
Defined.

(** X3. Settings are replaced as a whole and kept apart from the saves:
    what [saveSettings] has written is what [getSettings] returns, the
    later of two writes wins, and the saves stay as they were; no insert,
    deletion or summarize request changes the settings. *)
Theorem settings_round_trip :
  (forall e e' s st,
      Store.writeError e = None ->
      Store.settingsReadError e' = None ->
      Worker.saveSettings e s st = (Store.ok, Store.setSettings st s)
      /\ Worker.getSettings e' (snd (Worker.saveSettings e s st))
         = Store.okData (Store.PSettings s)
      /\ Store.saves (snd (Worker.saveSettings e s st)) = Store.saves st
      /\ forall s0, snd (Worker.saveSettings e s
                           (snd (Worker.saveSettings e s0 st)))
                    = snd (Worker.saveSettings e s st))
  /\ (forall e d id m st,
         Store.settings (snd (Worker.saveSummary e d st)) = Store.settings st
         /\ Store.settings (snd (Worker.deleteSave e id st))
            = Store.settings st
         /\ Store.settings (snd (fst (Worker.handleSummarize e m st)))
            = Store.settings st
         /\ Store.settings (snd (fst (WorkerAsync.handleSummarize e m st)))
            = Store.settings st).
Proof.
  split.
  - intros e e' s st Hw Hr. unfold Worker.saveSettings, Worker.getSettings.
    rewrite Hw, Hr. repeat split.
  - intros e d id m st.
    assert (Hs : Store.settings (snd (Worker.saveSummary e d st))
                 = Store.settings st).
    { unfold Worker.saveSummary.
      destruct (Store.savesReadError e), (Store.writeError e); reflexivity. }
    assert (Ha : forall d', Store.settings (snd (WorkerAsync.saveSummary e d' st))
                            = Store.settings st).
    { intros d'. unfold WorkerAsync.saveSummary.
      destruct (Store.savesReadError e), (Store.writeError e); reflexivity. }
    split; [exact Hs|]. split; [|split].
    + unfold Worker.deleteSave.
      destruct (Store.savesReadError e), (Store.writeError e); reflexivity.
    + unfold Worker.handleSummarize.
      destruct (Store.settingsReadError e); [reflexivity|].
      destruct (Store.apiKey (Store.settingsOf st)) as [[|c k]|];
        try reflexivity.
      destruct (if JS.streq _ _ then _ else _); [|reflexivity].
      destruct (Store.providerResult _ _) as [err | [| |text]];
        try reflexivity.
      assert (H : forall d',
                 Store.settings (snd (Worker.saveSummary e d' st))
                 = Store.settings st).
      { intros d'. unfold Worker.saveSummary.
        destruct (Store.savesReadError e), (Store.writeError e); reflexivity. }
      specialize (H (Worker.makeSave e m text)).
      destruct (Worker.saveSummary e (Worker.makeSave e m text) st)
        as [[[|c' msg]|] st'']; exact H.
    + unfold WorkerAsync.handleSummarize.
      destruct (Store.data (WorkerAsync.getSettings e st))
        as [[?|?|[prov [[|c k]|]]]|]; try reflexivity.
      destruct (match prov with Some _ => _ | None => _ end); [|reflexivity].
      destruct (Store.providerResult _ _) as [err | [| |text]];
        try reflexivity.
      specialize (Ha (WorkerAsync.makeSave e m text)).
      destruct (WorkerAsync.saveSummary e (WorkerAsync.makeSave e m text) st)
        as [[err|] st'']; exact Ha.
Qed.

Lemma settings_round_trip_witness :
  Worker.getSettings (Sample.answering "")
    (snd (Worker.saveSettings (Sample.answering "")
            {| Store.apiProvider := Some (ustr "gemini");
               Store.apiKey := Some (ustr "k1") |} Store.installed))
  = Store.okData (Store.PSettings
                    {| Store.apiProvider := Some (ustr "gemini");
                       Store.apiKey := Some (ustr "k1") |}).
Proof.
  exact (proj1 (proj2 (proj1 settings_round_trip (Sample.answering "")
                         (Sample.answering "")
                         {| Store.apiProvider := Some (ustr "gemini");
                            Store.apiKey := Some (ustr "k1") |}
                         Store.installed eq_refl eq_refl))).
Defined.

(** X4. With a working storage, [deleteSave] keeps exactly the saves
    whose id differs from the given one, in their order: every save with
    that id is gone, however many there are, and no other save is touched.
    The popup that writes the storage itself does the same once the user
    confirms, and changes nothing when the user cancels. *)
Theorem delete_removes :
  forall e id st,
    storageWorks e ->
    let after := Store.savesOf (snd (Worker.deleteSave e id st)) in
    after = filter (fun save => negb (JS.streq (Store.id save) id))
                   (Store.savesOf st)
    /\ (forall s, In s after <-> In s (Store.savesOf st) /\ Store.id s <> id)
    /\ List.length after <= List.length (Store.savesOf st)
    /\ Popup.deleteSave true e id st = snd (Worker.deleteSave e id st)
    /\ Popup.deleteSave false e id st = st.
Proof.
  intros e id st [Hr Hw] after.
  assert (Ha : after = filter (fun save => negb (JS.streq (Store.id save) id))
                              (Store.savesOf st)).
  { unfold after, Worker.deleteSave. rewrite Hr, Hw. cbn [snd].
    now rewrite savesOf_setSaves, without_filter. }
  split; [exact Ha|]. rewrite Ha. split; [|split; [|split]].
  - intros s. apply filter_keeps.
  - apply filter_length_le.
  - unfold Popup.deleteSave, Worker.deleteSave. now rewrite Hr, Hw.
  - reflexivity.
Qed.

Lemma delete_removes_witness :
  Store.savesOf
    (snd (Worker.deleteSave (Sample.answering "") (ustr "1")
            (Store.setSaves Store.installed
               [Sample.entry 1; Sample.entry 2; Sample.entry 1])))
  = [Sample.entry 2].
Proof.
  exact (proj1 (@delete_removes (Sample.answering "") (ustr "1")
                  (Store.setSaves Store.installed
                     [Sample.entry 1; Sample.entry 2; Sample.entry 1])
                  (conj eq_refl eq_refl))).
Defined.

(** X5. On each of the six known requests other than [summarize], and
    whatever the storage reports, the callback-based worker and the
    promise-based worker behind its message listener give the same
    response, leave the same store and call no provider. *)
Theorem workers_agree :
  forall e r st,
    storeAction r = true ->
    Worker.handleMessage e r st = WorkerAsync.listener e r st
    /\ snd (Worker.handleMessage e r st) = [].
Proof.
  intros e r st Hr.
  destruct r as [m| | | |id| |s|a]; try discriminate Hr;
    unfold Worker.handleMessage, WorkerAsync.listener,
      WorkerAsync.handleMessage; try (split; reflexivity).
  - unfold Worker.deleteSave, WorkerAsync.deleteSave.
    rewrite <- without_filter.
    destruct (Store.savesReadError e), (Store.writeError e);
      split; reflexivity.
  - unfold Worker.saveSettings, WorkerAsync.saveSettings.
    destruct (Store.writeError e); split; reflexivity.
Qed.

Lemma workers_agree_witness :
  Worker.handleMessage Sample.refusing (Store.DeleteSave (ustr "1"))
                       Store.installed
  = WorkerAsync.listener Sample.refusing (Store.DeleteSave (ustr "1"))
                         Store.installed.
Proof.
  exact (proj1 (@workers_agree Sample.refusing (Store.DeleteSave (ustr "1"))
                  Store.installed eq_refl)).
Defined.

(** X6. What a request can do, in both workers and whatever the storage
    and the provider do: it makes at most one provider call, and none
    unless it is a summarize request; a request that only reads, an
    unknown one included, leaves the store as it is; an unknown action is
    answered with a failure. *)
Theorem request_effects :
  forall e r st,
    (List.length (snd (Worker.handleMessage e r st)) <= 1
     /\ List.length (snd (WorkerAsync.listener e r st)) <= 1)
    /\ ((forall m, r <> Store.Summarize m) ->
        snd (Worker.handleMessage e r st) = []
        /\ snd (WorkerAsync.listener e r st) = [])
    /\ (readOnly r = true ->
        snd (fst (Worker.handleMessage e r st)) = st
        /\ snd (fst (WorkerAsync.listener e r st)) = st)
    /\ (forall a, r = Store.Other a ->
                  Store.success (fst (fst (Worker.handleMessage e r st))) = false
                  /\ Store.success (fst (fst (WorkerAsync.listener e r st)))
                     = false).
Proof.
  intros e r st.
  assert (Hc : forall m, List.length (snd (Worker.handleSummarize e m st)) <= 1).
  { intros m. unfold Worker.handleSummarize.
    destruct (Store.settingsReadError e); [simpl; lia|].
    destruct (Store.apiKey (Store.settingsOf st)) as [[|c k]|];
      try (simpl; lia).
    destruct (if JS.streq _ _ then _ else _); [|simpl; lia].
    destruct (Store.providerResult _ _) as [err | [| |text]];
      try (simpl; lia).
    destruct (Worker.saveSummary _ _ _) as [[[|c' msg]|] st'']; simpl; lia. }
  assert (Ha : forall m,
             List.length (snd (WorkerAsync.handleSummarize e m st)) <= 1).
  { intros m. unfold WorkerAsync.handleSummarize.
    destruct (Store.data (WorkerAsync.getSettings e st))
      as [[?|?|[prov [[|c k]|]]]|]; try (simpl; lia).
    destruct (match prov with Some _ => _ | None => _ end); [|simpl; lia].
    destruct (Store.providerResult _ _) as [err | [| |text]];
      try (simpl; lia).
    destruct (WorkerAsync.saveSummary _ _ _) as [[err|] st'']; simpl; lia. }
  assert (Hl : forall m,
             snd (WorkerAsync.listener e (Store.Summarize m) st)
             = snd (WorkerAsync.handleSummarize e m st)).
  { intros m. unfold WorkerAsync.listener, WorkerAsync.handleMessage.
    now destruct (WorkerAsync.handleSummarize e m st) as [[r' st'] calls]. }
  split; [|split; [|split]].
  - destruct r as [m| | | |id| |s|a];
      try (split; [apply Hc | rewrite Hl; apply Ha]);
      try (unfold Worker.handleMessage, WorkerAsync.listener,
            WorkerAsync.handleMessage; simpl; split; lia).
    + unfold Worker.handleMessage, WorkerAsync.listener,
        WorkerAsync.handleMessage.
      destruct (Worker.deleteSave e id st), (WorkerAsync.deleteSave e id st).
      simpl; split; lia.
    + unfold Worker.handleMessage, WorkerAsync.listener,
        WorkerAsync.handleMessage.
      destruct (Worker.saveSettings e s st), (WorkerAsync.saveSettings e s st).
      simpl; split; lia.
  - intros Hn. destruct r as [m| | | |id| |s|a];
      try (exfalso; now apply (Hn m));
      unfold Worker.handleMessage, WorkerAsync.listener,
        WorkerAsync.handleMessage; try (split; reflexivity).
    + destruct (Worker.deleteSave e id st), (WorkerAsync.deleteSave e id st).
      split; reflexivity.
    + destruct (Worker.saveSettings e s st), (WorkerAsync.saveSettings e s st).
      split; reflexivity.
  - intros Hro. destruct r; try discriminate Hro; split; reflexivity.
  - intros a ->. split; reflexivity.
Qed.

Lemma request_effects_witness :
  snd (fst (Worker.handleMessage Sample.refusing (Store.Other (ustr "ping"))
              Sample.configured)) = Sample.configured.
Proof.
  exact (proj1 (proj1 (proj2 (proj2 (request_effects Sample.refusing
                                       (Store.Other (ustr "ping"))
                                       Sample.configured))) eq_refl)).
Defined.

Section SummarizeRuns.
Import JS Store.

Variables (e : env) (m : summarizeRequest) (st : store).
Variables (c : codeunit) (k : jsstring).
Hypothesis settings_read : settingsReadError e = None.
Hypothesis key_set : apiKey (settingsOf st) = Some (c :: k).

(** The callback-based handler up to the provider's answer. *)
Lemma callback_run p :
  selectedCb st = Some p ->
  Worker.handleSummarize e m st
  = match providerResult (labelOf p) (fetched e) with
    | inl err => (failure (describe err), st, theCall p (c :: k) m)
    | inr (VStr text) =>
        let saveData := Worker.makeSave e m text in
        match Worker.saveSummary e saveData st with
        | (Some (c' :: msg), st') =>
            (failure (ustr "Saved summary but storage failed: " ++ c' :: msg),
             st', theCall p (c :: k) m)
        | (_, st') => (okData (PSummary saveData), st', theCall p (c :: k) m)
        end
    | inr _ => (failure (describe (typeError e)), st, theCall p (c :: k) m)
    end.
Proof.
  intros Hp. unfold Worker.handleSummarize, selectedCb in *.
  rewrite settings_read, key_set. cbv zeta in Hp |- *. now rewrite Hp.
Qed.

Lemma callback_refusal :
  selectedCb st = None ->
  Worker.handleSummarize e m st
  = (failure (ustr "Invalid API provider: "
              ++ orElse (apiProvider (settingsOf st)) "openai"), st, []).
Proof.
  intros Hp. unfold Worker.handleSummarize, selectedCb in *.
  rewrite settings_read, key_set. cbv zeta in Hp |- *. now rewrite Hp.
Qed.

(** The promise-based handler up to the provider's answer. *)
Lemma async_run p :
  selectedAsync st = Some p ->
  WorkerAsync.handleSummarize e m st
  = match providerResult (labelOf p) (fetched e) with
    | inl err => (failure (errMessage err), st, theCall p (c :: k) m)
    | inr (VStr text) =>
        let saveData := WorkerAsync.makeSave e m text in
        match WorkerAsync.saveSummary e saveData st with
        | (Some err, st') => (failure (errMessage err), st', theCall p (c :: k) m)
        | (None, st') => (okData (PSummary saveData), st', theCall p (c :: k) m)
        end
    | inr _ => (failure (errMessage (typeError e)), st, theCall p (c :: k) m)
    end.
Proof.
  intros Hp.
  unfold WorkerAsync.handleSummarize, WorkerAsync.getSettings, selectedAsync in *.
  rewrite settings_read. cbn [data okData].
  destruct (settingsOf st) as [prov key]. cbn [apiKey apiProvider] in *.
  subst key. now rewrite Hp.
Qed.

Lemma async_refusal :
  selectedAsync st = None ->
  WorkerAsync.handleSummarize e m st = (failure "Invalid API provider", st, []).
Proof.
  intros Hp.
  unfold WorkerAsync.handleSummarize, WorkerAsync.getSettings, selectedAsync in *.
  rewrite settings_read. cbn [data okData].
  destruct (settingsOf st) as [prov key]. cbn [apiKey apiProvider] in *.
  subst key. now rewrite Hp.
Qed.

End SummarizeRuns.

(** X7. A summarize request with a key configured, a known provider, a
    provider that answers with a text and a working storage: the worker
    calls that provider once, with the key and the conversation, answers
    with a success that carries the new summary, and has stored it in front
    of the first nineteen older saves, so that [getLastSave] returns it. *)
Theorem summarize_success :
  forall e m st c k text p,
    allStorageWorks e ->
    Store.apiKey (Store.settingsOf st) = Some (c :: k) ->
    answersWith text (Store.fetched e) ->
    (selectedCb st = Some p ->
     let d := Worker.makeSave e m text in
     Worker.handleSummarize e m st
     = (Store.okData (Store.PSummary d),
        Store.setSaves st (d :: firstn 19 (Store.savesOf st)),
        theCall p (c :: k) m)
     /\ Worker.getLastSave e (snd (fst (Worker.handleSummarize e m st)))
        = Store.okData (Store.PSummary d))
    /\ (selectedAsync st = Some p ->
        let d := WorkerAsync.makeSave e m text in
        WorkerAsync.handleSummarize e m st
        = (Store.okData (Store.PSummary d),
           Store.setSaves st (d :: firstn 19 (Store.savesOf st)),
           theCall p (c :: k) m)
        /\ WorkerAsync.getLastSave e
             (snd (fst (WorkerAsync.handleSummarize e m st)))
           = Store.okData (Store.PSummary d)).
Proof.
  intros e m st c k text p [Hs [Hr Hw]] Hk (status & em & Hf). split.
  - intros Hp d.
    assert (H : Worker.handleSummarize e m st
                = (Store.okData (Store.PSummary d),
                   Store.setSaves st (d :: firstn 19 (Store.savesOf st)),
                   theCall p (c :: k) m)).
    { rewrite (@callback_run e m st c k Hs Hk p Hp), Hf. cbn [Store.providerResult].
      cbv zeta. unfold Worker.saveSummary.
      now rewrite Hr, Hw, bounded_eq. }
    split; [exact H|]. rewrite H. unfold Worker.getLastSave.
    now rewrite Hr.
  - intros Hp d.
    assert (H : WorkerAsync.handleSummarize e m st
                = (Store.okData (Store.PSummary d),
                   Store.setSaves st (d :: firstn 19 (Store.savesOf st)),
                   theCall p (c :: k) m)).
    { rewrite (@async_run e m st c k Hs Hk p Hp), Hf. cbn [Store.providerResult].
      cbv zeta. unfold WorkerAsync.saveSummary.
      now rewrite Hr, Hw. }
    split; [exact H|]. rewrite H. unfold WorkerAsync.getLastSave.
    now rewrite Hr.
Qed.

Lemma summarize_success_witness :
  Worker.getLastSave (Sample.answering "SYSTEM HANDOFF: x")
    (snd (fst (Worker.handleSummarize (Sample.answering "SYSTEM HANDOFF: x")
                 Sample.capture Sample.configured)))
  = Store.okData
      (Store.PSummary (Worker.makeSave (Sample.answering "SYSTEM HANDOFF: x")
                                       Sample.capture
                                       (ustr "SYSTEM HANDOFF: x"))).
Proof.
  refine (proj2 (proj1 (@summarize_success
                          (Sample.answering "SYSTEM HANDOFF: x")
                          Sample.capture Sample.configured
                          115%N (ustr "k-test") (ustr "SYSTEM HANDOFF: x")
                          Store.OpenAI
                          (conj eq_refl (conj eq_refl eq_refl)) eq_refl _)
                       eq_refl)).
  exists 200%N, None. reflexivity.
Defined.

(** X8. When the provider has answered with a text but the storage then
    fails, on reading the saves or on writing them, with a non-empty error
    message: the store stays as it was and the answer is a failure, which
    in the callback-based worker reads [Saved summary but storage failed: ]
    followed by the error and in the promise-based worker is the error
    alone; the provider has been called once all the same. *)
Theorem summarize_storage_failure :
  forall e m st c k text p c' msg,
    Store.settingsReadError e = None ->
    Store.apiKey (Store.settingsOf st) = Some (c :: k) ->
    answersWith text (Store.fetched e) ->
    (Store.savesReadError e = Some (c' :: msg)
     \/ (Store.savesReadError e = None
         /\ Store.writeError e = Some (c' :: msg))) ->
    (selectedCb st = Some p ->
     Worker.handleSummarize e m st
     = (Store.failure (ustr "Saved summary but storage failed: " ++ c' :: msg),
        st, theCall p (c :: k) m))
    /\ (selectedAsync st = Some p ->
        WorkerAsync.handleSummarize e m st
        = (Store.failure (c' :: msg), st, theCall p (c :: k) m)).
Proof.
  intros e m st c k text p c' msg Hs Hk (status & em & Hf) Hfail. split.
  - intros Hp. rewrite (@callback_run e m st c k Hs Hk p Hp), Hf.
    cbn [Store.providerResult]. cbv zeta. unfold Worker.saveSummary.
    destruct Hfail as [-> | [-> ->]]; reflexivity.
  - intros Hp. rewrite (@async_run e m st c k Hs Hk p Hp), Hf.
    cbn [Store.providerResult]. cbv zeta. unfold WorkerAsync.saveSummary.
    destruct Hfail as [-> | [-> ->]]; reflexivity.
Qed.

(** X9. With a key configured, a provider name other than [openai] and
    [gemini] ends the request before any provider call and any change of
    the store, with the answer [Invalid API provider].  The two workers
    differ on settings without a provider: the callback-based one calls
    OpenAI, the promise-based one refuses. *)
Theorem summarize_provider_choice :
  forall e m st c k,
    Store.settingsReadError e = None ->
    Store.apiKey (Store.settingsOf st) = Some (c :: k) ->
    (selectedCb st = None ->
     Worker.handleSummarize e m st
     = (Store.failure (ustr "Invalid API provider: "
                       ++ Store.orElse (Store.apiProvider (Store.settingsOf st))
                                       "openai"), st, []))
    /\ (selectedAsync st = None ->
        WorkerAsync.handleSummarize e m st
        = (Store.failure "Invalid API provider", st, []))
    /\ (Store.apiProvider (Store.settingsOf st) = None ->
        snd (Worker.handleSummarize e m st) = theCall Store.OpenAI (c :: k) m
        /\ WorkerAsync.handleSummarize e m st
           = (Store.failure "Invalid API provider", st, [])).
Proof.
  intros e m st c k Hs Hk. split; [|split].
  - intros Hp. exact (@callback_refusal e m st c k Hs Hk Hp).
  - intros Hp. exact (@async_refusal e m st c k Hs Hk Hp).
  - intros Hn. split.
    + assert (Hp : selectedCb st = Some Store.OpenAI)
        by (unfold selectedCb; now rewrite Hn).
      rewrite (@callback_run e m st c k Hs Hk Store.OpenAI Hp).
      destruct (Store.providerResult _ _) as [err | [| |text]];
        try reflexivity.
      cbv zeta.
      destruct (Worker.saveSummary _ _ _) as [[[|c' msg]|] st'']; reflexivity.
    + apply (@async_refusal e m st c k Hs Hk). unfold selectedAsync. now rewrite Hn.
Qed.

(** X10. When the provider answers with a status that is not a success,
    the store is unchanged and the failure that the worker returns carries
    the error message of the response body when it has one; the name of
    the provider, [ API error: ] and the status when the body has none or
    cannot be parsed; and, when the body is [null], the text of the
    TypeError that reading its [error] throws.  For a message whose text
    is empty (an empty array, say) the callback-based worker shows
    [Error] and the promise-based one the empty text. *)
Theorem summarize_status_error :
  forall e m st c k p status b,
    Store.settingsReadError e = None ->
    Store.apiKey (Store.settingsOf st) = Some (c :: k) ->
    Store.fetched e = Store.Responded false status b ->
    let generic :=
      Store.labelOf p ++ ustr " API error: " ++ JS.ofNumber status in
    match b with
    | Store.Parsed (Some (c' :: text)) _ =>
        failWith e m st p (c :: k) (c' :: text) (c' :: text)
    | Store.Parsed (Some []) _ => failWith e m st p (c :: k) "Error" ""
    | Store.Parsed None _ | Store.Unparsable _ =>
        failWith e m st p (c :: k) generic generic
    | Store.Null thrown =>
        failWith e m st p (c :: k) (Store.describe thrown)
                 (Store.errMessage thrown)
    end.
Proof.
  intros e m st c k p status b Hs Hk Hf generic.
  assert (Hrun : forall err,
             Store.providerResult (Store.labelOf p) (Store.fetched e) = inl err ->
             failWith e m st p (c :: k) (Store.describe err)
                      (Store.errMessage err)).
  { intros err Hres. split; intros Hp.
    - now rewrite (@callback_run e m st c k Hs Hk p Hp), Hres.
    - now rewrite (@async_run e m st c k Hs Hk p Hp), Hres. }
  assert (Hgen : Store.describe (Store.Error generic) = generic).
  { unfold generic. destruct p; reflexivity. }
  rewrite Hf in Hrun. cbn [Store.providerResult] in Hrun. fold generic in Hrun.
  destruct b as [err | thrown | [[|c' text]|] ext].
  - rewrite <- Hgen at 1. now apply Hrun.
  - now apply Hrun.
  - exact (Hrun (Store.Error []) eq_refl).
  - exact (Hrun (Store.Error (c' :: text)) eq_refl).
  - rewrite <- Hgen at 1. now apply Hrun.
Qed.

Lemma summarize_storage_failure_witness :
  Worker.handleSummarize (Cases.fullDisk "SYSTEM HANDOFF: x") Sample.capture
                         Sample.configured
  = (Store.failure (ustr "Saved summary but storage failed: "
                    ++ ustr "QUOTA_BYTES quota exceeded"),
     Sample.configured,
     theCall Store.OpenAI (ustr "sk-test") Sample.capture).
Proof.
  refine (proj1 (@summarize_storage_failure
                   (Cases.fullDisk "SYSTEM HANDOFF: x") Sample.capture
                   Sample.configured 115%N (ustr "k-test")
                   (ustr "SYSTEM HANDOFF: x") Store.OpenAI
                   81%N (ustr "UOTA_BYTES quota exceeded")
                   eq_refl eq_refl _ (or_intror (conj eq_refl eq_refl)))
                eq_refl).
  exists 200%N, None. reflexivity.
Defined.

Lemma summarize_provider_choice_witness :
  Worker.handleSummarize (Sample.answering "x") Sample.capture
                         Cases.otherProvider
  = (Store.failure (ustr "Invalid API provider: " ++ ustr "claude"),
     Cases.otherProvider, []).
Proof.
  exact (proj1 (@summarize_provider_choice (Sample.answering "x")
                  Sample.capture Cases.otherProvider 115%N (ustr "k-test")
                  eq_refl eq_refl) eq_refl).
Defined.

Lemma summarize_status_error_witness :
  Worker.handleSummarize Cases.limited Sample.capture Sample.configured
  = (Store.failure (ustr "Rate limit reached"), Sample.configured,
     theCall Store.OpenAI (ustr "sk-test") Sample.capture)
  /\ WorkerAsync.handleSummarize Cases.emptied Sample.capture Sample.configured
     = (Store.failure (ustr "Cannot read properties of null"),
        Sample.configured,
        theCall Store.OpenAI (ustr "sk-test") Sample.capture).
Proof.
  split.
  - exact (proj1 (@summarize_status_error Cases.limited Sample.capture
                    Sample.configured 115%N (ustr "k-test") Store.OpenAI
                    429%N _ eq_refl eq_refl eq_refl) eq_refl).
  - exact (proj2 (@summarize_status_error Cases.emptied Sample.capture
                    Sample.configured 115%N (ustr "k-test") Store.OpenAI
                    500%N _ eq_refl eq_refl eq_refl) eq_refl).
Defined.

(* ================================================================== *)
(** * Further properties of the content scripts *)

Section AnyPage.
Import JS Dom Adapter.

Variable A : platform.
Variable d : document.

Local Abbreviation s := (sel A).
Local Abbreviation text := (getMessageText A).

Lemma In_skipn_in (T : Type) n (l : list T) x : In x (skipn n l) -> In x l.
Proof.
  intros H. rewrite <- (firstn_skipn n l). apply in_or_app. now right.
Qed.

Lemma pushAll_from nodes msg :
  In msg (pushAll text nodes) ->
  content msg <> []
  /\ exists el r, In (el, r) nodes /\ content msg = text el.
Proof.
  induction nodes as [|[el r] nodes IH]; simpl; [tauto|].
  destruct (text el) as [|c t] eqn:E; simpl.
  - intros H. destruct (IH H) as (Hne & el' & r' & Hin & Heq).
    split; [exact Hne|]. exists el', r'. auto.
  - intros [<- | H].
    + simpl. split; [discriminate|]. exists el, r. auto.
    + destruct (IH H) as (Hne & el' & r' & Hin & Heq).
      split; [exact Hne|]. exists el', r'. auto.
Qed.

Lemma query_in_nodes (q : selector) el :
  (forall x, matches q x = true -> isMessage A x = true) ->
  In el (querySelectorAll d q) -> In el (messageNodes A d).
Proof.
  intros Hq Hin. unfold querySelectorAll in Hin.
  apply filter_In in Hin. destruct Hin as [Hin Hm].
  apply filter_In. split; [exact Hin | now apply Hq].
Qed.

Lemma unified_from el r :
  In (el, r) (unified d s) -> In el (messageNodes A d).
Proof.
  unfold unified. rewrite in_map_iff. intros (x & [= <- _] & Hin).
  eapply query_in_nodes; [|exact Hin]. intros y Hy. now apply all_isMessage.
Qed.

Lemma byPosition_from el r :
  In (el, r) (byPosition d s) -> In el (messageNodes A d).
Proof.
  unfold byPosition. intros Hin.
  apply (Permutation_in _ (sortBy_perm _ _)) in Hin.
  apply in_app_or in Hin. unfold tagged in Hin.
  destruct Hin as [Hin|Hin]; apply in_map_iff in Hin;
    destruct Hin as (x & [= <- _] & Hin).
  - eapply query_in_nodes; [|exact Hin]. intros y Hy.
    now apply user_isMessage.
  - eapply query_in_nodes; [|exact Hin]. intros y Hy.
    now apply assistant_isMessage.
Qed.

Lemma pushed_unified msg :
  In msg (pushAll text (unified d s)) -> scrapedFrom A d msg.
Proof.
  intros H. destruct (pushAll_from _ _ H) as (Hne & el & r & Hin & Heq).
  split; [exact Hne|]. exists el. split; [|exact Heq].
  eapply unified_from; exact Hin.
Qed.

Lemma pushed_byPosition msg :
  In msg (pushAll text (byPosition d s)) -> scrapedFrom A d msg.
Proof.
  intros H. destruct (pushAll_from _ _ H) as (Hne & el & r & Hin & Heq).
  split; [exact Hne|]. exists el. split; [|exact Heq].
  eapply byPosition_from; exact Hin.
Qed.

Lemma collected_from msg : In msg (collected A d) -> scrapedFrom A d msg.
Proof.
  unfold collected.
  destruct (pushAll text (unified d s)) as [|m l] eqn:E.
  - apply pushed_byPosition.
  - rewrite <- E. apply pushed_unified.
Qed.

Lemma collectedAsync_from msg :
  In msg (collectedAsync A d) -> scrapedFrom A d msg.
Proof.
  unfold collectedAsync.
  destruct (querySelectorAll d (userMessage s));
    [destruct (querySelectorAll d (assistantMessage s))|];
    auto using pushed_unified, pushed_byPosition.
Qed.

Lemma scrape_cut maxTurns :
  Content.scrapeConversation A d maxTurns
  = let limit := match maxTurns with
                 | None | Some O => 15
                 | Some n => n
                 end * 2 in
    skipn (List.length (collected A d) - limit) (collected A d).
Proof.
  unfold Content.scrapeConversation. fold (collected A d). cbv zeta.
  set (limit := _ * 2).
  destruct (Nat.ltb_spec limit (List.length (collected A d))) as [H|H];
    [reflexivity|].
  replace (List.length (collected A d) - limit) with 0 by lia. reflexivity.
Qed.

Lemma scrapeAsync_cut maxTurns :
  ContentAsync.scrapeConversation A d maxTurns
  = ContentAsync.sliceLast (turnsOr15 maxTurns * 2) (collectedAsync A d).
Proof. destruct maxTurns; reflexivity. Qed.

End AnyPage.

(** X11. On any page and for any platform, well-formed or not: a message
    that [scrapeConversation] returns has a non-empty text, which is the
    text of an element found by a message selector of the platform; the
    callback script returns at most twice its turn limit, 30 for a limit
    that is omitted or 0; the async script returns at most twice its turn
    limit when that is not 0, 30 for an omitted one. *)
Theorem scrape_bounds :
  forall A d maxTurns,
    (forall msg,
        In msg (Content.scrapeConversation A d maxTurns)
        \/ In msg (ContentAsync.scrapeConversation A d maxTurns) ->
        scrapedFrom A d msg)
    /\ List.length (Content.scrapeConversation A d maxTurns)
       <= 2 * match maxTurns with
              | None | Some 0 => 15
              | Some n => n
              end
    /\ (maxTurns <> Some 0 ->
        List.length (ContentAsync.scrapeConversation A d maxTurns)
        <= 2 * turnsOr15 maxTurns).
Proof.
  intros A d maxTurns. rewrite scrape_cut, scrapeAsync_cut. cbv zeta.
  split; [|split].
  - intros msg [H|H].
    + apply In_skipn_in in H. now apply collected_from.
    + unfold ContentAsync.sliceLast in H.
      destruct (turnsOr15 maxTurns * 2);
        [|apply In_skipn_in in H]; now apply collectedAsync_from.
  - rewrite length_skipn. lia.
  - intros Hne. unfold ContentAsync.sliceLast.
    destruct (turnsOr15 maxTurns * 2) eqn:E.
    + destruct maxTurns as [[|n]|]; simpl in E; try discriminate; congruence.
    + rewrite length_skipn. lia.
Qed.

Lemma scrape_bounds_witness :
  List.length (ContentAsync.scrapeConversation ContentAsync.chatgpt Pages.chat
                                               (Some 1)) <= 2 * 1.
Proof.
  apply (proj2 (proj2 (scrape_bounds ContentAsync.chatgpt Pages.chat (Some 1)))).
  discriminate.
Defined.

(** X12. On a page where no element is found by any message selector of
    the platform, both scripts return the empty list, whatever the turn
    limit. *)
Theorem scrape_nothing :
  forall A d maxTurns,
    messageNodes A d = [] ->
    Content.scrapeConversation A d maxTurns = []
    /\ ContentAsync.scrapeConversation A d maxTurns = [].
Proof.
  intros A d maxTurns Hn.
  assert (Hnone : forall l : list Adapter.message,
             (forall msg, In msg l -> scrapedFrom A d msg) -> l = []).
  { intros [|msg l] H; [reflexivity|].
    destruct (H msg (or_introl eq_refl)) as (_ & el & Hin & _).
    rewrite Hn in Hin. destruct Hin. }
  assert (Hc : collected A d = []) by (apply Hnone, collected_from).
  assert (Ha : collectedAsync A d = []) by (apply Hnone, collectedAsync_from).
  rewrite scrape_cut, scrapeAsync_cut, Hc, Ha. cbv zeta. split.
  - now rewrite skipn_nil.
  - unfold ContentAsync.sliceLast.
    destruct (turnsOr15 maxTurns * 2); [reflexivity | now rewrite skipn_nil].
Qed.

Lemma scrape_nothing_witness :
  Content.scrapeConversation Content.claude Pages.chat None = [].
Proof.
  exact (proj1 (@scrape_nothing Content.claude Pages.chat None eq_refl)).
Defined.

Section Paths.
Import JS Dom Adapter.

Variable A : platform.
Variable d : document.

(** Without an element for the combined selector, the callback script
    collects what the separate queries give. *)
Lemma fallback_collected :
  uncovered A d -> collected A d = collectedAsync A d.
Proof.
  unfold uncovered. intros Hq.
  unfold collected, collectedAsync, unified. rewrite Hq.
  cbn [List.map pushAll]. unfold byPosition.
  destruct (querySelectorAll d (userMessage (sel A))); [|reflexivity].
  destruct (querySelectorAll d (assistantMessage (sel A))); reflexivity.
Qed.

Lemma fallback_as_separate n :
  uncovered A d -> 1 <= n ->
  Content.scrapeConversation A d (Some n)
  = ContentAsync.scrapeConversation A d (Some n).
Proof.
  intros Hq Hn. rewrite scrape_cut, scrapeAsync_cut. cbv zeta.
  rewrite (fallback_collected Hq). unfold ContentAsync.sliceLast.
  destruct n as [|n]; [lia | reflexivity].
Qed.

Lemma covered_unified : roleFixture A d -> covered A d -> unifiedFixture A d.
Proof.
  unfold roleFixture, covered, unifiedFixture. rewrite !Forall_forall.
  intros Hr Hc el Hin. split; [apply (Hr el Hin) | apply (Hc el Hin)].
Qed.

Lemma covering_selector :
  (forall el, (matches (userMessage (sel A)) el
               || matches (assistantMessage (sel A)) el) = true ->
              matches (allMessages (sel A)) el = true) ->
  roleFixture A d -> covered A d.
Proof.
  unfold roleFixture, covered. rewrite !Forall_forall.
  intros Hs Hr el Hin. apply Hs, (Hr el Hin).
Qed.

(** What the separate queries give on a page with layout is the whole
    transcript. *)
Lemma separate_collected :
  separateFixture A d -> collectedAsync A d = transcript A d.
Proof.
  intros Hf.
  set (n := S (List.length (collectedAsync A d)
               + List.length (transcript A d))).
  assert (Hn : 1 <= n) by (unfold n; lia).
  pose proof (@scrape_separate A d Hf n Hn) as Hs.
  rewrite scrapeAsync_cut in Hs. cbn [turnsOr15] in Hs.
  unfold ContentAsync.sliceLast in Hs.
  destruct (n * 2) eqn:E; [lia|]. rewrite <- E in Hs.
  replace (List.length (collectedAsync A d) - n * 2) with 0 in Hs
    by (unfold n; lia).
  replace (List.length (transcript A d) - n * 2) with 0 in Hs
    by (unfold n; lia).
  exact Hs.
Qed.

End Paths.

(** The combined selector of the ChatGPT table and of the Claude table of
    the callback script finds whatever a role selector finds. *)
Lemma callback_tables_cover A el :
  In A [Content.chatgpt; Content.claude] ->
  (Dom.matches (Adapter.userMessage (Adapter.sel A)) el
   || Dom.matches (Adapter.assistantMessage (Adapter.sel A)) el) = true ->
  Dom.matches (Adapter.allMessages (Adapter.sel A)) el = true.
Proof.
  intros [<- | [<- | []]];
    cbn [Adapter.sel Adapter.userMessage Adapter.assistantMessage
         Adapter.allMessages Content.chatgpt Content.claude];
    unfold Dom.matches; cbn [existsb Dom.matchesSimple].
  - destruct (Dom.getAttribute el "data-message-author-role");
      [reflexivity | discriminate].
  - destruct (match Dom.getAttribute el "data-testid" with
              | Some w => JS.streq w "user-message"
              | None => false
              end); [reflexivity|].
    destruct (match Dom.getAttribute el "data-testid" with
              | Some w => JS.streq w "ai-message"
              | None => false
              end); [reflexivity|].
    destruct (existsb (JS.streq "font-user-message") (Dom.classList el));
      [reflexivity|].
    destruct (existsb (JS.streq "font-claude-message") (Dom.classList el));
      [reflexivity | discriminate].
Qed.

Lemma sample_fixtures :
  roleFixture Content.chatgpt Pages.chat
  /\ roleFixture ContentAsync.chatgpt Pages.flat
  /\ roleFixture Content.gemini Pages.mixed
  /\ roleFixture Content.gemini Pages.unlaid.
Proof.
  unfold roleFixture. repeat split; nodes_checked.
Qed.




(** X14. What [sanitize] and [sanitizeText] return has no white space at
    either end; on a text without a match of the tag pattern the two
    sanitizers return the same; and a text with no match of the tag
    pattern, of [/javascript:/i] and of the handler pattern is only
    trimmed. *)
Theorem sanitize_plain_text :
  (forall x : strval,
      JS.trim (Sanitizer.sanitize x) = Sanitizer.sanitize x
      /\ JS.trim (Sanitizer.sanitizeText x) = Sanitizer.sanitizeText x)
  /\ forall s : jsstring,
      tagfree s ->
      Sanitizer.sanitize (VStr s) = Sanitizer.sanitizeText (VStr s)
      /\ (Regex.test Regex.jsUri s = false ->
          Regex.test Regex.handler s = false ->
          Sanitizer.sanitize (VStr s) = JS.trim s).
Proof.
  split.
  - intros [| |[|c t]]; split; try reflexivity;
      unfold Sanitizer.sanitize, Sanitizer.sanitizeText, Sanitizer.guarded,
        Sanitizer.passes; apply trim_idem.
  - intros s Hs.
    assert (Hp : forall script style,
               (forall u, Regex.tag u = None -> script u = None) ->
               (forall u, Regex.tag u = None -> style u = None) ->
               Sanitizer.guarded (Sanitizer.passes script style) (VStr s)
               = JS.trim (Regex.removeAll Regex.handler 0
                            (Regex.removeAll Regex.jsUri 0 s))).
    { intros script style Hscript Hstyle. rewrite guarded_passes.
      unfold Sanitizer.passes.
      rewrite (@removeAll_fixed script s) by now apply tagfree_no_match.
      rewrite (@removeAll_fixed style s) by now apply tagfree_no_match.
      now rewrite (@removeAll_fixed Regex.tag s) by exact Hs. }
    unfold Sanitizer.sanitize, Sanitizer.sanitizeText.
    rewrite (Hp _ _ script_needs_tag style_needs_tag).
    rewrite (Hp _ _ scriptB_needs_tag styleB_needs_tag).
    split; [reflexivity|]. intros Hu Hh.
    rewrite (@removeAll_fixed Regex.jsUri s) by exact Hu.
    now rewrite (@removeAll_fixed Regex.handler s) by exact Hh.
Qed.

Lemma sanitize_plain_text_witness :
  Sanitizer.sanitize (VStr (ustr "  hello world ")) = ustr "hello world".
Proof.
  exact (proj2 (proj2 sanitize_plain_text (ustr "  hello world ") eq_refl)
               eq_refl eq_refl).
Defined.

(** X25. What [sanitize] and [sanitizeText] return, whatever they are
    given, has no match of the tag pattern left: no [<], one or more code
    units other than [>], and [>]. *)
Theorem sanitize_strips_tags :
  forall x : strval,
    Regex.test Regex.tag (Sanitizer.sanitize x) = false
    /\ Regex.test Regex.tag (Sanitizer.sanitizeText x) = false.
Proof.
  intros x. split; apply guarded_tagfree.
Qed.

Section Escaping.
Import JS Regex Html.

Lemma escapeHtml_units s : escapeHtml (VStr s) = flat_map escapeUnit s.
Proof.
  assert (H : forall l,
             replaceUnit QUOT "&quot;"
               (replaceUnit GT "&gt;"
                 (replaceUnit LT "&lt;"
                   (replaceUnit AMP "&amp;" l)))
             = flat_map escapeUnit l).
  { unfold replaceUnit. induction l as [|c t IH]; [reflexivity|].
    change (c :: t) with ([c] ++ t). rewrite !flat_map_app.
    f_equal; [|exact IH].
    unfold escapeUnit. cbn [flat_map]. rewrite !app_nil_r.
    destruct (N.eqb_spec c AMP) as [->|H1]; [reflexivity|].
    cbn [flat_map]. rewrite !app_nil_r.
    destruct (N.eqb_spec c LT) as [->|H2]; [reflexivity|].
    cbn [flat_map]. rewrite !app_nil_r.
    destruct (N.eqb_spec c GT) as [->|H3]; [reflexivity|].
    cbn [flat_map]. rewrite !app_nil_r.
    destruct (N.eqb_spec c QUOT) as [->|H4]; reflexivity. }
  destruct s as [|c t]; [reflexivity | apply H].
Qed.

Lemma escapeUnit_ordinary c : ordinary c -> escapeUnit c = [c].
Proof.
  intros (H1 & H2 & H3 & H4). unfold escapeUnit.
  destruct (N.eqb_spec c AMP); [contradiction|].
  destruct (N.eqb_spec c LT); [contradiction|].
  destruct (N.eqb_spec c GT); [contradiction|].
  destruct (N.eqb_spec c QUOT); [contradiction|reflexivity].
Qed.

Lemma escapeUnit_cases c :
  ordinary c \/ c = AMP \/ c = LT \/ c = GT \/ c = QUOT.
Proof.
  unfold ordinary.
  destruct (N.eqb_spec c AMP); [tauto|].
  destruct (N.eqb_spec c LT); [tauto|].
  destruct (N.eqb_spec c GT); [tauto|].
  destruct (N.eqb_spec c QUOT); tauto.
Qed.

Lemma escapeUnit_markupFree c : markupFree (escapeUnit c).
Proof.
  destruct (escapeUnit_cases c) as [H|[->|[->|[->| ->]]]].
  - rewrite (escapeUnit_ordinary H). destruct H as (_ & H2 & H3 & H4).
    unfold markupFree. simpl. intuition congruence.
  - unfold markupFree. cbn. intuition discriminate.
  - unfold markupFree. cbn. intuition discriminate.
  - unfold markupFree. cbn. intuition discriminate.
  - unfold markupFree. cbn. intuition discriminate.
Qed.

Lemma decodeHTMLEntities_decoded l : decodeHTMLEntities (Str l) = decoded l.
Proof. destruct l; reflexivity. Qed.

Lemma decoded_other c t :
  c <> AMP -> decoded (c :: t) = c :: decoded t.
Proof.
  intros H. unfold decoded. cbn [replaceAll entityRef].
  destruct (N.eqb_spec c AMP); [contradiction | reflexivity].
Qed.

Lemma decoded_fixed l : ~ In AMP l -> decoded l = l.
Proof.
  induction l as [|c t IH]; intros H; [reflexivity|].
  rewrite decoded_other by (intros ->; apply H; now left).
  f_equal. apply IH. intros Hin. apply H. now right.
Qed.

Lemma decoded_escaped l : decoded (flat_map escapeUnit l) = l.
Proof.
  induction l as [|c t IH]; [reflexivity|].
  cbn [flat_map].
  destruct (escapeUnit_cases c) as [H|[->|[->|[->| ->]]]].
  - rewrite (escapeUnit_ordinary H). cbn [app].
    rewrite decoded_other by apply H. now rewrite IH.
  - change (decoded (escapeUnit AMP ++ flat_map escapeUnit t))
      with (AMP :: decoded (flat_map escapeUnit t)). now rewrite IH.
  - change (decoded (escapeUnit LT ++ flat_map escapeUnit t))
      with (LT :: decoded (flat_map escapeUnit t)). now rewrite IH.
  - change (decoded (escapeUnit GT ++ flat_map escapeUnit t))
      with (GT :: decoded (flat_map escapeUnit t)). now rewrite IH.
  - change (decoded (escapeUnit QUOT ++ flat_map escapeUnit t))
      with (QUOT :: decoded (flat_map escapeUnit t)). now rewrite IH.
Qed.

End Escaping.

(** X15. What [escapeHtml] returns has no [<], no [>] and no double quote,
    whatever it is given; it is never shorter than the string it is given;
    and a string without [&], [<], [>] and double quote is returned as it
    is. *)
Theorem escapeHtml_no_markup :
  forall str : strval,
    markupFree (Html.escapeHtml str)
    /\ forall s : jsstring,
        str = VStr s ->
        List.length s <= List.length (Html.escapeHtml str)
        /\ (Forall ordinary s -> Html.escapeHtml str = s).
Proof.
  intros str. split.
  - destruct str as [| |s]; try (unfold markupFree; simpl; tauto).
    rewrite escapeHtml_units.
    induction s as [|c t (I1 & I2 & I3)]; [unfold markupFree; simpl; tauto|].
    cbn [flat_map]. destruct (escapeUnit_markupFree c) as (U1 & U2 & U3).
    unfold markupFree. rewrite !in_app_iff. tauto.
  - intros s ->. rewrite escapeHtml_units. split.
    + induction s as [|c t IH]; [apply le_n|].
      cbn [flat_map]. rewrite length_app. cbn [List.length].
      assert (1 <= List.length (escapeUnit c)); [|lia].
      destruct (escapeUnit_cases c) as [H|[->|[->|[->| ->]]]];
        [rewrite (escapeUnit_ordinary H)|..]; cbn; lia.
    + induction 1 as [|c t Hc _ IH]; [reflexivity|].
      cbn [flat_map]. now rewrite (escapeUnit_ordinary Hc), IH.
Qed.

Lemma escapeHtml_no_markup_witness :
  Html.escapeHtml (VStr (ustr "plain text")) = ustr "plain text".
Proof.
  apply (proj2 (escapeHtml_no_markup (VStr (ustr "plain text")))
               (ustr "plain text") eq_refl).
  repeat constructor; discriminate.
Defined.

(** X16. [decodeHTMLEntities] undoes [escapeHtml]: decoding the escaped
    form of any string gives the string back. *)
Theorem escape_decode_round_trip :
  forall s : jsstring,
    Html.decodeHTMLEntities (Str (Html.escapeHtml (VStr s))) = s.
Proof.
  intros s.
  now rewrite decodeHTMLEntities_decoded, escapeHtml_units, decoded_escaped.
Qed.

Lemma trimStart_cut k s :
  exists v, JS.trimStart s = JS.trimStart (JS.substring0 k s) ++ v.
Proof.
  unfold JS.substring0. revert k; induction s as [|c t IH]; intros k.
  - exists []. now rewrite firstn_nil.
  - destruct k as [|k]; [now exists (JS.trimStart (c :: t))|].
    cbn [firstn JS.trimStart]. destruct (JS.isWhite c); [apply IH|].
    exists (skipn k t). cbn [app]. now rewrite firstn_skipn.
Qed.

(** X17. [truncate] returns a text of at most [maxLength] code units
    (100 when omitted) unchanged; it never returns more than [maxLength]
    code units when the suffix (three dots when omitted) is not longer than
    [maxLength]; and a longer text comes back cut, ending in the suffix. *)
Theorem truncate_bound :
  forall (text : value) (maxLength : option nat) (suffix : option jsstring),
    let n := match maxLength with Some n => n | None => 100 end in
    let sfx := match suffix with Some x => x | None => ustr "..." end in
    (List.length sfx <= n ->
     List.length (Html.truncate text maxLength suffix) <= n)
    /\ forall s : jsstring,
        text = Str s ->
        (List.length s <= n -> Html.truncate text maxLength suffix = s)
        /\ (n < List.length s ->
            exists head,
              Html.truncate text maxLength suffix = head ++ sfx
              /\ prefix head (JS.trimStart s)
              /\ List.length head <= n - List.length sfx).
Proof.
  intros text maxLength suffix n sfx.
  assert (Hcut : forall s : jsstring,
             List.length (JS.trim (JS.substring0 (n - List.length sfx) s))
             <= n - List.length sfx).
  { intros s. etransitivity; [apply trim_length|].
    unfold JS.substring0. rewrite length_firstn. lia. }
  split.
  - intros Hs. destruct text as [| |[|c t]|b]; try (simpl; lia).
    unfold Html.truncate. fold n sfx. cbv zeta.
    destruct (Nat.leb_spec (List.length (c :: t)) n) as [H|H]; [exact H|].
    rewrite length_app. specialize (Hcut (c :: t)). lia.
  - intros s ->. split.
    + intros Hle. destruct s as [|c t]; [reflexivity|].
      unfold Html.truncate. fold n sfx. cbv zeta.
      destruct (Nat.leb_spec (List.length (c :: t)) n) as [H|H];
        [reflexivity | lia].
    + intros Hlt. destruct s as [|c t]; [simpl in Hlt; lia|].
      unfold Html.truncate. fold n sfx. cbv zeta.
      destruct (Nat.leb_spec (List.length (c :: t)) n) as [H|H]; [lia|].
      set (cut := JS.substring0 (n - List.length sfx) (c :: t)).
      destruct (trimEnd_split (JS.trimStart cut)) as (w & Hw).
      destruct (trimStart_cut (n - List.length sfx) (c :: t)) as (v & Hv).
      exists (JS.trim cut). split; [reflexivity|]. split.
      * exists (w ++ v). rewrite app_assoc.
        unfold JS.trim at 1. rewrite <- Hw. exact Hv.
      * apply Hcut.
Qed.

Lemma truncate_bound_witness :
  List.length (Html.truncate (Str (ustr "a long text to cut")) (Some 10) None)
  <= 10.
Proof.
  apply (proj1 (truncate_bound (Str (ustr "a long text to cut")) (Some 10) None)).
  simpl. lia.
Defined.

(** X18. [sanitizeHTML] returns the empty string for anything that is not
    a non-empty string; what it returns has no white space at either end;
    and on a string without [&] it returns what [sanitizeText] returns,
    the decoding of entities having nothing to act on. *)
Theorem sanitizeHTML_without_entities :
  forall html : value,
    JS.trim (Html.sanitizeHTML html) = Html.sanitizeHTML html
    /\ ((forall s, html <> Str s) -> Html.sanitizeHTML html = [])
    /\ forall s : jsstring,
        html = Str s ->
        ~ In Html.AMP s ->
        Html.sanitizeHTML html = Sanitizer.sanitizeText (VStr s).
Proof.
  intros html. split; [|split].
  - destruct html as [| |[|c t]|b]; try reflexivity.
    unfold Html.sanitizeHTML. cbv zeta. apply trim_idem.
  - intros Hn. destruct html as [| |s|b]; try reflexivity.
    now destruct (Hn s).
  - intros s -> Hs. destruct s as [|c t]; [reflexivity|].
    unfold Html.sanitizeHTML, Sanitizer.sanitizeText, Sanitizer.guarded,
      Sanitizer.passes. cbv zeta.
    rewrite decodeHTMLEntities_decoded, decoded_fixed; [reflexivity|].
    intros Hin. apply Hs.
    now repeat apply removeAll_In in Hin.
Qed.

Lemma sanitizeHTML_without_entities_witness :
  Html.sanitizeHTML (Str (ustr "<b>bold</b> text"))
  = Sanitizer.sanitizeText (VStr (ustr "<b>bold</b> text")).
Proof.
  apply (proj2 (proj2 (sanitizeHTML_without_entities
                         (Str (ustr "<b>bold</b> text"))))
               (ustr "<b>bold</b> text") eq_refl).
  vm_compute. intuition discriminate.
Defined.

Section Buttons.
Import Page.

Lemma afterAll_snoc l h p : afterAll (l ++ [h]) p = happen h (afterAll l p).
Proof. unfold afterAll. now rewrite fold_left_app. Qed.

Lemma ticks_snoc l h :
  ticks (l ++ [h]) = ticks l + match h with Tick _ => 1 | _ => 0 end.
Proof.
  unfold ticks. rewrite filter_app, length_app. now destruct h.
Qed.

Lemma injectButtons_one p :
  containers p <= 1 ->
  containers (injectButtons p) = 1
  /\ attempts (injectButtons p) = attempts p
  /\ polling (injectButtons p) = polling p.
Proof.
  intros H. unfold injectButtons.
  destruct (containers p) as [|[|n]] eqn:E; cbn [containers attempts polling];
    rewrite ?E; repeat split; lia.
Qed.

(** What every run of the boot keeps. *)
Lemma boot_invariant l :
  let p := afterAll l booted in
  containers p <= 1
  /\ attempts p <= ticks l
  /\ (polling p = true -> attempts p = ticks l /\ ticks l < 20)
  /\ (polling p = false -> attempts p <= 20)
  /\ (neverRebuilt l -> polling p = false -> containers p = 1).
Proof.
  induction l as [|h l IH] using rev_ind.
  - cbn. repeat split; intros; try lia; discriminate.
  - cbv zeta in *. rewrite afterAll_snoc, ticks_snoc.
    set (p := afterAll l booted) in *.
    destruct IH as (Hc & Ha & Hp & Hq & Hr).
    assert (Hn : neverRebuilt (l ++ [h]) -> neverRebuilt l /\ h <> Rebuilt).
    { unfold neverRebuilt. rewrite Forall_app. intros [H1 H2].
      split; [exact H1 | now inversion H2]. }
    destruct h as [ready| |]; cbn [happen].
    + unfold tick. destruct (polling p) eqn:Epol.
      * destruct (Hp eq_refl) as [Hat Hlt].
        destruct (ready || (20 <=? S (attempts p))%nat) eqn:Estop.
        -- match goal with
           | |- context [injectButtons ?q] =>
               destruct (@injectButtons_one q Hc) as (I1 & I2 & I3)
           end.
           rewrite I1, I2, I3. cbn [attempts polling].
           repeat split; intros; try lia; discriminate.
        -- cbn [containers attempts polling].
           apply orb_false_iff in Estop. destruct Estop as [_ Estop].
           apply Nat.leb_gt in Estop.
           repeat split; intros; try lia; discriminate.
      * specialize (Hq eq_refl). rewrite Epol.
        repeat split; intros; try lia; try discriminate.
        apply Hr; [|reflexivity].
        match goal with H : neverRebuilt (_ ++ _) |- _ => apply (Hn H) end.
    + destruct (@injectButtons_one p Hc) as (I1 & I2 & I3).
      rewrite I1, I2, I3. repeat split; intros; try lia; auto;
        match goal with H : polling p = true |- _ => destruct (Hp H); lia end.
    + cbn [containers attempts polling]. repeat split; intros; try lia; auto;
        try (match goal with
             | H : polling p = true |- _ => destruct (Hp H); lia
             end).
      match goal with
      | H : neverRebuilt (_ ++ _) |- _ => now destruct (proj2 (Hn H))
      end.
Qed.

End Buttons.

(** X19. Whatever happens to the page after the boot of the callback
    content script (the interval of [initialize] firing, navigations seen
    by [watchNavigation], the page dropping the container): there is never
    more than one button container, the attempts never pass 20, the
    polling has stopped once the interval has fired 20 times, and when the
    polling has stopped on a page that never dropped the container, the
    container is there. *)
Theorem buttons_injected_once :
  forall l : list Page.happening,
    let p := Page.afterAll l Page.booted in
    Page.containers p <= 1
    /\ Page.attempts p <= 20
    /\ (20 <= ticks l -> Page.polling p = false)
    /\ (neverRebuilt l -> Page.polling p = false -> Page.containers p = 1).
Proof.
  intros l p. destruct (boot_invariant l) as (Hc & Ha & Hp & Hq & Hr).
  fold p in Hc, Ha, Hp, Hq, Hr.
  split; [exact Hc|]. split; [|split; [|exact Hr]].
  - destruct (Page.polling p) eqn:E; [destruct (Hp eq_refl); lia | now apply Hq].
  - intros H. destruct (Page.polling p) eqn:E; [|reflexivity].
    destruct (Hp eq_refl). lia.
Qed.

Lemma buttons_injected_once_witness :
  Page.containers
    (Page.afterAll [Page.Tick false; Page.Tick true; Page.Navigated]
                   Page.booted) = 1.
Proof.
  apply (proj2 (proj2 (proj2 (buttons_injected_once
           [Page.Tick false; Page.Tick true; Page.Navigated])))).
  - repeat constructor; discriminate.
  - reflexivity.
Defined.

Section Saving.
Import Store Page.

Variable toUpperCase : jsstring -> jsstring.
Variable A : Adapter.platform.

Local Abbreviation run := (performAll toUpperCase A).

Lemma answered_enables lastError response s :
  saveBtn s <> None ->
  saveBtn (answered lastError response s) = Some false
  /\ unanswered (answered lastError response s) = unanswered s
  /\ sent (answered lastError response s) = sent s.
Proof.
  intros Hb. unfold answered. cbv zeta.
  destruct (success _); unfold notify, setDisabled; cbn;
    destruct (saveBtn s); try contradiction; auto.
Qed.

Lemma handleSave_waiting d href now threw s :
  waiting s -> handleSave toUpperCase A d href now threw s = s.
Proof. intros [Hb _]. unfold handleSave. now rewrite Hb. Qed.

Lemma handleSave_atRest d href now threw s :
  atRest s ->
  let s' := handleSave toUpperCase A d href now threw s in
  (atRest s' /\ sent s' = sent s)
  \/ (waiting s' /\ exists r, sent s' = r :: sent s
                              /\ Content.scrapeConversation A d (Some 15) <> []
                              /\ threw = None).
Proof.
  intros [Hb Hu]. cbv zeta. unfold handleSave. rewrite Hb.
  destruct (Content.scrapeConversation A d (Some 15)) as [|m l] eqn:E.
  - left. unfold atRest, setDisabled, notify. cbn. rewrite Hb. cbn. auto.
  - destruct threw as [msg|].
    + left.
      assert (Hne : saveBtn (setDisabled true s) <> None)
        by (unfold setDisabled; cbn; rewrite Hb; discriminate).
      destruct (@answered_enables None (Some (failure msg)) _ Hne)
        as (H1 & H2 & H3).
      unfold atRest. rewrite H1, H2, H3. cbn. auto.
    + right. unfold waiting, setDisabled. cbn. rewrite Hb, Hu. cbn.
      split; [auto|]. eexists. split; [reflexivity|]. split; [discriminate|
      reflexivity].
Qed.

Lemma answer_rests lastError response s :
  atRest s \/ waiting s ->
  atRest (answer lastError response s)
  /\ sent (answer lastError response s) = sent s.
Proof.
  intros H.
  assert (Hne : saveBtn s <> None) by (destruct H as [[-> _]|[-> _]]; discriminate).
  destruct (@answered_enables lastError response s Hne) as (H1 & H2 & H3).
  unfold answer. cbv zeta. unfold atRest. cbn [saveBtn unanswered sent].
  rewrite H1, H2, H3. destruct H as [[_ ->]|[_ ->]]; auto.
Qed.

Lemma run_snoc l e s : run (l ++ [e]) s = perform toUpperCase A e (run l s).
Proof. unfold performAll. now rewrite fold_left_app. Qed.

Lemma run_state l : atRest (run l idle) \/ waiting (run l idle).
Proof.
  induction l as [|e l IH] using rev_ind.
  - left. split; reflexivity.
  - rewrite run_snoc. destruct e as [d href now threw | lastError response];
      cbn [perform].
    + destruct IH as [H|H].
      * destruct (@handleSave_atRest d href now threw _ H) as [[H' _]|[H' _]];
          auto.
      * rewrite (handleSave_waiting _ _ _ _ H). now right.
    + left. now apply answer_rests.
Qed.

End Saving.

(** X20. The save handler of the callback content script does not run
    twice at once.  After any sequence of clicks on the save button and
    answers of the runtime, at most one summarize request is unanswered,
    and one is exactly as long as the button is disabled; a click while
    the button is disabled changes nothing and sends nothing; a click on a
    page without a conversation sends nothing, shows the error and leaves
    the button enabled; any other click on the enabled button sends
    exactly one request, unless [sendMessage] throws. *)
Theorem save_not_reentrant :
  forall (toUpperCase : jsstring -> jsstring) (A : Adapter.platform)
         (l : list Page.step),
    let s := Page.performAll toUpperCase A l Page.idle in
    Page.unanswered s <= 1
    /\ (Page.saveBtn s = Some true <-> Page.unanswered s = 1)
    /\ forall d href now threw,
        let s' := Page.handleSave toUpperCase A d href now threw s in
        (Page.unanswered s = 1 -> s' = s)
        /\ (Page.unanswered s = 0 ->
            Content.scrapeConversation A d (Some 15) = [] ->
            Page.sent s' = Page.sent s
            /\ Page.saveBtn s' = Some false
            /\ Page.shown s'
               = (ustr "No conversation found to save.", ustr "error")
                   :: Page.shown s)
        /\ (Page.unanswered s = 0 ->
            Content.scrapeConversation A d (Some 15) <> [] ->
            threw = None ->
            Page.unanswered s' = 1
            /\ List.length (Page.sent s') = S (List.length (Page.sent s))).
Proof.
  intros toUpperCase A l s.
  assert (Hs : atRest s \/ waiting s) by apply run_state.
  split; [|split].
  - destruct Hs as [[_ ->]|[_ ->]]; lia.
  - destruct Hs as [[-> ->]|[-> ->]]; split; try discriminate; reflexivity.
  - intros d href now threw s'. split; [|split].
    + intros Hu. destruct Hs as [[_ H]|H]; [rewrite H in Hu; discriminate|].
      now apply handleSave_waiting.
    + intros Hu Hempty.
      destruct Hs as [[Hb _]|[_ H]]; [|rewrite H in Hu; discriminate].
      unfold s', Page.handleSave. rewrite Hb, Hempty.
      unfold Page.setDisabled, Page.notify. cbn. rewrite Hb. auto.
    + intros Hu Hfull ->.
      destruct Hs as [[Hb _]|[_ H]]; [|rewrite H in Hu; discriminate].
      unfold s', Page.handleSave. rewrite Hb.
      destruct (Content.scrapeConversation A d (Some 15)); [contradiction|].
      cbn. rewrite Hu. auto.
Qed.

Lemma save_not_reentrant_witness :
  let s := Page.performAll (fun x => x) Content.chatgpt
             [Page.Click Pages.chat (ustr "https://chatgpt.com/c/1")
                         (ustr "2026-02-01T00:00:00.000Z") None]
             Page.idle in
  Page.handleSave (fun x => x) Content.chatgpt Pages.chat
                  (ustr "https://chatgpt.com/c/1")
                  (ustr "2026-02-01T00:00:01.000Z") None s = s.
Proof.
  intros s.
  apply (proj1 (proj2 (proj2 (save_not_reentrant (fun x => x) Content.chatgpt
           [Page.Click Pages.chat (ustr "https://chatgpt.com/c/1")
                       (ustr "2026-02-01T00:00:00.000Z") None])) Pages.chat
           (ustr "https://chatgpt.com/c/1")
           (ustr "2026-02-01T00:00:01.000Z") None)).
  reflexivity.
Defined.

Section SettingsForm.
Import JS Store Popup.

Variables (transport : option jsstring) (e : env) (f : form) (st : store).

Lemma refused_error wording n : refused wording f = Some n -> kind n = ustr "error".
Proof.
  unfold refused. cbv zeta.
  destruct (negb (truthy (trim (keyField f)))); [now intros [= <-]|].
  destruct (streq _ _ && negb _); [now intros [= <-] | discriminate].
Qed.

Lemma refused_none wording : refused wording f = None -> validForm f.
Proof.
  unfold refused, validForm. cbv zeta.
  destruct (trim (keyField f)) as [|c k] eqn:E; [discriminate|].
  cbn [truthy negb].
  destruct (streq (providerField f) "openai") eqn:Ep; cbn [andb].
  - destruct (startsWith "sk-" (c :: k)) eqn:Es; [|discriminate].
    intros _. split; [discriminate|]. intros _. now apply startsWith_prefix.
  - intros _. split; [discriminate|]. intros Hp.
    apply streq_eq in Hp. congruence.
Qed.

Lemma refused_wording w1 w2 : refused w1 f = None -> refused w2 f = None.
Proof.
  unfold refused. cbv zeta.
  destruct (negb _); [discriminate|].
  destruct (streq _ _ && negb _); [discriminate | reflexivity].
Qed.

Lemma error_not_success : ustr "error" <> ustr "success".
Proof. discriminate. Qed.

(** The run of the popup that writes the storage itself. *)
Lemma direct_run :
  (exists n, refused "typically start" f = Some n
             /\ Popup.saveSettings e f st = (n, st))
  \/ (refused "typically start" f = None
      /\ ((exists n, kind n = ustr "error"
                     /\ Popup.saveSettings e f st = (n, st))
          \/ (exists n, kind n = ustr "success"
                        /\ Popup.saveSettings e f st
                           = (n, setSettings st (entered f))))).
Proof.
  unfold Popup.saveSettings.
  destruct (refused "typically start" f) as [n|]; [left; eauto|].
  right. split; [reflexivity|].
  destruct (writeError e); [left | right];
    (eexists; split; [|reflexivity]; reflexivity).
Qed.

(** The run of the popup that asks the background. *)
Lemma message_run (a : api) :
  (exists n, refused "should start" f = Some n
             /\ saveSettingsByMessage a transport e f st = (Some n, st))
  \/ (refused "should start" f = None
      /\ match a with
         | Polyfill =>
             saveSettingsByMessage a transport e f st = (None, delivered transport e f st)
         | Chrome =>
             (delivered transport e f st = st
              /\ exists n, kind n = ustr "error"
                           /\ saveSettingsByMessage a transport e f st
                              = (Some n, st))
             \/ (delivered transport e f st = setSettings st (entered f)
                 /\ exists n, kind n = ustr "success"
                              /\ saveSettingsByMessage a transport e f st
                                 = (Some n, setSettings st (entered f)))
         end).
Proof.
  unfold saveSettingsByMessage, delivered.
  destruct (refused "should start" f) as [n|]; [left; eauto|].
  right. split; [reflexivity|].
  unfold sendMessage, WorkerAsync.listener, WorkerAsync.handleMessage,
    WorkerAsync.saveSettings.
  destruct a, transport as [t|], (writeError e) as [w|];
    cbn [fst snd success failure ok];
    try reflexivity;
    try (left; split; [reflexivity|];
         eexists; split; [|reflexivity]; reflexivity).
  right. split; [reflexivity|]. eexists; split; [|reflexivity]; reflexivity.
Qed.

(** What the popups show against what the store holds. *)
Local Abbreviation outcome a r :=
  ((showsSuccess r ->
    refused "should start" f = None /\ snd r = setSettings st (entered f))
   /\ (showsError r -> snd r = st)
   /\ (fst r = None ->
       refused "should start" f = None /\ a = Polyfill
       /\ snd r = delivered transport e f st)).

Lemma shown_error a n : kind n = ustr "error" -> outcome a (Some n, st).
Proof.
  intros Hk. split; [|split].
  - intros (n' & Hn & Hs). cbn [fst] in Hn. injection Hn as <-.
    rewrite Hk in Hs. now destruct (error_not_success Hs).
  - reflexivity.
  - discriminate.
Qed.

Lemma shown_success a n :
  kind n = ustr "success" -> refused "should start" f = None ->
  outcome a (Some n, setSettings st (entered f)).
Proof.
  intros Hk Hr. split; [|split].
  - intros _. split; [exact Hr | reflexivity].
  - intros (n' & Hn & Hs). cbn [fst] in Hn. injection Hn as <-.
    contradiction.
  - discriminate.
Qed.

Lemma shown_nothing :
  refused "should start" f = None ->
  outcome Polyfill (@None notice, delivered transport e f st).
Proof.
  intros Hr. split; [|split].
  - intros (n' & Hn & _). discriminate.
  - intros (n' & Hn & _). discriminate.
  - intros _. now repeat split.
Qed.

Lemma popup_saved a r :
  In r (popupSaves a transport e f st) -> outcome a r.
Proof.
  intros [<-|[<-|[]]].
  - destruct direct_run as [(n & Hr & ->)|(Hr & [(n & Hk & ->)|(n & Hk & ->)])];
      cbn [fst snd].
    + apply shown_error. eapply refused_error, Hr.
    + apply shown_error, Hk.
    + apply shown_success; [exact Hk | eapply refused_wording, Hr].
  - destruct (message_run a) as [(n & Hr & ->)|(Hr & Hrun)].
    + apply shown_error. eapply refused_error, Hr.
    + destruct a.
      * destruct Hrun as [(Hd & n & Hk & ->)|(Hd & n & Hk & ->)].
        -- apply shown_error, Hk.
        -- apply shown_success; assumption.
      * rewrite Hrun. now apply shown_nothing.
Qed.

Variables (e' : env) (m : summarizeRequest).
Hypothesis settings_read : settingsReadError e' = None.

Lemma callback_calls st' c k p :
  apiKey (settingsOf st') = Some (c :: k) ->
  selectedCb st' = Some p ->
  snd (Worker.handleSummarize e' m st') = theCall p (c :: k) m.
Proof.
  intros Hk Hp. rewrite (@callback_run e' m st' c k settings_read Hk p Hp).
  destruct (providerResult _ _) as [err | [| |text]]; try reflexivity.
  cbv zeta.
  destruct (Worker.saveSummary _ _ _) as [[[|c' msg]|] st'']; reflexivity.
Qed.

Lemma async_calls st' c k p :
  apiKey (settingsOf st') = Some (c :: k) ->
  selectedAsync st' = Some p ->
  snd (WorkerAsync.handleSummarize e' m st') = theCall p (c :: k) m.
Proof.
  intros Hk Hp. rewrite (@async_run e' m st' c k settings_read Hk p Hp).
  destruct (providerResult _ _) as [err | [| |text]]; try reflexivity.
  cbv zeta.
  destruct (WorkerAsync.saveSummary _ _ _) as [[err|] st'']; reflexivity.
Qed.

End SettingsForm.

(** X21. [saveSettings] of both popups validates before it writes.  The
    saves are never touched.  Success is shown only when the trimmed key
    is not empty and, for the provider [openai], starts with [sk-], and the
    store then holds the provider of the form and the trimmed key; when an
    error is shown, for a refused key, a failed write or a message that
    did not get through, the store is unchanged.  The popup that writes
    the storage itself, and the popup that asks the background over
    [chrome], always show one or the other.  Over the [browser] object of
    the polyfill the popup that asks the background shows nothing for a
    valid form, since its promise never settles, while the worker has
    stored the settings if the message reached it and the write
    succeeded. *)
Theorem popup_settings_checked :
  forall a transport e f st,
    (forall r, In r (popupSaves a transport e f st) -> checkedSave f st r)
    /\ (a = Popup.Chrome ->
        forall r, In r (popupSaves a transport e f st) -> fst r <> None)
    /\ (a = Popup.Polyfill -> validForm f ->
        Popup.saveSettingsByMessage a transport e f st
        = (None,
           match transport, Store.writeError e with
           | None, None => Store.setSettings st (Popup.entered f)
           | _, _ => st
           end)).
Proof.
  intros a transport e f st. split; [|split].
  - intros r Hr.
    destruct (@popup_saved transport e f st a r Hr) as (Hyes & Hno & Hnone).
    unfold checkedSave. split; [|split; [|split; [exact Hno|]]].
    + destruct (fst r) as [n|] eqn:En.
      * destruct (list_eq_dec N.eq_dec (Popup.kind n) (ustr "success"))
          as [H|H].
        -- destruct Hyes as [_ ->]; [exists n; auto | reflexivity].
        -- rewrite Hno; [reflexivity | exists n; auto].
      * destruct (Hnone eq_refl) as (_ & _ & ->). unfold delivered.
        destruct transport, (Store.writeError e); reflexivity.
    + intros H. destruct (Hyes H) as [Hr' ->].
      split; [eapply refused_none, Hr' | reflexivity].
    + intros H. destruct (Hnone H) as (Hr' & _ & ->).
      split; [eapply refused_none, Hr'|]. unfold delivered.
      destruct transport, (Store.writeError e); auto.
  - intros -> r Hr H.
    destruct (@popup_saved transport e f st Popup.Chrome r Hr)
      as (_ & _ & Hnone).
    destruct (Hnone H) as (_ & Ha & _). discriminate.
  - intros -> Hv.
    destruct (@message_run transport e f st Popup.Polyfill)
      as [(n & Hr & _)|(_ & Hrun)]; [|exact Hrun].
    exfalso. destruct Hv as [Hne Hsk]. revert Hr. unfold Popup.refused.
    cbv zeta. destruct (JS.trim (Popup.keyField f)) as [|c k] eqn:E;
      [now destruct Hne|].
    cbn [JS.truthy negb].
    destruct (JS.streq (Popup.providerField f) "openai") eqn:Ep;
      cbn [andb]; [|discriminate].
    apply streq_eq in Ep. apply Hsk, startsWith_prefix in Ep.
    now rewrite Ep.
Qed.

Lemma popup_settings_checked_witness :
  Store.settings
    (snd (Popup.saveSettings (Sample.answering (ustr "ok"))
            {| Popup.providerField := ustr "openai";
               Popup.keyField := ustr " sk-abc " |} Store.installed))
  = Some {| Store.apiProvider := Some (ustr "openai");
            Store.apiKey := Some (ustr "sk-abc") |}
  /\ Popup.saveSettingsByMessage Popup.Polyfill None
       (Sample.answering (ustr "ok"))
       {| Popup.providerField := ustr "gemini";
          Popup.keyField := ustr "AIza-abc" |} Store.installed
     = (None,
        Store.setSettings Store.installed
          {| Store.apiProvider := Some (ustr "gemini");
             Store.apiKey := Some (ustr "AIza-abc") |}).
Proof.
  split.
  - assert (H := proj1 (@popup_settings_checked Popup.Chrome None
                          (Sample.answering (ustr "ok"))
                          {| Popup.providerField := ustr "openai";
                             Popup.keyField := ustr " sk-abc " |}
                          Store.installed) _ (or_introl eq_refl)).
    destruct (proj1 (proj2 H)) as [_ Hst].
    + eexists. split; reflexivity.
    + cbn [snd] in Hst. rewrite Hst. reflexivity.
  - apply (proj2 (proj2 (@popup_settings_checked Popup.Polyfill None
                            (Sample.answering (ustr "ok"))
                            {| Popup.providerField := ustr "gemini";
                               Popup.keyField := ustr "AIza-abc" |}
                            Store.installed))).
    + reflexivity.
    + split; [discriminate|]. intros H. discriminate H.
Defined.

(** X22. Settings that a popup saved with success are the ones the
    workers use: a summarize request that follows makes exactly one
    provider call, to the provider of the form and with the trimmed key of
    the form, when the provider is [openai] or [gemini]; any other provider
    passes the popup but is refused by the workers without a call, except
    that the callback-based worker reads an empty provider as [openai]. *)
Theorem popup_then_summarize :
  forall a transport e f st r e' m,
    In r (popupSaves a transport e f st) ->
    showsSuccess r ->
    Store.settingsReadError e' = None ->
    let key := JS.trim (Popup.keyField f) in
    let provider := Popup.providerField f in
    (provider = ustr "openai" ->
     snd (Worker.handleSummarize e' m (snd r)) = theCall Store.OpenAI key m
     /\ snd (WorkerAsync.handleSummarize e' m (snd r))
        = theCall Store.OpenAI key m)
    /\ (provider = ustr "gemini" ->
        snd (Worker.handleSummarize e' m (snd r)) = theCall Store.Gemini key m
        /\ snd (WorkerAsync.handleSummarize e' m (snd r))
           = theCall Store.Gemini key m)
    /\ (provider <> ustr "openai" -> provider <> ustr "gemini" ->
        WorkerAsync.handleSummarize e' m (snd r)
        = (Store.failure "Invalid API provider", snd r, [])
        /\ (provider <> [] ->
            Worker.handleSummarize e' m (snd r)
            = (Store.failure (ustr "Invalid API provider: " ++ provider),
               snd r, []))
        /\ (provider = [] ->
            snd (Worker.handleSummarize e' m (snd r))
            = theCall Store.OpenAI key m)).
Proof.
  intros a transport e f st r e' m Hr Hok He' key provider.
  destruct (@popup_saved transport e f st a r Hr) as [Hyes _].
  destruct (Hyes Hok) as [Hn Hst]. rewrite Hst.
  destruct (@refused_none f _ Hn) as [Hne _].
  set (st' := Store.setSettings st (Popup.entered f)).
  assert (Hprov : Store.apiProvider (Store.settingsOf st') = Some provider)
    by reflexivity.
  assert (Hkey : Store.apiKey (Store.settingsOf st') = Some key) by reflexivity.
  fold key in Hne. destruct key as [|c k] eqn:Ekey; [now destruct Hne|].
  assert (Hcb : forall p, selectedCb st' = Some p ->
                snd (Worker.handleSummarize e' m st') = theCall p (c :: k) m).
  { intros p. now apply callback_calls. }
  assert (Has : forall p, selectedAsync st' = Some p ->
                snd (WorkerAsync.handleSummarize e' m st')
                = theCall p (c :: k) m).
  { intros p. now apply async_calls. }
  split; [|split].
  - intros Hp. split; [apply Hcb | apply Has];
      unfold selectedCb, selectedAsync; rewrite Hprov, Hp; reflexivity.
  - intros Hp. split; [apply Hcb | apply Has];
      unfold selectedCb, selectedAsync; rewrite Hprov, Hp; reflexivity.
  - intros H1 H2.
    assert (E1 : JS.streq provider "openai" = false).
    { destruct (JS.streq provider "openai") eqn:E; [|reflexivity].
      apply streq_eq in E. contradiction. }
    assert (E2 : JS.streq provider "gemini" = false).
    { destruct (JS.streq provider "gemini") eqn:E; [|reflexivity].
      apply streq_eq in E. contradiction. }
    split; [|split].
    + apply (@async_refusal e' m st' c k He' Hkey).
      unfold selectedAsync. now rewrite Hprov, E1, E2.
    + intros H3.
      assert (Ho : Store.orElse (Some provider) "openai" = provider)
        by (destruct provider; [contradiction | reflexivity]).
      rewrite (@callback_refusal e' m st' c k He' Hkey).
      * now rewrite Hprov, Ho.
      * unfold selectedCb. cbv zeta. now rewrite Hprov, Ho, E1, E2.
    + intros H3. apply Hcb. unfold selectedCb. now rewrite Hprov, H3.
Qed.

Lemma popup_then_summarize_witness :
  snd (Worker.handleSummarize (Sample.answering (ustr "ok"))
         Sample.capture
         (snd (Popup.saveSettings (Sample.answering (ustr "ok"))
                 {| Popup.providerField := ustr "gemini";
                    Popup.keyField := ustr " AIza-abc " |} Store.installed)))
  = theCall Store.Gemini (ustr "AIza-abc") Sample.capture.
Proof.
  refine (proj1 (proj1 (proj2 (@popup_then_summarize Popup.Chrome None
           (Sample.answering (ustr "ok"))
           {| Popup.providerField := ustr "gemini";
              Popup.keyField := ustr " AIza-abc " |} Store.installed
           _ (Sample.answering (ustr "ok")) Sample.capture
           (or_introl eq_refl) _ eq_refl)) eq_refl)).
  eexists. split; reflexivity.
Defined.

Section Clock.
Import JS Time.

Local Open Scope Z_scope.

Lemma seconds_under_minute z : (z / 1000 <? 60) = (z <? 60000).
Proof.
  destruct (Z.ltb_spec (z / 1000) 60), (Z.ltb_spec z 60000);
    try reflexivity; exfalso; Z.to_euclidean_division_equations; lia.
Qed.

Lemma minutes_direct z : z / 1000 / 60 = z / 60000.
Proof. Z.to_euclidean_division_equations; lia. Qed.

Lemma hours_direct z : z / 1000 / 60 / 60 = z / 3600000.
Proof. Z.to_euclidean_division_equations; lia. Qed.

Lemma days_direct z : z / 1000 / 60 / 60 / 24 = z / 86400000.
Proof. Z.to_euclidean_division_equations; lia. Qed.

Lemma minutes_under_hour z : (z / 60000 <? 60) = (z <? 3600000).
Proof.
  destruct (Z.ltb_spec (z / 60000) 60), (Z.ltb_spec z 3600000);
    try reflexivity; exfalso; Z.to_euclidean_division_equations; lia.
Qed.

Lemma hours_under_day z : (z / 3600000 <? 24) = (z <? 86400000).
Proof.
  destruct (Z.ltb_spec (z / 3600000) 24), (Z.ltb_spec z 86400000);
    try reflexivity; exfalso; Z.to_euclidean_division_equations; lia.
Qed.

Lemma days_under_week z : (z / 86400000 <? 7) = (z <? 604800000).
Proof.
  destruct (Z.ltb_spec (z / 86400000) 7), (Z.ltb_spec z 604800000);
    try reflexivity; exfalso; Z.to_euclidean_division_equations; lia.
Qed.

End Clock.

(** X23. [formatRelativeTime] on a timestamp that parses, [z] milliseconds
    before now: the nested roundings come to the whole minutes, hours and
    days of [z] itself.  Below one minute, a timestamp in the future
    included, the text is [Just now]; below one hour it shows the whole
    minutes, 1 to 59; below one day the whole hours, 1 to 23; below seven
    days the whole days, 1 to 6; the unit is plural unless the number is
    1; from seven days on the localized date is shown. *)
Theorem formatRelativeTime_ranges :
  forall (c : codeunit) (t : jsstring) (z : Z) (localized : jsstring),
    Time.formatRelativeTime (Some (c :: t)) (Some z) localized
    = (if (z <? 60000)%Z then ustr "Just now"
       else if (z <? 3600000)%Z then
         Time.count (z / 60000)
                    (ustr " minute"
                     ++ (if (z / 60000 =? 1)%Z then ustr "" else ustr "s")
                     ++ ustr " ago")
       else if (z <? 86400000)%Z then
         Time.count (z / 3600000)
                    (ustr " hour"
                     ++ (if (z / 3600000 =? 1)%Z then ustr "" else ustr "s")
                     ++ ustr " ago")
       else if (z <? 604800000)%Z then
         Time.count (z / 86400000)
                    (ustr " day"
                     ++ (if (z / 86400000 =? 1)%Z then ustr "" else ustr "s")
                     ++ ustr " ago")
       else localized)
    /\ ((60000 <= z < 3600000)%Z -> (1 <= z / 60000 <= 59)%Z)
    /\ ((3600000 <= z < 86400000)%Z -> (1 <= z / 3600000 <= 23)%Z)
    /\ ((86400000 <= z < 604800000)%Z -> (1 <= z / 86400000 <= 6)%Z).
Proof.
  intros c t z localized. split; [|split; [|split]].
  - unfold Time.formatRelativeTime. cbv zeta.
    rewrite days_direct, hours_direct, minutes_direct.
    now rewrite seconds_under_minute, minutes_under_hour, hours_under_day,
      days_under_week.
  - intros H. Z.to_euclidean_division_equations; lia.
  - intros H. Z.to_euclidean_division_equations; lia.
  - intros H. Z.to_euclidean_division_equations; lia.
Qed.

Lemma formatRelativeTime_ranges_witness :
  Time.formatRelativeTime (Some (50%N :: ustr "026-02-01T00:00:00.000Z"))
                          (Some 7199999%Z) (ustr "Feb 1")
  = ustr "1 hour ago"
  /\ (1 <= 7199999 / 3600000 <= 23)%Z.
Proof.
  split.
  - exact (eq_trans
             (proj1 (formatRelativeTime_ranges 50%N
                       (ustr "026-02-01T00:00:00.000Z") 7199999%Z
                       (ustr "Feb 1")))
             eq_refl).
  - apply (proj1 (proj2 (proj2 (formatRelativeTime_ranges 50%N
                      (ustr "026-02-01T00:00:00.000Z") 7199999%Z (ustr "Feb 1"))))).
    lia.
Defined.

(** X24. [formatTime] of the popups on a timestamp that parses, [z]
    milliseconds before now: [Just now] below one minute, a timestamp in
    the future included; the whole minutes, 1 to 59, below one hour; the
    whole hours, 1 to 23, below one day; the unit is plural unless the
    number is 1; the localized date from one day on.  Without a timestamp
    the text is [Unknown], and a timestamp that does not parse gives what
    the date formatting gives. *)
Theorem formatTime_counts :
  forall (c : codeunit) (t : jsstring) (z : Z) (localized : jsstring),
    let shown := Time.formatTime (Some (c :: t)) (Some z) localized in
    ((z < 60000)%Z -> shown = ustr "Just now")
    /\ ((60000 <= z < 3600000)%Z ->
        exists n : Z,
          (1 <= n <= 59)%Z /\ (n * 60000 <= z < (n + 1) * 60000)%Z
          /\ shown = Time.count n (ustr " min"
                                   ++ (if (n =? 1)%Z then ustr "" else ustr "s")
                                   ++ ustr " ago"))
    /\ ((3600000 <= z < 86400000)%Z ->
        exists n : Z,
          (1 <= n <= 23)%Z /\ (n * 3600000 <= z < (n + 1) * 3600000)%Z
          /\ shown = Time.count n (ustr " hour"
                                   ++ (if (n =? 1)%Z then ustr "" else ustr "s")
                                   ++ ustr " ago"))
    /\ ((86400000 <= z)%Z -> shown = localized)
    /\ Time.formatTime (Some (c :: t)) None localized = localized
    /\ Time.formatTime None (Some z) localized = ustr "Unknown"
    /\ Time.formatTime (Some []) (Some z) localized = ustr "Unknown".
Proof.
  intros c t z localized shown. unfold shown, Time.formatTime.
  assert (Hplural : forall n : Z, (1 <= n)%Z ->
             (if (1 <? n)%Z then ustr "s" else ustr "")
             = (if (n =? 1)%Z then ustr "" else ustr "s")).
  { intros n Hn. destruct (Z.ltb_spec 1 n), (Z.eqb_spec n 1);
      try reflexivity; lia. }
  repeat split.
  - intros H. destruct (Z.ltb_spec z 60000); [reflexivity | lia].
  - intros H. destruct (Z.ltb_spec z 60000); [lia|].
    destruct (Z.ltb_spec z 3600000); [|lia].
    assert (Hn : (1 <= z / 60000 <= 59)%Z)
      by (Z.to_euclidean_division_equations; lia).
    exists (z / 60000)%Z. split; [exact Hn|]. split.
    + Z.to_euclidean_division_equations; lia.
    + cbv zeta. now rewrite Hplural by lia.
  - intros H. destruct (Z.ltb_spec z 60000); [lia|].
    destruct (Z.ltb_spec z 3600000); [lia|].
    destruct (Z.ltb_spec z 86400000); [|lia].
    assert (Hn : (1 <= z / 3600000 <= 23)%Z)
      by (Z.to_euclidean_division_equations; lia).
    exists (z / 3600000)%Z. split; [exact Hn|]. split.
    + Z.to_euclidean_division_equations; lia.
    + cbv zeta. now rewrite Hplural by lia.
  - intros H. destruct (Z.ltb_spec z 60000); [lia|].
    destruct (Z.ltb_spec z 3600000); [lia|].
    destruct (Z.ltb_spec z 86400000); [lia | reflexivity].
Qed.

Lemma formatTime_counts_witness :
  Time.formatTime (Some (ustr "2026-02-01T00:00:00.000Z")) (Some (-5)%Z)
                  (ustr "Feb 1")
  = ustr "Just now".
Proof.
  apply (proj1 (formatTime_counts 50%N (ustr "026-02-01T00:00:00.000Z")
                                  (-5)%Z (ustr "Feb 1"))).
  lia.
Defined.
